(** * The Neuro-Grip maze game: session engine, metrics and report statistics

  A shallow embedding of [game.py] (the text-file baseline variant, with the
  few places where the database variant differs), [settings.py] and the
  geometry of [sprites.py].

  Numbers.  Python [int]s that stay integral (pixel coordinates, counters,
  raw sensor words) are [Z].  Every quantity that Python computes in floating
  point (velocities, forces once mixed with simulated samples, statistics)
  is an exact rational [Q]: rounding is abstracted away, control flow and
  formulas are kept.  The square root (behind [Vector2.length],
  [Vector2.distance_to] and [statistics.stdev]) is a parameter [sqrtQ] of
  the development; the few facts about it that a proof needs are stated as
  hypotheses where they are used, and [Qsqrt] below is one instance.

  Raw sensor words are unbounded ints, and Python raises [OverflowError]
  when it converts one beyond the range of floats: [hardware_target] and
  [fill_ratio] have that conversion.  The frame functions, from [control]
  to [level_loop] and [run], describe the frames in which the conversions
  succeed.

  Exceptions.  Code that can raise returns a [result]. *)

From Stdlib Require Import ZArith QArith Qminmax Qround Qabs Lqa Lia Bool List.
From Stdlib Require Import Ascii String DecimalString.
Import ListNotations.

Local Open Scope Q_scope.

(* ===================================================================== *)
(** * Python numbers and exceptions *)
(* ===================================================================== *)

Module Py.

(** [a < b] on numbers, as a test. *)
Definition Qltb (a b : Q) : bool := negb (Qle_bool b a).

(** [max(lo, min(hi, v))], the helper [clamp] of [game.py]. *)
Definition clamp (v lo hi : Q) : Q := Qmax lo (Qmin hi v).

Inductive exn : Set :=
| ZeroDivisionError
| StatisticsError
| KeyError
| ValueError
| IndexError
| OverflowError.

Inductive result (A : Type) : Type :=
| Ok (a : A)
| Raise (e : exn).
Arguments Ok {A} a.
Arguments Raise {A} e.

Definition bind {A B} (m : result A) (k : A -> result B) : result B :=
  match m with
  | Ok a => k a
  | Raise e => Raise e
  end.

(** [try: m except Exception: h] *)
Definition catch {A} (m : result A) (h : A) : A :=
  match m with
  | Ok a => a
  | Raise _ => h
  end.

(** [a / b] *)
Definition div (a b : Q) : result Q :=
  if Qeq_bool b 0 then Raise ZeroDivisionError else Ok (a / b).

(** The least magnitude that no float holds: halfway between the largest
    double, [2^1024 - 2^971], and [2^1024].  An int of at least this
    magnitude rounds to [2^1024], and its conversion to a float raises. *)
Definition float_bound : Z := (2 ^ 1024 - 2 ^ 970)%Z.

(** The float of an int, as in [n / 5000.0]: [OverflowError] for an int too
    large for a float.  (Floats are exact rationals here, so the rounding of
    a convertible int is not modelled.) *)
Definition float_of_int (z : Z) : result Q :=
  if (Z.abs z <? float_bound)%Z then Ok (inject_Z z) else Raise OverflowError.

(** The float of a number that is an int or a float.  A float is below
    [float_bound] in magnitude, so a number at or beyond it is an int, and
    converting it raises. *)
Definition to_float (x : Q) : result Q :=
  if Qle_bool (inject_Z float_bound) (Qabs x) then Raise OverflowError
  else Ok x.

(** [sum(xs)]: a left fold from [0]. *)
Definition sum (xs : list Q) : Q := fold_left Qplus xs 0.

(** [len(xs)] as a number. *)
Definition len {A} (xs : list A) : Q := inject_Z (Z.of_nat (List.length xs)).

End Py.

Import Py.

Declare Scope py_scope.
Delimit Scope py_scope with py.
Notation "x <- m ;; k" := (Py.bind m (fun x => k))
(at level 61, m at next level, right associativity) : py_scope.
Local Open Scope py_scope.

(** One instance of the square-root parameter: the floor of the root at the
  denominator's resolution, exact on squares of rationals. *)
Definition Qsqrt (q : Q) : Q := Z.sqrt (Qnum q * Zpos (Qden q)) # Qden q.

(* ===================================================================== *)
(** * [statistics.mean], [statistics.stdev] and the coefficient of variation *)
(* ===================================================================== *)

Section Statistics.

Variable sqrtQ : Q -> Q.

(** The arithmetic mean as a number (meaningful on a non-empty list). *)
Definition mean_of (data : list Q) : Q := Py.sum data / Py.len data.

(** Sum of squared deviations from the mean. *)
Definition sum_sq_dev (data : list Q) : Q :=
  Py.sum (map (fun x => (x - mean_of data) * (x - mean_of data)) data).

(** Sample variance and standard deviation as numbers (two points or more). *)
Definition variance_of (data : list Q) : Q :=
  sum_sq_dev data / (Py.len data - 1).

Definition stdev_of (data : list Q) : Q := sqrtQ (variance_of data).

(** [statistics.mean(data)]: raises on an empty list. *)
Definition mean (data : list Q) : result Q :=
  match data with
  | [] => Raise StatisticsError
  | _ :: _ => Ok (mean_of data)
  end.

(** [statistics.stdev(data)]: raises on fewer than two points. *)
Definition stdev (data : list Q) : result Q :=
  if (List.length data <? 2)%nat then Raise StatisticsError
  else Ok (stdev_of data).

(** The coefficient of variation of [_generate_report]
    (the same lines serve [_create_performance_chart]):
<<
    cov = 0
    if len(readings) > 1:
        mean_fsr = statistics.mean(readings)
        stdev_fsr = statistics.stdev(readings)
        cov = (stdev_fsr / mean_fsr) * 100 if mean_fsr > 0 else 0
>> *)
Definition cov (readings : list Q) : result Q :=
  if (1 <? List.length readings)%nat then
    mean_fsr <- mean readings ;;
    stdev_fsr <- stdev readings ;;
    if Qltb 0 mean_fsr then
      r <- Py.div stdev_fsr mean_fsr ;; Ok (r * 100)
    else Ok 0
  else Ok 0.

(** The formula of the specification, for comparison with [cov]. *)
Definition cov_reference (readings : list Q) : Q :=
  if (1 <? List.length readings)%nat && Qltb 0 (mean_of readings)
  then stdev_of readings / mean_of readings * 100
  else 0.

End Statistics.

(* ===================================================================== *)
(** * [settings.py] *)
(* ===================================================================== *)

Module Settings.

Definition TILE_SIZE : Z := 40.
Definition PLAYER_SPEED : Q := 260.
Definition PLAYER_ACCELERATION : Q := 1 # 10.
Definition PLAYER_BOUNCINESS : Q := 4 # 10.
Definition TILT_SENSITIVITY : Q := 5000.
Definition FSR_THRESHOLD : Q := 500.
Definition MAX_FSR_VALUE : Q := 4095.

Definition Easy : list string :=
  [ "WWWWWWWWWWWWWWWWWWWWWWWWWWWWWW";
    "W P                          W";
    "W                            W";
    "W  WWWWWWWWWWWWWWWWWWWWWWWW  W";
    "W                            W";
    "W                            W";
    "W                            W";
    "W  WWWWWWWWWWWWWWWWWWWWWWWW  W";
    "W                            W";
    "W                            W";
    "W                            H";
    "W  WWWWWWWWWWWWWWWWWWWWWWWW  W";
    "W                            W";
    "W                            W";
    "WWWWWWWWWWWWWWWWWWWWWWWWWWWWWW" ]%string.

Definition Medium : list string :=
  [ "WWWWWWWWWWWWWWWWWWWWWWWWWWWWWW";
    "W P  W                     H W";
    "W    W WWW WWWWWWWWWWWW WWWW W";
    "W WWWW     W          W      W";
    "W W    WWWWW WWWWWWWW W WWWW W";
    "W WWWW W   W W      W W W  W W";
    "W W    W W W W WWWW W W WW W W";
    "W W WWWW W W W W  W W W    W W";
    "W W      W   W WWWW W WWWWWW W";
    "W WWWWWWWWWWWW W    W        W";
    "W            W WWWWWWWWWWWWW W";
    "W WWWWWWWWWW W               W";
    "W          W WWWWWWWWWWWWWWW W";
    "W WWWWWWWW W                 W";
    "WWWWWWWWWWWWWWWWWWWWWWWWWWWWWW" ]%string.

Definition Hard : list string :=
  [ "WWWWWWWWWWWWWWWWWWWWWWWWWWWWWW";
    "WP W   W   W W   W     W   H W";
    "W  W W W WWW W W W WWWWW WWW W";
    "WW W W W W   W W W W     W   W";
    "W  W W W W WWW W W W WWWWW WWW W";
    "W WW W W W W   W W   W     W";
    "W W  W W W W WWWWWWWWW WWW W W";
    "W W WWW W  W  W   W W   W    W";
    "W W W   WWWWWWW W W W W WWWWW W";
    "W W W WWWW    W W W W W W     W";
    "W W W W   WWWWW W W W W W WWWWW";
    "W W W   W W     W W W W     W";
    "W W W WWW W WWWWWWWWW WWWWWW  W";
    "W     W                     W";
    "WWWWWWWWWWWWWWWWWWWWWWWWWWWWWW" ]%string.

(** The dict [LEVELS], in its insertion order. *)
Definition LEVELS : list (string * list string) :=
  [ ("Easy", Easy); ("Medium", Medium); ("Hard", Hard) ]%string.

End Settings.

Import Settings.

(* ===================================================================== *)
(** * Geometry: [pygame.Rect], [pygame.math.Vector2], the sprites *)
(* ===================================================================== *)

(** A pixel position, e.g. [rect.center]. *)
Definition point : Set := (Z * Z)%type.

(** A [Vector2]. *)
Definition Vec : Set := (Q * Q)%type.

Record Rect : Set := mkRect { rx : Z; ry : Z; rw : Z; rh : Z }.

(** [rect.center] *)
Definition center (r : Rect) : point :=
  (rx r + rw r / 2, ry r + rh r / 2)%Z.

(** [surface.get_rect(center=(cx, cy))] for a surface of size [(w, h)]. *)
Definition rect_centered (cx cy w h : Z) : Rect :=
  mkRect (cx - w / 2)%Z (cy - h / 2)%Z w h.

(** [a.colliderect(b)], which [pygame.sprite.spritecollide] applies to the
    sprites' rects: the interiors overlap. *)
Definition colliderect (a b : Rect) : bool :=
  ((rx a <? rx b + rw b) && (rx b <? rx a + rw a) &&
   (ry a <? ry b + rh b) && (ry b <? ry a + rh a))%Z.

(** [pygame.sprite.spritecollide(player, barriers, False)] *)
Definition spritecollide (player : Rect) (barriers : list Rect) : list Rect :=
  filter (colliderect player) barriers.

(** [Ball(x, y)], [Hole(x, y)] and [Barrier(x, y, w, h)] of [sprites.py],
    reduced to their rects (default sizes 20x20 and 60x60). *)
Definition Ball (x y : Z) : Rect := rect_centered x y 20 20.
Definition Hole (x y : Z) : Rect := rect_centered x y 60 60.
Definition Barrier (x y w h : Z) : Rect := mkRect x y w h.

(** [Vector2(p)] for a pixel position. *)
Definition vec_of_point (p : point) : Vec := (inject_Z (fst p), inject_Z (snd p)).

(** [a.lerp(b, t)] *)
Definition lerp (a b : Vec) (t : Q) : Vec :=
  (fst a + (fst b - fst a) * t, snd a + (snd b - snd a) * t).

Section Vector2.

Variable sqrtQ : Q -> Q.

(** [v.length()] *)
Definition Vector2_length (v : Vec) : Q := sqrtQ (fst v * fst v + snd v * snd v).

(** [a.distance_to(b)] *)
Definition distance_to (a b : Vec) : Q :=
  Vector2_length (fst b - fst a, snd b - snd a).

End Vector2.

(* ===================================================================== *)
(** * Level layouts *)
(* ===================================================================== *)

(** What the tile scan of [_play_level] collects. *)
Record Layout : Set := mkLayout {
  barriers : list Rect;
  player_start_pos : option point;
  hole : option Rect
}.

Definition empty_layout : Layout := mkLayout [] None None.

(** One tile: [W] adds a barrier, [P] sets the start, [H] sets the hole. *)
Definition scan_tile (r c : Z) (tile : ascii) (acc : Layout) : Layout :=
  let x := (c * TILE_SIZE)%Z in
  let y := (r * TILE_SIZE)%Z in
  if Ascii.eqb tile "W" then
    mkLayout (barriers acc ++ [Barrier x y TILE_SIZE TILE_SIZE])
             (player_start_pos acc) (hole acc)
  else if Ascii.eqb tile "P" then
    mkLayout (barriers acc)
             (Some (x + TILE_SIZE / 2, y + TILE_SIZE / 2)%Z) (hole acc)
  else if Ascii.eqb tile "H" then
    mkLayout (barriers acc) (player_start_pos acc)
             (Some (Hole (x + TILE_SIZE / 2) (y + TILE_SIZE / 2)))
  else acc.

(** [for c, tile in enumerate(row)] *)
Fixpoint scan_row (r c : Z) (row : string) (acc : Layout) : Layout :=
  match row with
  | EmptyString => acc
  | String tile rest => scan_row r (c + 1)%Z rest (scan_tile r c tile acc)
  end.

(** [for r, row in enumerate(level_map)] *)
Fixpoint scan_rows (r : Z) (level_map : list string) (acc : Layout) : Layout :=
  match level_map with
  | [] => acc
  | row :: rest => scan_rows (r + 1)%Z rest (scan_row r 0%Z row acc)
  end.

Definition scan_level (level_map : list string) : Layout :=
  scan_rows 0%Z level_map empty_layout.

(** [LEVELS[level_name]] *)
Fixpoint lookup_level (level_name : string) (levels : list (string * list string))
  : result (list string) :=
  match levels with
  | [] => Raise KeyError
  | (k, v) :: rest =>
      if String.eqb k level_name then Ok v else lookup_level level_name rest
  end.

(* ===================================================================== *)
(** * The per-level metrics dict *)
(* ===================================================================== *)

Record Metrics : Type := mkMetrics {
  LevelName : string;
  Duration : Q;
  Max_FSR : Q;
  Min_FSR_Move : Q;
  FSR_Readings_Move : list Q;
  Grip_Lapses : Z;
  Collision_Count : Z;
  Path_Points : list point;
  Shortest_Path_Length : Q
}.

(** The three statements that follow a motion frame's force reading [f]:
<<
    metrics["FSR_Readings_Move"].append(f)
    metrics["Max_FSR"] = max(metrics["Max_FSR"], f)
    metrics["Min_FSR_Move"] = min(metrics["Min_FSR_Move"], f)
>> *)
Definition record_force (f : Q) (m : Metrics) : Metrics :=
  mkMetrics (LevelName m) (Duration m)
            (Qmax (Max_FSR m) f) (Qmin (Min_FSR_Move m) f)
            (FSR_Readings_Move m ++ [f])
            (Grip_Lapses m) (Collision_Count m) (Path_Points m)
            (Shortest_Path_Length m).

(** [metrics["Collision_Count"] += 1] *)
Definition count_collision (m : Metrics) : Metrics :=
  mkMetrics (LevelName m) (Duration m) (Max_FSR m) (Min_FSR_Move m)
            (FSR_Readings_Move m) (Grip_Lapses m) (Collision_Count m + 1)%Z
            (Path_Points m) (Shortest_Path_Length m).

(** [metrics["Path_Points"].append(p)] *)
Definition append_path_point (p : point) (m : Metrics) : Metrics :=
  mkMetrics (LevelName m) (Duration m) (Max_FSR m) (Min_FSR_Move m)
            (FSR_Readings_Move m) (Grip_Lapses m) (Collision_Count m)
            (Path_Points m ++ [p]) (Shortest_Path_Length m).

(** [metrics["Duration"] = d] *)
Definition set_duration (d : Q) (m : Metrics) : Metrics :=
  mkMetrics (LevelName m) d (Max_FSR m) (Min_FSR_Move m)
            (FSR_Readings_Move m) (Grip_Lapses m) (Collision_Count m)
            (Path_Points m) (Shortest_Path_Length m).

(** The dict literal built at level start. *)
Definition fresh_metrics (level_name : string) (start : point)
  (shortest_path : Q) : Metrics :=
  mkMetrics level_name 0 0 MAX_FSR_VALUE [] 0%Z 0%Z [start] shortest_path.

(* ===================================================================== *)
(** * The [Game] object and the locals of [_play_level] *)
(* ===================================================================== *)

Inductive GameState : Set :=
| user_type_selection
| user_info_entry
| main_menu
| settings
| playing
| ask_continue
| generate_report.

(** The fields of [self] that the session engine reads or writes.  The dict
    [self.current_level_metrics] is created by [_play_level] and only used
    there: it is the field [metrics] of the level state below. *)
Record Game : Type := mkGame {
  running : bool;
  game_state : GameState;
  user_type : string;
  current_level_index : nat;
  completed_levels_metrics : list Metrics;
  current_fsr : Q;
  accel_data : Z * Z * Z;
  gyro_data : Z * Z * Z;
  fsr_threshold : Q
}.

(** [self.level_sequence], never reassigned. *)
Definition level_sequence : list string := ["Easy"; "Medium"; "Hard"]%string.

(** The state in which [Game.__init__] leaves [self]. *)
Definition Game_init : Game :=
  mkGame true user_type_selection "" 0 [] 0 (0, 0, 0)%Z (0, 0, 0)%Z
         FSR_THRESHOLD.

Definition set_running (b : bool) (g : Game) : Game :=
  mkGame b (game_state g) (user_type g) (current_level_index g)
         (completed_levels_metrics g)
         (current_fsr g) (accel_data g) (gyro_data g) (fsr_threshold g).

Definition set_game_state (s : GameState) (g : Game) : Game :=
  mkGame (running g) s (user_type g) (current_level_index g)
         (completed_levels_metrics g)
         (current_fsr g) (accel_data g) (gyro_data g) (fsr_threshold g).

Definition set_user_type (u : string) (g : Game) : Game :=
  mkGame (running g) (game_state g) u (current_level_index g)
         (completed_levels_metrics g)
         (current_fsr g) (accel_data g) (gyro_data g) (fsr_threshold g).

Definition set_current_level_index (i : nat) (g : Game) : Game :=
  mkGame (running g) (game_state g) (user_type g) i
         (completed_levels_metrics g)
         (current_fsr g) (accel_data g) (gyro_data g) (fsr_threshold g).

Definition set_completed_levels_metrics (ms : list Metrics) (g : Game) : Game :=
  mkGame (running g) (game_state g) (user_type g) (current_level_index g)
         ms
         (current_fsr g) (accel_data g) (gyro_data g) (fsr_threshold g).

Definition set_current_fsr (f : Q) (g : Game) : Game :=
  mkGame (running g) (game_state g) (user_type g) (current_level_index g)
         (completed_levels_metrics g)
         f (accel_data g) (gyro_data g) (fsr_threshold g).

Definition set_sensor (f : Q) (a y : Z * Z * Z) (g : Game) : Game :=
  mkGame (running g) (game_state g) (user_type g) (current_level_index g)
         (completed_levels_metrics g)
         f a y (fsr_threshold g).

(** The locals of [_play_level] that live across frames. *)
Record Level : Type := mkLevel {
  player : Rect;
  player_velocity : Vec;
  target_velocity : Vec;
  level_barriers : list Rect;
  level_hole : Rect;
  start_time : Q;
  level_running : bool;
  metrics : Metrics
}.

Definition set_player (r : Rect) (l : Level) : Level :=
  mkLevel r (player_velocity l) (target_velocity l) (level_barriers l)
          (level_hole l) (start_time l) (level_running l) (metrics l).

Definition set_player_velocity (v : Vec) (l : Level) : Level :=
  mkLevel (player l) v (target_velocity l) (level_barriers l)
          (level_hole l) (start_time l) (level_running l) (metrics l).

Definition set_target_velocity (v : Vec) (l : Level) : Level :=
  mkLevel (player l) (player_velocity l) v (level_barriers l)
          (level_hole l) (start_time l) (level_running l) (metrics l).

Definition set_level_running (b : bool) (l : Level) : Level :=
  mkLevel (player l) (player_velocity l) (target_velocity l) (level_barriers l)
          (level_hole l) (start_time l) b (metrics l).

Definition set_metrics (m : Metrics) (l : Level) : Level :=
  mkLevel (player l) (player_velocity l) (target_velocity l) (level_barriers l)
          (level_hole l) (start_time l) (level_running l) m.

(** [rect.x = v] and [rect.y = v] *)
Definition set_rx (v : Z) (r : Rect) : Rect := mkRect v (ry r) (rw r) (rh r).
Definition set_ry (v : Z) (r : Rect) : Rect := mkRect (rx r) v (rw r) (rh r).

(* ===================================================================== *)
(** * What one frame reads from the outside world *)
(* ===================================================================== *)

(** A decoded seven-field serial line. *)
Record Sample : Set := mkSample {
  sample_fsr : Z;
  sample_accel : Z * Z * Z;
  sample_gyro : Z * Z * Z
}.

(** [pygame.key.get_pressed()], the four keys that are read. *)
Record Keys : Set := mkKeys {
  K_RIGHT : bool;
  K_LEFT : bool;
  K_DOWN : bool;
  K_UP : bool
}.

(** The inputs of one iteration of the level loop:
    - [tick_ms]: what [self.clock.tick(60)] returns;
    - [serial]: the line that [_read_hardware_data] decodes, if the port is
      open, a line is waiting and it has seven integer fields;
    - [keys]: the keyboard state;
    - [random]: the draw of [random.random()] inside [random.uniform];
    - [quit_event]: whether the event queue holds a [QUIT];
    - [time]: what [time.time()] returns. *)
Record FrameInput : Type := mkFrameInput {
  tick_ms : Z;
  serial : option Sample;
  keys : Keys;
  random : Q;
  quit_event : bool;
  time : Q
}.

(** [random.random()] returns a number in the half-open unit interval. *)
Definition valid_random (i : FrameInput) : Prop := 0 <= random i /\ random i < 1.

(** [random.uniform(a, b)], given the underlying draw [r]. *)
Definition uniform (a b r : Q) : Q := a + (b - a) * r.

(* ===================================================================== *)
(** * One frame of [_play_level] *)
(* ===================================================================== *)

Section Engine.

Variable sqrtQ : Q -> Q.

(** The integer that a [Rect] coordinate takes when it is assigned a float
    (pygame coerces the value; the coercion is left open here). *)
Variable rect_coord : Q -> Z.

(** [_read_hardware_data]: a decoded line updates the three sensor fields
    and yields [True]; anything else leaves them alone and yields [False]. *)
Definition read_hardware_data (line : option Sample) (g : Game) : bool * Game :=
  match line with
  | Some s =>
      (true, set_sensor (inject_Z (sample_fsr s)) (sample_accel s) (sample_gyro s) g)
  | None => (false, g)
  end.

(** [target_velocity.length() > 0] *)
Definition has_length (v : Vec) : bool := Qltb 0 (Vector2_length sqrtQ v).

(** [clamp(self.accel_data[k] / TILT_SENSITIVITY, -1, 1)]: the word is an
    int and [TILT_SENSITIVITY] a float, so the word is converted first. *)
Definition tilt (a : Z) : result Q :=
  x <- Py.float_of_int a ;; Ok (clamp (x / TILT_SENSITIVITY) (-1) 1).

(** The target velocity of the hardware branch: both tilts are computed,
    then the grip gate decides.
<<
    tilt_x = clamp(self.accel_data[0] / TILT_SENSITIVITY, -1, 1)
    tilt_y = clamp(self.accel_data[1] / TILT_SENSITIVITY, -1, 1)
    if self.current_fsr > self.fsr_threshold: target_velocity.x = tilt_x * PLAYER_SPEED; ...
    else: target_velocity.x = 0; target_velocity.y = 0
>> *)
Definition hardware_target (g : Game) : result Vec :=
  tilt_x <- tilt (fst (fst (accel_data g))) ;;
  tilt_y <- tilt (snd (fst (accel_data g))) ;;
  Ok (if Qltb (fsr_threshold g) (current_fsr g)
      then (tilt_x * PLAYER_SPEED, tilt_y * PLAYER_SPEED)
      else (0, 0)).

(** The value of a tilt whose word converts to a float, and the target
    velocity when both do.  The frame below is the frame of such samples;
    for the others [hardware_target] has the [OverflowError]. *)
Definition tilt_value (a : Z) : Q := clamp (inject_Z a / TILT_SENSITIVITY) (-1) 1.

Definition hardware_target_value (g : Game) : Vec :=
  let tilt_x := tilt_value (fst (fst (accel_data g))) in
  let tilt_y := tilt_value (snd (fst (accel_data g))) in
  if Qltb (fsr_threshold g) (current_fsr g)
  then (tilt_x * PLAYER_SPEED, tilt_y * PLAYER_SPEED)
  else (0, 0).

(** The hardware branch on a sample whose tilt words convert: the target
    velocity, then the force sample when the target has length. *)
Definition control_hardware (g : Game) (l : Level) : Game * Level :=
  let l1 := set_target_velocity (hardware_target_value g) l in
  if has_length (target_velocity l1)
  then (g, set_metrics (record_force (current_fsr g) (metrics l1)) l1)
  else (g, l1).

(** A pressed key counts 1, a released key 0. *)
Definition pressed (b : bool) : Q := if b then 1 else 0.

(** The keyboard branch: the four arrow keys and a simulated grip. *)
Definition keyboard_target (k : Keys) : Vec :=
  ((pressed (K_RIGHT k) - pressed (K_LEFT k)) * PLAYER_SPEED,
   (pressed (K_DOWN k) - pressed (K_UP k)) * PLAYER_SPEED).

Definition control_keyboard (k : Keys) (r : Q) (g : Game) (l : Level)
  : Game * Level :=
  let l1 := set_target_velocity (keyboard_target k) l in
  if has_length (target_velocity l1) then
    let sim_fsr := uniform (FSR_THRESHOLD + 200) (MAX_FSR_VALUE - 500) r in
    (set_current_fsr sim_fsr g,
     set_metrics (record_force sim_fsr (metrics l1)) l1)
  else (set_current_fsr 0 g, l1).

(** Control Signal Resolver: the [if hardware_connected: ... else: ...]. *)
Definition control (i : FrameInput) (g : Game) (l : Level) : Game * Level :=
  let '(hardware_connected, g1) := read_hardware_data (serial i) g in
  if hardware_connected then control_hardware g1 l
  else control_keyboard (keys i) (random i) g1 l.

(** [dt = min(self.clock.tick(60) / 1000.0, 0.1)] *)
Definition frame_dt (i : FrameInput) : Q :=
  Qmin (inject_Z (tick_ms i) / 1000) (1 # 10).

(** [player_velocity = player_velocity.lerp(target_velocity, PLAYER_ACCELERATION)] *)
Definition integrate (l : Level) : Level :=
  set_player_velocity
    (lerp (player_velocity l) (target_velocity l) PLAYER_ACCELERATION) l.

(** [for event in pygame.event.get(): if event.type == pygame.QUIT: ...] *)
Definition handle_quit (i : FrameInput) (g : Game) (l : Level) : Game * Level :=
  if quit_event i then (set_running false g, set_level_running false l)
  else (g, l).

(** [player.rect.x += player_velocity.x * dt] *)
Definition proposed_x (dt : Q) (l : Level) : Rect :=
  set_rx (rect_coord (inject_Z (rx (player l)) + fst (player_velocity l) * dt))
         (player l).

(** [player.rect.y += player_velocity.y * dt] *)
Definition proposed_y (dt : Q) (l : Level) : Rect :=
  set_ry (rect_coord (inject_Z (ry (player l)) + snd (player_velocity l) * dt))
         (player l).

Definition nonempty {A} (xs : list A) : bool :=
  match xs with [] => false | _ :: _ => true end.

(** The x axis: move, test, and on any overlap revert, rebound and count.
    Returns the level and the list [x_collisions]. *)
Definition resolve_x (dt : Q) (old_x : Z) (l : Level) : Level * list Rect :=
  let l1 := set_player (proposed_x dt l) l in
  let x_collisions := spritecollide (player l1) (level_barriers l1) in
  if nonempty x_collisions then
    let l2 := set_player (set_rx old_x (player l1)) l1 in
    let l3 := set_player_velocity
                (fst (player_velocity l2) * - PLAYER_BOUNCINESS,
                 snd (player_velocity l2)) l2 in
    (set_metrics (count_collision (metrics l3)) l3, x_collisions)
  else (l1, x_collisions).

(** The y axis, likewise, after the x axis has been settled. *)
Definition resolve_y (dt : Q) (old_y : Z) (l : Level) : Level * list Rect :=
  let l1 := set_player (proposed_y dt l) l in
  let y_collisions := spritecollide (player l1) (level_barriers l1) in
  if nonempty y_collisions then
    let l2 := set_player (set_ry old_y (player l1)) l1 in
    let l3 := set_player_velocity
                (fst (player_velocity l2),
                 snd (player_velocity l2) * - PLAYER_BOUNCINESS) l2 in
    (set_metrics (count_collision (metrics l3)) l3, y_collisions)
  else (l1, y_collisions).

(** Collision Resolver: x first, then y. *)
Definition resolve_collisions (dt : Q) (l : Level) : Level :=
  let old_x := rx (player l) in
  let old_y := ry (player l) in
  let '(l1, _) := resolve_x dt old_x l in
  let '(l2, _) := resolve_y dt old_y l1 in
  l2.

(** [metrics["Path_Points"].append(player.rect.center)] *)
Definition track (l : Level) : Level :=
  set_metrics (append_path_point (center (player l)) (metrics l)) l.

(** The distance that the completion test looks at. *)
Definition goal_distance (l : Level) : Q :=
  distance_to sqrtQ (vec_of_point (center (player l)))
                    (vec_of_point (center (level_hole l))).

(** [Vector2(player.rect.center).distance_to(hole.rect.center) < 15],
    as a test on the distance and as a test on the level. *)
Definition within_capture (d : Q) : bool := Qltb d 15.

Definition goal_reached (l : Level) : bool := within_capture (goal_distance l).

(** The body of the completion [if]. *)
Definition complete_level (now : Q) (g : Game) (l : Level) : Game * Level :=
  let l1 := set_metrics (set_duration (now - start_time l) (metrics l)) l in
  let g1 := set_completed_levels_metrics
              (completed_levels_metrics g ++ [metrics l1]) g in
  let g2 := set_current_level_index (current_level_index g1 + 1) g1 in
  let g3 := if (List.length level_sequence <=? current_level_index g2)%nat
            then set_game_state generate_report g2
            else set_game_state ask_continue g2 in
  (g3, set_level_running false l1).

(** One iteration of [while level_running], up to the completion test:
    control, smoothing, events, collisions, path point. *)
Definition advance (i : FrameInput) (st : Game * Level) : Game * Level :=
  let '(g1, l1) := control i (fst st) (snd st) in
  let l2 := integrate l1 in
  let '(g3, l3) := handle_quit i g1 l2 in
  let l4 := resolve_collisions (frame_dt i) l3 in
  (g3, track l4).

(** One iteration of [while level_running]. *)
Definition frame (i : FrameInput) (st : Game * Level) : Game * Level :=
  let st1 := advance i st in
  if goal_reached (snd st1) then complete_level (time i) (fst st1) (snd st1)
  else st1.

(** [while level_running: ...] over the frames that the world supplies. *)
Fixpoint level_loop (frames : list FrameInput) (st : Game * Level)
  : Game * Level :=
  match frames with
  | [] => st
  | i :: rest =>
      if level_running (snd st) then level_loop rest (frame i st) else st
  end.

(** Level construction, from the tile scan to the first metrics dict;
    [None] when the layout has no start or no hole. *)
Definition init_level (level_name : string) (lay : Layout) (now : Q)
  : option Level :=
  match player_start_pos lay, hole lay with
  | Some start, Some h =>
      let ball := Ball (fst start) (snd start) in
      let shortest_path :=
        distance_to sqrtQ (vec_of_point start) (vec_of_point (center h)) * (3 # 2) in
      Some (mkLevel ball (0, 0) (0, 0) (barriers lay) h now true
                    (fresh_metrics level_name (center ball) shortest_path))
  | _, _ => None
  end.

(** [_play_level(level_name)]: [now] is [time.time()] at level start. *)
Definition play_level (level_name : string) (now : Q)
  (frames : list FrameInput) (g : Game) : result Game :=
  level_map <- lookup_level level_name LEVELS ;;
  match init_level level_name (scan_level level_map) now with
  | None => Ok (set_game_state main_menu g)
  | Some l => Ok (fst (level_loop frames (g, l)))
  end.

End Engine.

(* ===================================================================== *)
(** * Derived statistics of [_generate_report] *)
(* ===================================================================== *)

(** One entry of [level_specific_data]. *)
Record LevelRow : Type := mkLevelRow {
  row_name : string;
  row_duration : Q;
  row_collisions : Z;
  row_cov : Q;
  row_path_eff : Q
}.

Section Derived.

Variable sqrtQ : Q -> Q.

(** [zip(points[:-1], points[1:])] *)
Definition consecutive_pairs (points : list point) : list (point * point) :=
  combine (removelast points) (tl points).

(** [sum(Vector2(p1).distance_to(p2) for p1, p2 in zip(...))] *)
Definition path_len (points : list point) : Q :=
  Py.sum (map (fun pq => distance_to sqrtQ (vec_of_point (fst pq))
                                           (vec_of_point (snd pq)))
              (consecutive_pairs points)).

(** [(shortest_path / path_len) * 100 if path_len > 0 else 0] *)
Definition path_eff (m : Metrics) : result Q :=
  let len := path_len (Path_Points m) in
  let shortest_path := Shortest_Path_Length m in
  if Qltb 0 len then r <- Py.div shortest_path len ;; Ok (r * 100)
  else Ok 0.

(** The body of [for metrics in self.completed_levels_metrics]. *)
Definition level_row (m : Metrics) : result LevelRow :=
  c <- cov sqrtQ (FSR_Readings_Move m) ;;
  e <- path_eff m ;;
  Ok (mkLevelRow (LevelName m) (Duration m) (Collision_Count m) c e).

(** The loop that fills [level_specific_data]. *)
Fixpoint level_rows (ms : list Metrics) : result (list LevelRow) :=
  match ms with
  | [] => Ok []
  | m :: rest =>
      r <- level_row m ;;
      rs <- level_rows rest ;;
      Ok (r :: rs)
  end.

(** The session averages [(avg_cov, avg_collisions, avg_path_eff)] as
    [game.py] computes them: three bare calls of [statistics.mean]. *)
Definition session_averages (rows : list LevelRow) : result (Q * Q * Q) :=
  avg_cov <- mean (map row_cov rows) ;;
  avg_collisions <- mean (map (fun d => inject_Z (row_collisions d)) rows) ;;
  avg_path_eff <- mean (map row_path_eff rows) ;;
  Ok (avg_cov, avg_collisions, avg_path_eff).

(** [statistics.mean(xs) if level_specific_data else 0], the guarded form
    of the database variant. *)
Definition mean_or_zero (xs : list Q) : result Q :=
  if nonempty xs then mean xs else Ok 0.

Definition session_averages_db (rows : list LevelRow) : result (Q * Q * Q) :=
  avg_cov <- mean_or_zero (map row_cov rows) ;;
  avg_collisions <- mean_or_zero (map (fun d => inject_Z (row_collisions d)) rows) ;;
  avg_path_eff <- mean_or_zero (map row_path_eff rows) ;;
  Ok (avg_cov, avg_collisions, avg_path_eff).

End Derived.

(* ===================================================================== *)
(** * The population baseline file [normal_user_thresholds.txt] *)
(* ===================================================================== *)

(** The file is [None] when it does not exist, else its lines. *)
Definition File : Set := option (list string).

(** A dict with string keys, in insertion order. *)
Definition dict (V : Type) : Type := list (string * V).

(** [d[k]] *)
Fixpoint dict_get {V} (k : string) (d : dict V) : result V :=
  match d with
  | [] => Raise KeyError
  | (k', v) :: rest => if String.eqb k' k then Ok v else dict_get k rest
  end.

(** [k in d] *)
Definition dict_mem {V} (k : string) (d : dict V) : bool :=
  existsb (fun kv => String.eqb (fst kv) k) d.

(** [d[k] = v] *)
Fixpoint dict_set {V} (k : string) (v : V) (d : dict V) : dict V :=
  match d with
  | [] => [(k, v)]
  | (k', v') :: rest =>
      if String.eqb k' k then (k', v) :: rest else (k', v') :: dict_set k v rest
  end.

(** [s.split(sep)] for a one-character separator. *)
Fixpoint split (sep : ascii) (s : string) : list string :=
  match s with
  | EmptyString => [EmptyString]
  | String c rest =>
      if Ascii.eqb c sep then EmptyString :: split sep rest
      else match split sep rest with
           | [] => [String c EmptyString]
           | w :: ws => String c w :: ws
           end
  end.

(** [sep.join(parts)] *)
Fixpoint join (sep : string) (parts : list string) : string :=
  match parts with
  | [] => EmptyString
  | [p] => p
  | p :: rest => (p ++ sep ++ join sep rest)%string
  end.

(** White space as [str.strip] sees it.  A character is a code point
    below 256 here; among those, Python's white space is U+0009 to U+000D,
    U+001C to U+0020, U+0085 (next line) and U+00A0 (no-break space). *)
Definition is_space (c : ascii) : bool :=
  let n := nat_of_ascii c in
  ((9 <=? n) && (n <=? 13) || (28 <=? n) && (n <=? 32)
   || (n =? 133) || (n =? 160))%nat.

Fixpoint lstrip (s : string) : string :=
  match s with
  | EmptyString => EmptyString
  | String c rest => if is_space c then lstrip rest else s
  end.

Fixpoint rstrip (s : string) : string :=
  match s with
  | EmptyString => EmptyString
  | String c rest =>
      match rstrip rest with
      | EmptyString => if is_space c then EmptyString else String c EmptyString
      | r => String c r
      end
  end.

(** [s.strip()] *)
Definition strip (s : string) : string := rstrip (lstrip s).

(** One row of the comparison table. *)
Record CompRow : Type := mkCompRow {
  metric : string;
  your_score : Q;
  normal_avg : Q;
  difference : Q
}.

Section Baseline.

(** [float(s)], with [None] for [ValueError]; and [str(x)]. *)
Variable float_of_string : string -> option Q.
Variable str_of_float : Q -> string.

(** [[float(v) for v in vs]] *)
Fixpoint floats (vs : list string) : result (list Q) :=
  match vs with
  | [] => Ok []
  | v :: rest =>
      match float_of_string v with
      | None => Raise ValueError
      | Some x => xs <- floats rest ;; Ok (x :: xs)
      end
  end.

(** [key, values = line.strip().split(':')] followed by the list
    comprehension over [values.split(',')]. *)
Definition parse_line (line : string) : result (string * list Q) :=
  match split ":" (strip line) with
  | [key; values] => xs <- floats (split "," values) ;; Ok (key, xs)
  | _ => Raise ValueError
  end.

(** [statistics.mean(values) if values else 0] *)
Definition mean_if_any (values : list Q) : result Q :=
  if nonempty values then mean values else Ok 0.

(** The loop of [_load_normal_thresholds]; any exception escapes it. *)
Fixpoint load_lines (lines : list string) (thresholds : dict Q)
  : result (dict Q) :=
  match lines with
  | [] => Ok thresholds
  | line :: rest =>
      kv <- parse_line line ;;
      m <- mean_if_any (snd kv) ;;
      load_lines rest (dict_set (fst kv) m thresholds)
  end.

(** [_load_normal_thresholds(filename)]: [None] when the file is missing
    or when anything raised while reading it. *)
Definition load_normal_thresholds (f : File) : option (dict Q) :=
  match f with
  | None => None
  | Some lines =>
      Py.catch (d <- load_lines lines [] ;; Ok (Some d)) None
  end.

(** The body of the reading loop of [_update_normal_thresholds]: only the
    three known keys are taken. *)
Definition update_line (line : string) (thresholds : dict (list Q))
  : result (dict (list Q)) :=
  match split ":" (strip line) with
  | [key; values] =>
      if dict_mem key thresholds then
        xs <- floats (split "," values) ;; Ok (dict_set key xs thresholds)
      else Ok thresholds
  | _ => Raise ValueError
  end.

(** The reading loop inside its [try]: an exception ends the loop and keeps
    what was read before it. *)
Fixpoint update_lines (lines : list string) (thresholds : dict (list Q))
  : dict (list Q) :=
  match lines with
  | [] => thresholds
  | line :: rest =>
      match update_line line thresholds with
      | Ok t => update_lines rest t
      | Raise _ => thresholds
      end
  end.

(** [thresholds[k].append(x)] *)
Definition dict_append (k : string) (x : Q) (d : dict (list Q)) : dict (list Q) :=
  map (fun kv => if String.eqb (fst kv) k then (fst kv, snd kv ++ [x]) else kv) d.

(** [f"{key}:{','.join(map(str, values))}"], one line of the file. *)
Definition render_line (kv : string * list Q) : string :=
  (fst kv ++ ":" ++ join "," (map str_of_float (snd kv)))%string.

(** The first half of [_update_normal_thresholds]: the three histories as
    found in the file, each empty when the file is missing or has no line
    for it. *)
Definition stored_histories (f : File) : dict (list Q) :=
  let empty : dict (list Q) :=
    [("avg_cov", []); ("avg_collisions", []); ("avg_path_eff", [])]%string in
  match f with
  | Some lines => update_lines lines empty
  | None => empty
  end.

(** [_update_normal_thresholds]: read what is there, append the session's
    three averages, compute the new means and write everything back.
    Returns the new file and the dict of means.  (A failing write, which the
    code swallows, is not modelled.)  The text of every number is left to
    the one parameter [str_of_float]: Python prints a float read back from
    the file with a decimal point and an average that was passed as an int
    without one, a difference that an exact rational does not carry.  What
    is proved about the written file is therefore about what it reads back
    as, not about its characters. *)
Definition update_normal_thresholds (f : File) (avg_cov avg_collisions avg_path_eff : Q)
  : File * result (dict Q) :=
  let read := stored_histories f in
  let thresholds :=
    dict_append "avg_path_eff" avg_path_eff
      (dict_append "avg_collisions" avg_collisions
         (dict_append "avg_cov" avg_cov read)) in
  let means :=
    (fix go (d : dict (list Q)) : result (dict Q) :=
       match d with
       | [] => Ok []
       | (k, vs) :: rest =>
           m <- mean_if_any vs ;; ms <- go rest ;; Ok ((k, m) :: ms)
       end) thresholds in
  (Some (map render_line thresholds), means).

(** The three rows of the comparison table, in the order of the report. *)
Definition comparison_rows (avg_cov avg_collisions avg_path_eff : Q)
  (thresholds : dict Q) : result (list CompRow) :=
  t_collisions <- dict_get "avg_collisions" thresholds ;;
  t_cov <- dict_get "avg_cov" thresholds ;;
  t_path_eff <- dict_get "avg_path_eff" thresholds ;;
  Ok [ mkCompRow "Collisions" avg_collisions t_collisions
                 (avg_collisions - t_collisions);
       mkCompRow "Grip CoV (%)" avg_cov t_cov (avg_cov - t_cov);
       mkCompRow "Path Eff (%)" avg_path_eff t_path_eff
                 (avg_path_eff - t_path_eff) ].

(** The comparison section of the report:
<<
    if self.user_type == "rehab":
        thresholds = self._load_normal_thresholds(thresholds_file)
        if thresholds:
            ... the table ...
>>
    [None] stands for "no table". *)
Definition compare (user : string) (f : File)
  (avg_cov avg_collisions avg_path_eff : Q) : result (option (list CompRow)) :=
  if String.eqb user "rehab" then
    match load_normal_thresholds f with
    | Some (kv :: d) =>
        rows <- comparison_rows avg_cov avg_collisions avg_path_eff (kv :: d) ;;
        Ok (Some rows)
    | Some [] => Ok None
    | None => Ok None
    end
  else Ok None.

End Baseline.

(* ===================================================================== *)
(** * [_generate_report]: the payload handed to the PDF writer *)
(* ===================================================================== *)

Record Report : Type := mkReport {
  report_rows : list LevelRow;
  avg_cov : Q;
  avg_collisions : Q;
  avg_path_eff : Q;
  comparison : option (list CompRow)
}.

Section Reporting.

Variable sqrtQ : Q -> Q.
Variable float_of_string : string -> option Q.
Variable str_of_float : Q -> string.

(** [game.py]: returns the payload ([None] when the method returns at its
    first line, with no report) and the baseline file afterwards. *)
Definition generate_report_for (user : string) (completed : list Metrics)
  (f : File) : result (option Report * File) :=
  match completed with
  | [] => Ok (None, f)
  | _ :: _ =>
      rows <- level_rows sqrtQ completed ;;
      avgs <- session_averages rows ;;
      let a_cov := fst (fst avgs) in
      let a_collisions := snd (fst avgs) in
      let a_path_eff := snd avgs in
      let f1 := if String.eqb user "normal"
                then fst (update_normal_thresholds float_of_string str_of_float
                            f a_cov a_collisions a_path_eff)
                else f in
      cmp <- compare float_of_string user f1 a_cov a_collisions a_path_eff ;;
      Ok (Some (mkReport rows a_cov a_collisions a_path_eff cmp), f1)
  end.

(** The database variant, as a function of what
    [database.get_session_results] returned; it has no comparison table. *)
Definition generate_report_db (completed : list Metrics) : result (option Report) :=
  match completed with
  | [] => Ok None
  | _ :: _ =>
      rows <- level_rows sqrtQ completed ;;
      avgs <- session_averages_db rows ;;
      Ok (Some (mkReport rows (fst (fst avgs)) (snd (fst avgs)) (snd avgs) None))
  end.

End Reporting.

(* ===================================================================== *)
(** * The session state machine: menus and [Game.run] *)
(* ===================================================================== *)

(** [action == text] for what [_handle_menu_events] returned. *)
Definition is_action (action : option string) (text : string) : bool :=
  match action with
  | Some a => String.eqb a text
  | None => false
  end.

(** A menu loop: [step] handles one iteration's action and says whether the
    loop goes on. *)
Fixpoint menu_loop (step : option string -> Game -> Game * bool)
  (actions : list (option string)) (g : Game) : Game :=
  match actions with
  | [] => g
  | a :: rest =>
      let '(g1, menu_running) := step a g in
      if menu_running then menu_loop step rest g1 else g1
  end.

(** One iteration of [_get_user_type]. *)
Definition user_type_step (action : option string) (g : Game) : Game * bool :=
  if is_action action "quit" then (set_running false g, false)
  else if is_action action "Normal User (Testing)"
  then (set_game_state user_info_entry (set_user_type "normal" g), false)
  else if is_action action "Rehabilitation Patient"
  then (set_game_state user_info_entry (set_user_type "rehab" g), false)
  else (g, true).

(** One iteration of [_get_user_info]; the action ["Start Game"] stands for
    a click on the start button with all three fields filled in. *)
Definition user_info_step (action : option string) (g : Game) : Game * bool :=
  if is_action action "quit" then (set_running false g, false)
  else if is_action action "Start Game" then (set_game_state main_menu g, false)
  else (g, true).

(** One iteration of [_show_main_menu]. *)
Definition main_menu_step (action : option string) (g : Game) : Game * bool :=
  if is_action action "quit" then (set_running false g, false)
  else if is_action action "Start Game" then
    (set_game_state playing
       (set_completed_levels_metrics [] (set_current_level_index 0 g)), false)
  else if is_action action "Settings" then (set_game_state settings g, false)
  else if is_action action "Quit" then (set_running false g, false)
  else (g, true).

(** One iteration of [_show_settings_menu] (the music toggle has no effect
    on the modelled state). *)
Definition settings_step (action : option string) (g : Game) : Game * bool :=
  if is_action action "quit" then (set_running false g, false)
  else if is_action action "Back" then (set_game_state main_menu g, false)
  else (g, true).

(** [self.level_sequence[i]] *)
Definition level_name_at (i : nat) : result string :=
  match nth_error level_sequence i with
  | Some n => Ok n
  | None => Raise IndexError
  end.

(** [_ask_to_continue]: each iteration handles the action and then renders
    the name of the next level, which indexes [level_sequence]. *)
Fixpoint ask_to_continue (actions : list (option string)) (g : Game)
  : result Game :=
  match actions with
  | [] => Ok g
  | a :: rest =>
      let '(g1, ask_running) :=
        if is_action a "quit" then (set_running false g, false)
        else if is_action a "Continue" then (set_game_state playing g, false)
        else if is_action a "End & Report"
        then (set_game_state generate_report g, false)
        else (g, true) in
      _ <- level_name_at (current_level_index g1) ;;
      if ask_running then ask_to_continue rest g1 else Ok g1
  end.

(** Everything outside the [Game] object that [run] touches. *)
Record World : Type := mkWorld {
  game : Game;
  thresholds_file : File;
  reports : list Report
}.

(** What one iteration of [run] consumes: menu actions (one per menu-loop
    iteration), the clock at level start, and the level's frames. *)
Record StepInput : Type := mkStepInput {
  actions : list (option string);
  level_start : Q;
  frames : list FrameInput
}.

Section Session.

Variable sqrtQ : Q -> Q.
Variable rect_coord : Q -> Z.
Variable float_of_string : string -> option Q.
Variable str_of_float : Q -> string.

(** One iteration of [while self.running] in [run]. *)
Definition run_step (i : StepInput) (w : World) : result World :=
  let g := game w in
  let with_game g1 := mkWorld g1 (thresholds_file w) (reports w) in
  match game_state g with
  | user_type_selection => Ok (with_game (menu_loop user_type_step (actions i) g))
  | user_info_entry => Ok (with_game (menu_loop user_info_step (actions i) g))
  | main_menu => Ok (with_game (menu_loop main_menu_step (actions i) g))
  | settings => Ok (with_game (menu_loop settings_step (actions i) g))
  | playing =>
      level_name <- level_name_at (current_level_index g) ;;
      g1 <- play_level sqrtQ rect_coord level_name (level_start i) (frames i) g ;;
      Ok (with_game g1)
  | ask_continue =>
      g1 <- ask_to_continue (actions i) g ;;
      Ok (with_game g1)
  | generate_report =>
      out <- generate_report_for sqrtQ float_of_string str_of_float
               (user_type g) (completed_levels_metrics g) (thresholds_file w) ;;
      let g1 := set_game_state main_menu
                  (set_completed_levels_metrics []
                     (set_current_level_index 0 g)) in
      Ok (mkWorld g1 (snd out)
                  (match fst out with
                   | Some r => reports w ++ [r]
                   | None => reports w
                   end))
  end.

(** [run]: the loop over the iterations that the world supplies. *)
Fixpoint run (inputs : list StepInput) (w : World) : result World :=
  match inputs with
  | [] => Ok w
  | i :: rest =>
      if running (game w) then w1 <- run_step i w ;; run rest w1 else Ok w
  end.

End Session.

(* ===================================================================== *)
(** * Instances of the parameters, and sample inputs *)
(* ===================================================================== *)

(** One coercion of floats to pixel coordinates: truncation towards zero.
    (Recent pygame rounds to the nearest integer instead; the theorems hold
    for every coercion, and this one only serves the worked instances.) *)
Definition truncate (q : Q) : Z := Z.quot (Qnum q) (Zpos (Qden q)).

(** A [float()] that reads decimal integers, and a [str()] that prints the
    integer part. *)
Definition float_of_digits (s : string) : option Q :=
  option_map (fun i => inject_Z (Z.of_int i)) (NilZero.int_of_string s).

Definition str_of_floor (q : Q) : string :=
  NilZero.string_of_int (Z.to_int (Qfloor q)).

(** The first level, freshly built at time [0]. *)
Definition easy_level : option Level :=
  init_level Qsqrt "Easy" (scan_level Easy) 0.

(** The same level as a plain value. *)
Definition easy_start : Level :=
  mkLevel (Ball 100 60) (0, 0) (0, 0) (barriers (scan_level Easy))
          (Hole 1180 420) 0 true (fresh_metrics "Easy" (100, 60)%Z (3414 # 2)).

(** The first level with the ball in the top-left corner of the open area,
    touching the wall on its left and the wall above it. *)
Definition corner_level : Level :=
  mkLevel (mkRect 40 40 20 20) (0, 0) (0, 0) (barriers (scan_level Easy))
          (Hole 1180 420) 0 true (fresh_metrics "Easy" (50, 50)%Z (3414 # 2)).

(** A keyboard frame of 100 ms with LEFT and UP held. *)
Definition left_up_frame : FrameInput :=
  mkFrameInput 100 None (mkKeys false true false true) (1 # 2) false 1.


(** The keys that are down cancel on both axes: no axis has exactly one of
    its two keys down. *)
Definition keys_cancel (k : Keys) : bool :=
  Bool.eqb (K_RIGHT k) (K_LEFT k) && Bool.eqb (K_DOWN k) (K_UP k).

(** [max(xs)] and [min(xs)] of a non-empty list (0 on the empty one). *)
Definition Qmaximum (xs : list Q) : Q :=
  match xs with
  | [] => 0
  | x :: rest => fold_left Qmax rest x
  end.

Definition Qminimum (xs : list Q) : Q :=
  match xs with
  | [] => 0
  | x :: rest => fold_left Qmin rest x
  end.

(** A keyboard frame with RIGHT and LEFT held together. *)
Definition opposing_keys_frame : FrameInput :=
  mkFrameInput 16 None (mkKeys true true false false) (1 # 2) false 1.

(** A hardware frame whose force word is 5000, with the ball tilted right. *)
Definition strong_grip_frame : FrameInput :=
  mkFrameInput 16 (Some (mkSample 5000 (5000, 0, 0)%Z (0, 0, 0)%Z))
               (mkKeys false false false false) 0 false 1.

(** The invariant of the force part of a metrics dict: every recorded
    sample is above the threshold, and the two running extrema are the folds
    of [max] from 0 and of [min] from the sentinel over the samples. *)
Definition force_invariant (m : Metrics) : Prop :=
  Forall (fun f => FSR_THRESHOLD < f) (FSR_Readings_Move m) /\
  Max_FSR m = fold_left Qmax (FSR_Readings_Move m) 0 /\
  Min_FSR_Move m = fold_left Qmin (FSR_Readings_Move m) MAX_FSR_VALUE.

(** The session invariant: while a level is played or the player is asked
    to continue, the level index points into [level_sequence]. *)
Definition index_in_range (g : Game) : Prop :=
  game_state g = playing \/ game_state g = ask_continue ->
  (current_level_index g < List.length level_sequence)%nat.

(** A record with the straight path of the specification's example: from
    (0,0) to (10,0), with a shortest-path length of 15. *)
Definition straight_path_metrics : Metrics :=
  mkMetrics "Easy" 0 0 MAX_FSR_VALUE [] 0%Z 0%Z [(0, 0); (10, 0)]%Z 15.

(** A record whose path never left its first point. *)
Definition still_path_metrics : Metrics :=
  mkMetrics "Easy" 0 0 MAX_FSR_VALUE [] 0%Z 0%Z [(0, 0); (0, 0)]%Z 15.

(* ===================================================================== *)
(** * Predicates for the engine's invariants *)
(* ===================================================================== *)

(** Both components of a velocity are within the maximum speed. *)
Definition within_speed (v : Vec) : Prop :=
  (- PLAYER_SPEED <= fst v /\ fst v <= PLAYER_SPEED) /\
  (- PLAYER_SPEED <= snd v /\ snd v <= PLAYER_SPEED).

(** The ball overlaps no barrier. *)
Definition clear_of_barriers (l : Level) : Prop :=
  spritecollide (player l) (level_barriers l) = [].

(** Tile [(r1, c1)] is scanned before tile [(r2, c2)]. *)
Definition scanned_before (r1 c1 r2 c2 : Z) : Prop :=
  (r1 < r2 \/ (r1 = r2 /\ c1 < c2))%Z.

(** What the tile scan has collected when it reaches tile [(r, c)]: each
    barrier and the start sit on tiles already scanned, and the ball placed
    on the start overlaps no barrier. *)
Definition scan_invariant (r c : Z) (acc : Layout) : Prop :=
  (forall b, In b (barriers acc) ->
     exists r' c', b = Barrier (c' * TILE_SIZE) (r' * TILE_SIZE) TILE_SIZE TILE_SIZE /\
                   scanned_before r' c' r c) /\
  (forall p, player_start_pos acc = Some p ->
     exists r' c', p = (c' * TILE_SIZE + TILE_SIZE / 2,
                        r' * TILE_SIZE + TILE_SIZE / 2)%Z /\
                   scanned_before r' c' r c) /\
  (forall b p, In b (barriers acc) -> player_start_pos acc = Some p ->
     colliderect (Ball (fst p) (snd p)) b = false).

(** Some row of the layout holds the tile [t]. *)
Fixpoint row_has_tile (t : ascii) (row : string) : bool :=
  match row with
  | EmptyString => false
  | String c rest => Ascii.eqb c t || row_has_tile t rest
  end.

Definition has_tile (t : ascii) (level_map : list string) : bool :=
  existsb (row_has_tile t) level_map.

(** The completed records are those of the first levels of the sequence, in
    order, one per level up to the current index. *)
Definition levels_in_order (g : Game) : Prop :=
  map LevelName (completed_levels_metrics g) =
    firstn (current_level_index g) level_sequence /\
  (current_level_index g <= List.length level_sequence)%nat.

(* ===================================================================== *)
(** * [_read_hardware_data] on the text of a serial line *)
(* ===================================================================== *)

Section Serial.

(** [int(s)], with [None] for [ValueError]. *)
Variable int_of_string : string -> option Z.

(** [[int(a), int(b), int(c)]] *)
Definition int_triple (a b c : string) : option (Z * Z * Z) :=
  match int_of_string a, int_of_string b, int_of_string c with
  | Some x, Some y, Some z => Some (x, y, z)
  | _, _, _ => None
  end.

(** [self.accel_data = a] and [self.gyro_data = y] *)
Definition set_accel_data (a : Z * Z * Z) (g : Game) : Game :=
  set_sensor (current_fsr g) a (gyro_data g) g.

Definition set_gyro_data (y : Z * Z * Z) (g : Game) : Game :=
  set_sensor (current_fsr g) (accel_data g) y g.

(** [_read_hardware_data], from the decoded text of the line: [line] is
    [None] when the port is closed, when nothing is waiting, or when reading
    or decoding raised (all before any assignment).  The three assignments
    happen in order, and an [int()] that raises stops the method there:
<<
    data = line.strip().split(',')
    if len(data) == 7:
        self.current_fsr = int(data[0])
        self.accel_data = [int(data[1]), int(data[2]), int(data[3])]
        self.gyro_data = [int(data[4]), int(data[5]), int(data[6])]
        return True
>> *)
Definition read_hardware_line (line : option string) (g : Game) : bool * Game :=
  match line with
  | None => (false, g)
  | Some raw =>
      match split "," (strip raw) with
      | [d0; d1; d2; d3; d4; d5; d6] =>
          match int_of_string d0 with
          | None => (false, g)
          | Some fsr =>
              let g1 := set_current_fsr (inject_Z fsr) g in
              match int_triple d1 d2 d3 with
              | None => (false, g1)
              | Some accel =>
                  let g2 := set_accel_data accel g1 in
                  match int_triple d4 d5 d6 with
                  | None => (false, g2)
                  | Some gyro => (true, set_gyro_data gyro g2)
                  end
              end
          end
      | _ => (false, g)
      end
  end.

(** The sample that a line stands for, when all seven fields are integers. *)
Definition decode_sample (raw : string) : option Sample :=
  match split "," (strip raw) with
  | [d0; d1; d2; d3; d4; d5; d6] =>
      match int_of_string d0, int_triple d1 d2 d3, int_triple d4 d5 d6 with
      | Some fsr, Some accel, Some gyro => Some (mkSample fsr accel gyro)
      | _, _, _ => None
      end
  | _ => None
  end.

End Serial.

(* ===================================================================== *)
(** * The numbers of [_draw_hud] *)
(* ===================================================================== *)

(** [GRIP_METER_POS] and [GRIP_METER_SIZE] of [settings.py]. *)
Definition GRIP_METER_POS : Z * Z := (140, 12)%Z.
Definition GRIP_METER_SIZE : Z * Z := (200, 20)%Z.

(** [mins, secs = int(elapsed_time // 60), int(elapsed_time % 60)]:
    floor division, the remainder it leaves, and [int]'s truncation. *)
Definition hud_timer (elapsed_time : Q) : Z * Z :=
  let quotient := inject_Z (Qfloor (elapsed_time / 60)) in
  (truncate quotient, truncate (elapsed_time - 60 * quotient)).

(** [fill_ratio = clamp(self.current_fsr / MAX_FSR_VALUE, 0, 1)] and the
    width [GRIP_METER_SIZE[0] * fill_ratio] of the filled bar.  The current
    force is an int (a sensor word, or 0) or a float (a simulated sample),
    and [MAX_FSR_VALUE] a float: the force is converted first. *)
Definition fill_ratio (g : Game) : result Q :=
  x <- Py.to_float (current_fsr g) ;; Ok (clamp (x / MAX_FSR_VALUE) 0 1).

Definition fill_width (g : Game) : result Q :=
  r <- fill_ratio g ;; Ok (inject_Z (fst GRIP_METER_SIZE) * r).

(** [threshold_x], where the threshold line is drawn. *)
Definition threshold_x : Q :=
  inject_Z (fst GRIP_METER_POS)
  + (FSR_THRESHOLD / MAX_FSR_VALUE) * inject_Z (fst GRIP_METER_SIZE).

(* ===================================================================== *)
(** * Well-formed baseline files *)
(* ===================================================================== *)

(** Every character of [s] passes [p]. *)
Fixpoint string_forall (p : ascii -> bool) (s : string) : bool :=
  match s with
  | EmptyString => true
  | String c rest => p c && string_forall p rest
  end.

(** A piece of text that can stand in a line of the file: it holds no
    comma, no colon and no white space. *)
Definition token_ok (s : string) : bool :=
  string_forall
    (fun c => negb (Ascii.eqb c "," || Ascii.eqb c ":" || is_space c)) s.

(** A number that survives being written and read back: [str] gives a
    token, and [float] of that token is the number again. *)
Definition value_ok (float_of_string : string -> option Q)
  (str_of_float : Q -> string) (x : Q) : Prop :=
  token_ok (str_of_float x) = true /\
  float_of_string (str_of_float x) = Some x.

(** The three histories that the baseline file holds, and the file that
    [_update_normal_thresholds] writes for them. *)
Definition baseline_history (covs collisions path_effs : list Q)
  : dict (list Q) :=
  [("avg_cov", covs); ("avg_collisions", collisions);
   ("avg_path_eff", path_effs)]%string.

Definition baseline_file (str_of_float : Q -> string)
  (covs collisions path_effs : list Q) : File :=
  Some (map (render_line str_of_float)
            (baseline_history covs collisions path_effs)).

(* ===================================================================== *)
(** * Buttons and particles of [sprites.py], and [_handle_menu_events] *)
(* ===================================================================== *)

(** The event types that the menus tell apart, with pygame's numbers. *)
Definition QUIT : Z := 256%Z.
Definition MOUSEBUTTONDOWN : Z := 1025%Z.
Definition MOUSEBUTTONUP : Z := 1026%Z.

Module Sprites.

(** [rect.collidepoint(p)]: the right and bottom edges are outside. *)
Definition collidepoint (r : Rect) (p : point) : bool :=
  ((rx r <=? fst p) && (fst p <? rx r + rw r) &&
   (ry r <=? snd p) && (snd p <? ry r + rh r))%Z.

(** The fields of a [Button] that its logic reads or writes. *)
Record Button : Set := mkButton {
  rect : Rect;
  text : string;
  is_hovered : bool;
  is_pressed : bool
}.

(** [Button(x, y, width, height, text, ...)] *)
Definition Button_init (x y width height : Z) (label : string) : Button :=
  mkButton (mkRect x y width height) label false false.

Definition set_is_pressed (v : bool) (b : Button) : Button :=
  mkButton (rect b) (text b) (is_hovered b) v.

(** [button.check_hover(mouse_pos)] *)
Definition check_hover (mouse_pos : point) (b : Button) : Button :=
  mkButton (rect b) (text b) (collidepoint (rect b) mouse_pos) (is_pressed b).

(** [button.is_clicked(event)]: the button afterwards and the answer. *)
Definition is_clicked (event_type : Z) (b : Button) : Button * bool :=
  if (event_type =? MOUSEBUTTONDOWN)%Z && is_hovered b
  then (set_is_pressed true b, false)
  else if (event_type =? MOUSEBUTTONUP)%Z && is_pressed b
  then (set_is_pressed false b, is_hovered b)
  else (b, false).

(** The fields of a [Particle] that [update] reads or writes; [alive] is
    membership in its sprite groups, which [kill] ends. *)
Record Particle : Set := mkParticle {
  position : point;
  velocity : Vec;
  lifespan : Z;
  alpha : Q;
  alive : bool
}.

(** [Particle(x, y, color, size, velocity)] *)
Definition Particle_init (x y : Z) (v : Vec) : Particle :=
  mkParticle (x, y) v 60 255 true.

(** [particle.update()]; [rect_coord] is the coercion of [move_ip]. *)
Definition update (rect_coord : Q -> Z) (p : Particle) : Particle :=
  let position1 := (fst (position p) + rect_coord (fst (velocity p)),
                    snd (position p) + rect_coord (snd (velocity p)))%Z in
  let lifespan1 := (lifespan p - 1)%Z in
  let alpha1 := if (lifespan1 <? 30)%Z
                then Qmax 0 (alpha p - 255 / 30)
                else alpha p in
  mkParticle position1 (velocity p) lifespan1 alpha1
             (if (lifespan1 <=? 0)%Z then false else alive p).

(** [particles.update()], once per frame for [n] frames, seen from one
    particle: a killed particle has left the group and is not updated. *)
Fixpoint updates (rect_coord : Q -> Z) (n : nat) (p : Particle) : Particle :=
  match n with
  | O => p
  | S k => if alive p then updates rect_coord k (update rect_coord p) else p
  end.

End Sprites.

(** The inner loop of [_handle_menu_events]: the buttons are asked in
    order, and the first that reports a click ends the whole method, so the
    buttons after it are not asked. *)
Fixpoint click_buttons (event_type : Z) (buttons : list Sprites.Button)
  : list Sprites.Button * option string :=
  match buttons with
  | [] => ([], None)
  | b :: rest =>
      let '(b1, clicked) := Sprites.is_clicked event_type b in
      if clicked then (b1 :: rest, Some (Sprites.text b1))
      else let '(rest1, action) := click_buttons event_type rest in
           (b1 :: rest1, action)
  end.

(** The body of [for event in pygame.event.get()]: the buttons afterwards,
    and what the method returns if it returns at this event. *)
Definition handle_event (event_type : Z) (buttons : list Sprites.Button)
  : list Sprites.Button * option string :=
  if (event_type =? QUIT)%Z then (buttons, Some "quit"%string)
  else
    match click_buttons event_type buttons with
    | (buttons1, Some action) => (buttons1, Some action)
    | (buttons1, None) =>
        let buttons2 :=
          if (event_type =? MOUSEBUTTONDOWN)%Z
          then map (fun b => if Sprites.is_hovered b
                             then Sprites.set_is_pressed true b else b) buttons1
          else buttons1 in
        let buttons3 :=
          if (event_type =? MOUSEBUTTONUP)%Z
          then map (Sprites.set_is_pressed false) buttons2
          else buttons2 in
        (buttons3, None)
    end.

(** [_handle_menu_events(buttons)] on the event queue of one frame. *)
Fixpoint handle_menu_events (events : list Z) (buttons : list Sprites.Button)
  : list Sprites.Button * option string :=
  match events with
  | [] => (buttons, None)
  | event_type :: rest =>
      match handle_event event_type buttons with
      | (buttons1, Some action) => (buttons1, Some action)
      | (buttons1, None) => handle_menu_events rest buttons1
      end
  end.

(** One iteration of a menu loop up to its action: the hover flags follow
    the mouse, then the events are handled. *)
Definition menu_frame (mouse_pos : point) (events : list Z)
  (buttons : list Sprites.Button) : list Sprites.Button * option string :=
  handle_menu_events events (map (Sprites.check_hover mouse_pos) buttons).

(** What handling events keeps of a button ([b] before, [b1] after), and
    how a button can come to be pressed: it was pressed before, or it is
    under the pointer and [downs] holds. *)
Definition same_face (downs : Prop) (b b1 : Sprites.Button) : Prop :=
  Sprites.rect b1 = Sprites.rect b /\ Sprites.text b1 = Sprites.text b /\
  Sprites.is_hovered b1 = Sprites.is_hovered b /\
  (Sprites.is_pressed b1 = true ->
   Sprites.is_pressed b = true \/ Sprites.is_hovered b = true /\ downs).

(* ===================================================================== *)
(** * [database.get_player_history] on the rows that the query returned *)
(* ===================================================================== *)

Module Database.

(** One row of the query, with the JSON column decoded. *)
Record Row : Type := mkRow {
  level_name : string;
  duration_seconds : Q;
  collision_count : Z;
  fsr_readings_move : list Q;
  session_id : Z
}.

Record Summary : Type := mkSummary {
  total_sessions : nat;
  total_levels_played : nat;
  total_playtime_seconds : Q;
  avg_collisions_per_level : Q;
  avg_grip_cov : Q;
  levels_by_difficulty : dict Z
}.

(** The summary before any row is processed. *)
Definition empty_summary : Summary := mkSummary 0 0 0 0 0 [].

(** The local variables of the loop over the rows. *)
Record Acc : Type := mkAcc {
  unique_sessions : list Z;
  playtime : Q;
  total_collisions : Z;
  by_difficulty : dict Z;
  all_level_covs : list Q
}.

(** [s.add(x)] on a set kept as a list without repetition. *)
Definition set_add (x : Z) (s : list Z) : list Z :=
  if existsb (Z.eqb x) s then s else s ++ [x].

(** [d.get(k, 0)] *)
Definition get_or_zero (k : string) (d : dict Z) : Z :=
  Py.catch (dict_get k d) 0%Z.

Section History.

Variable sqrtQ : Q -> Q.

(** The body of [for row in results]. *)
Definition history_row (row : Row) (acc : Acc) : result Acc :=
  let sessions1 := set_add (session_id row) (unique_sessions acc) in
  let playtime1 := playtime acc + duration_seconds row in
  let collisions1 := (total_collisions acc + collision_count row)%Z in
  let by_difficulty1 :=
    dict_set (level_name row)
             (get_or_zero (level_name row) (by_difficulty acc) + 1)%Z
             (by_difficulty acc) in
  let fsr_readings := fsr_readings_move row in
  if (1 <? List.length fsr_readings)%nat then
    mean_fsr <- mean fsr_readings ;;
    stdev_fsr <- stdev sqrtQ fsr_readings ;;
    cov <- (if Qltb 0 mean_fsr
            then r <- Py.div stdev_fsr mean_fsr ;; Ok (r * 100)
            else Ok 0) ;;
    Ok (mkAcc sessions1 playtime1 collisions1 by_difficulty1
              (all_level_covs acc ++ [cov]))
  else
    Ok (mkAcc sessions1 playtime1 collisions1 by_difficulty1
              (all_level_covs acc)).

Fixpoint history_rows (results : list Row) (acc : Acc) : result Acc :=
  match results with
  | [] => Ok acc
  | row :: rest => acc1 <- history_row row acc ;; history_rows rest acc1
  end.

(** [get_player_history] after [cursor.fetchall()]: [None] is the answer of
    the [except] branch. *)
Definition get_player_history (results : list Row) : option Summary :=
  match results with
  | [] => Some empty_summary
  | _ :: _ =>
      Py.catch
        (acc <- history_rows results (mkAcc [] 0 0%Z [] []) ;;
         let total_levels := List.length results in
         avg_collisions <-
           (if (0 <? total_levels)%nat
            then Py.div (inject_Z (total_collisions acc)) (Py.len results)
            else Ok 0) ;;
         avg_cov <-
           (if nonempty (all_level_covs acc)
            then mean (all_level_covs acc) else Ok 0) ;;
         Ok (Some (mkSummary (List.length (unique_sessions acc)) total_levels
                             (playtime acc) avg_collisions avg_cov
                             (by_difficulty acc))))
        None
  end.

End History.

(** The sum of the counts of a dict. *)
Definition total_count (d : dict Z) : Z :=
  fold_right (fun kv n => (snd kv + n)%Z) 0%Z d.

(** The levels that enter the historical grip average: those with two
    readings or more. *)
Definition measured (results : list Row) : list (list Q) :=
  filter (fun readings => (1 <? List.length readings)%nat)
         (map fsr_readings_move results).

End Database.

(* ===================================================================== *)
(** * Sample sessions *)
(* ===================================================================== *)

(** A session that has completed the first level and waits for the
    player's choice. *)
Definition level_done_world : World :=
  mkWorld (mkGame true ask_continue "normal" 1 [straight_path_metrics] 0
                  (0, 0, 0)%Z (0, 0, 0)%Z FSR_THRESHOLD)
          None [].

(** The first two buttons of the main menu, as created. *)
Definition main_menu_buttons : list Sprites.Button :=
  [Sprites.Button_init 450 250 300 80 "Start Game";
   Sprites.Button_init 450 350 300 80 "Settings"].

(* ===================================================================== *)
(** * Properties *)
(* ===================================================================== *)

(** ** Comparisons and the square-root instance *)

Lemma Qltb_lt (a b : Q) : Qltb a b = true <-> a < b.
Proof.
  unfold Qltb. rewrite negb_true_iff. split; intro H.
  - apply Qnot_le_lt. intro Hle. apply Qle_bool_iff in Hle. congruence.
  - destruct (Qle_bool b a) eqn:E; trivial.
    apply Qle_bool_iff in E. exfalso. exact (Qlt_not_le _ _ H E).
Qed.

Lemma Qltb_ge (a b : Q) : Qltb a b = false <-> b <= a.
Proof.
  unfold Qltb. rewrite negb_false_iff. apply Qle_bool_iff.
Qed.

Lemma Qsqrt_zero (q : Q) : q == 0 -> Qsqrt q == 0.
Proof.
  destruct q as [n d]. unfold Qeq, Qsqrt. simpl. intro H.
  assert (n = 0%Z) by lia. subst n. reflexivity.
Qed.

Lemma Qsqrt_pos (q : Q) : 0 < q -> 0 < Qsqrt q.
Proof.
  destruct q as [n d]. unfold Qlt, Qsqrt. simpl. intro H.
  assert (0 < Z.sqrt (n * Z.pos d))%Z by (apply Z.sqrt_pos; nia).
  lia.
Qed.

Lemma Qsqrt_square (q : Q) : 0 <= q -> Qsqrt (q * q) == q.
Proof.
  destruct q as [n d]. unfold Qle, Qeq, Qsqrt. simpl. intro H.
  replace (n * n * Z.pos (d * d))%Z with ((n * Z.pos d) * (n * Z.pos d))%Z
    by (rewrite Pos2Z.inj_mul; ring).
  rewrite Z.sqrt_square by nia.
  rewrite Pos2Z.inj_mul. ring.
Qed.

(** ** What the later phases of a frame leave alone *)

Ltac split_ifs :=
  repeat match goal with
         | |- context [if ?b then _ else _] => destruct b
         end.

Section FrameFacts.

Variable sqrtQ : Q -> Q.
Variable rect_coord : Q -> Z.

Lemma resolve_collisions_target (dt : Q) (l : Level) :
  target_velocity (resolve_collisions rect_coord dt l) = target_velocity l.
Proof.
  unfold resolve_collisions, resolve_x, resolve_y. split_ifs; reflexivity.
Qed.

Lemma complete_level_target (now : Q) (g : Game) (l : Level) :
  target_velocity (snd (complete_level now g l)) = target_velocity l.
Proof. reflexivity. Qed.

Lemma handle_quit_level (i : FrameInput) (g : Game) (l : Level) :
  snd (handle_quit i g l) = if quit_event i then set_level_running false l else l.
Proof. unfold handle_quit. destruct (quit_event i); reflexivity. Qed.

Lemma frame_target (i : FrameInput) (st : Game * Level) :
  target_velocity (snd (frame sqrtQ rect_coord i st)) =
  target_velocity (snd (control sqrtQ i (fst st) (snd st))).
Proof.
  unfold frame, advance.
  destruct (control sqrtQ i (fst st) (snd st)) as [g1 l1].
  destruct (handle_quit i g1 (integrate l1)) as [g3 l3] eqn:Hq.
  assert (Hl : l3 = snd (handle_quit i g1 (integrate l1))) by (rewrite Hq; reflexivity).
  rewrite handle_quit_level in Hl.
  cbn [fst snd].
  match goal with
  | |- context [if ?b then _ else _] => destruct b
  end; cbn [snd]; rewrite ?complete_level_target; unfold track; cbn [target_velocity set_metrics];
    rewrite resolve_collisions_target; subst l3; destruct (quit_event i); reflexivity.
Qed.

Lemma control_hardware_target (g : Game) (l : Level) :
  target_velocity (snd (control_hardware sqrtQ g l)) = hardware_target_value g.
Proof.
  unfold control_hardware. split_ifs; reflexivity.
Qed.

Lemma float_of_int_ok (z : Z) :
  (Z.abs z < Py.float_bound)%Z -> Py.float_of_int z = Ok (inject_Z z).
Proof.
  intro H. unfold Py.float_of_int. apply Z.ltb_lt in H. rewrite H. reflexivity.
Qed.

Lemma float_of_int_overflow (z : Z) :
  (Py.float_bound <= Z.abs z)%Z -> Py.float_of_int z = Raise OverflowError.
Proof.
  intro H. unfold Py.float_of_int. apply Z.ltb_ge in H. rewrite H. reflexivity.
Qed.

(** When both tilt words convert, the hardware branch has the target of
    the frame's control step; when one does not, it raises. *)
Lemma hardware_target_ok (g : Game) :
  (Z.abs (fst (fst (accel_data g))) < Py.float_bound)%Z ->
  (Z.abs (snd (fst (accel_data g))) < Py.float_bound)%Z ->
  hardware_target g = Ok (hardware_target_value g).
Proof.
  intros Hx Hy. unfold hardware_target, tilt.
  rewrite (float_of_int_ok _ Hx), (float_of_int_ok _ Hy). reflexivity.
Qed.

Lemma hardware_target_overflow (g : Game) :
  (Py.float_bound <= Z.abs (fst (fst (accel_data g))))%Z \/
  (Py.float_bound <= Z.abs (snd (fst (accel_data g))))%Z ->
  hardware_target g = Raise OverflowError.
Proof.
  intros H. unfold hardware_target, tilt.
  destruct (Py.float_of_int (fst (fst (accel_data g)))) as [x|e] eqn:Ex.
  - destruct H as [H | H].
    + rewrite (float_of_int_overflow _ H) in Ex. discriminate.
    + rewrite (float_of_int_overflow _ H). reflexivity.
  - unfold Py.float_of_int in Ex.
    destruct (Z.abs (fst (fst (accel_data g))) <? Py.float_bound)%Z;
      [discriminate|].
    injection Ex as <-. reflexivity.
Qed.

(** C1. Grip-gating on the hardware path, for a frame that decodes a
    hardware sample.  When both tilt words are within the range of a float,
    a force reading at or below the threshold makes the target velocity
    exactly zero whatever the tilt, and a reading above it makes the target
    velocity [max(-1, min(1, word / TILT_SENSITIVITY))] times the maximum
    speed on each axis; this is also the target velocity at the end of the
    frame.  When a tilt word is beyond that range, computing the tilt
    raises [OverflowError] before the force is looked at. *)
Theorem grip_gating_hardware_path :
  forall (i : FrameInput) (g : Game) (l : Level) (s : Sample),
    serial i = Some s ->
    let force := inject_Z (sample_fsr s) in
    let word_x := fst (fst (sample_accel s)) in
    let word_y := snd (fst (sample_accel s)) in
    let g1 := snd (read_hardware_data (serial i) g) in
    let l' := snd (frame sqrtQ rect_coord i (g, l)) in
    ((Z.abs word_x < Py.float_bound)%Z /\ (Z.abs word_y < Py.float_bound)%Z ->
     (force <= fsr_threshold g ->
      hardware_target g1 = Ok (0, 0) /\ target_velocity l' = (0, 0)) /\
     (fsr_threshold g < force ->
      hardware_target g1 =
        Ok (Qmax (-1) (Qmin 1 (inject_Z word_x / TILT_SENSITIVITY)) * PLAYER_SPEED,
            Qmax (-1) (Qmin 1 (inject_Z word_y / TILT_SENSITIVITY)) * PLAYER_SPEED) /\
      target_velocity l' =
        (Qmax (-1) (Qmin 1 (inject_Z word_x / TILT_SENSITIVITY)) * PLAYER_SPEED,
         Qmax (-1) (Qmin 1 (inject_Z word_y / TILT_SENSITIVITY)) * PLAYER_SPEED))) /\
    ((Py.float_bound <= Z.abs word_x)%Z \/ (Py.float_bound <= Z.abs word_y)%Z ->
     hardware_target g1 = Raise OverflowError).
Proof.
  intros i g l s Hs force word_x word_y g1 l'.
  assert (Hg : g1 = set_sensor force (sample_accel s) (sample_gyro s) g).
  { subst g1. unfold read_hardware_data. rewrite Hs. reflexivity. }
  assert (Ht : target_velocity l' = hardware_target_value g1).
  { subst l'. rewrite frame_target. cbn [fst snd].
    unfold control. fold g1.
    unfold read_hardware_data. rewrite Hs.
    rewrite control_hardware_target. rewrite Hg. reflexivity. }
  assert (Ha : accel_data g1 = sample_accel s) by (rewrite Hg; reflexivity).
  split.
  - intros (Hx & Hy).
    assert (Hok : hardware_target g1 = Ok (hardware_target_value g1)).
    { apply hardware_target_ok; rewrite Ha; assumption. }
    rewrite Hok, Ht. unfold hardware_target_value, tilt_value, clamp.
    rewrite Ha. fold word_x word_y.
    replace (fsr_threshold g1) with (fsr_threshold g) by (rewrite Hg; reflexivity).
    replace (current_fsr g1) with force by (rewrite Hg; reflexivity).
    split; intro H.
    + apply Qltb_ge in H. rewrite H. split; reflexivity.
    + apply Qltb_lt in H. rewrite H. split; reflexivity.
  - intro H. apply hardware_target_overflow. rewrite Ha. exact H.
Qed.

End FrameFacts.

(** ** The collision resolver *)

Section Collisions.

Variable sqrtQ : Q -> Q.
Variable rect_coord : Q -> Z.

(** The control phase only writes the target velocity, the sensor fields
    and the force part of the metrics. *)
Lemma control_keeps (i : FrameInput) (g : Game) (l : Level) :
  let c := snd (control sqrtQ i g l) in
  player c = player l /\
  player_velocity c = player_velocity l /\
  level_barriers c = level_barriers l /\
  level_hole c = level_hole l /\
  start_time c = start_time l /\
  level_running c = level_running l /\
  Collision_Count (metrics c) = Collision_Count (metrics l) /\
  Path_Points (metrics c) = Path_Points (metrics l) /\
  Shortest_Path_Length (metrics c) = Shortest_Path_Length (metrics l) /\
  LevelName (metrics c) = LevelName (metrics l).
Proof.
  unfold control, read_hardware_data, control_hardware, control_keyboard.
  destruct (serial i); split_ifs; cbn; repeat split; reflexivity.
Qed.

Lemma advance_level (i : FrameInput) (st : Game * Level) :
  snd (advance sqrtQ rect_coord i st) =
  track (resolve_collisions rect_coord (frame_dt i)
           (snd (handle_quit i (fst (control sqrtQ i (fst st) (snd st)))
                   (integrate (snd (control sqrtQ i (fst st) (snd st))))))).
Proof.
  unfold advance.
  destruct (control sqrtQ i (fst st) (snd st)) as [g1 l1]. cbn [fst snd].
  destruct (handle_quit i g1 (integrate l1)) as [g3 l3]. reflexivity.
Qed.

Lemma frame_level (i : FrameInput) (st : Game * Level) :
  let a := advance sqrtQ rect_coord i st in
  snd (frame sqrtQ rect_coord i st) =
  if goal_reached sqrtQ (snd a)
  then set_level_running false
         (set_metrics (set_duration (time i - start_time (snd a)) (metrics (snd a)))
                      (snd a))
  else snd a.
Proof.
  unfold frame. cbn zeta.
  destruct (goal_reached sqrtQ (snd (advance sqrtQ rect_coord i st))); reflexivity.
Qed.

Lemma control_keeps_game (i : FrameInput) (g : Game) (l : Level) :
  let c := fst (control sqrtQ i g l) in
  completed_levels_metrics c = completed_levels_metrics g /\
  current_level_index c = current_level_index g /\
  game_state c = game_state g /\
  fsr_threshold c = fsr_threshold g /\
  user_type c = user_type g /\
  running c = running g.
Proof.
  unfold control, read_hardware_data, control_hardware, control_keyboard.
  destruct (serial i); split_ifs; cbn; repeat split; reflexivity.
Qed.

Lemma handle_quit_game (i : FrameInput) (g : Game) (l : Level) :
  fst (handle_quit i g l) = if quit_event i then set_running false g else g.
Proof. unfold handle_quit. destruct (quit_event i); reflexivity. Qed.

Lemma advance_game (i : FrameInput) (st : Game * Level) :
  fst (advance sqrtQ rect_coord i st) =
  fst (handle_quit i (fst (control sqrtQ i (fst st) (snd st)))
         (integrate (snd (control sqrtQ i (fst st) (snd st))))).
Proof.
  unfold advance.
  destruct (control sqrtQ i (fst st) (snd st)) as [g1 l1]. cbn [fst snd].
  destruct (handle_quit i g1 (integrate l1)) as [g3 l3]. reflexivity.
Qed.

(** The collision resolver only writes the rect, the velocity and the
    collision count. *)
Lemma resolve_collisions_keeps (dt : Q) (l : Level) :
  let l' := resolve_collisions rect_coord dt l in
  FSR_Readings_Move (metrics l') = FSR_Readings_Move (metrics l) /\
  Max_FSR (metrics l') = Max_FSR (metrics l) /\
  Min_FSR_Move (metrics l') = Min_FSR_Move (metrics l) /\
  Shortest_Path_Length (metrics l') = Shortest_Path_Length (metrics l) /\
  LevelName (metrics l') = LevelName (metrics l) /\
  Path_Points (metrics l') = Path_Points (metrics l) /\
  level_hole l' = level_hole l /\
  level_barriers l' = level_barriers l /\
  start_time l' = start_time l /\
  level_running l' = level_running l.
Proof.
  unfold resolve_collisions, resolve_x, resolve_y.
  split_ifs; cbn; repeat split; reflexivity.
Qed.

Lemma complete_level_keeps (now : Q) (g : Game) (l : Level) :
  current_fsr (fst (complete_level now g l)) = current_fsr g /\
  fsr_threshold (fst (complete_level now g l)) = fsr_threshold g /\
  user_type (fst (complete_level now g l)) = user_type g /\
  running (fst (complete_level now g l)) = running g.
Proof.
  unfold complete_level. cbn [fst]. split_ifs; cbn; repeat split; reflexivity.
Qed.

(** When the x-only move and the y-only move both overlap a barrier, the
    resolver puts the rect back, reflects both velocity components and
    counts two collisions. *)
Lemma resolve_collisions_both (dt : Q) (l : Level) :
  nonempty (spritecollide (proposed_x rect_coord dt l) (level_barriers l)) = true ->
  nonempty (spritecollide (proposed_y rect_coord dt l) (level_barriers l)) = true ->
  let l' := resolve_collisions rect_coord dt l in
  player l' = player l /\
  player_velocity l' = (fst (player_velocity l) * - PLAYER_BOUNCINESS,
                        snd (player_velocity l) * - PLAYER_BOUNCINESS) /\
  Collision_Count (metrics l') = (Collision_Count (metrics l) + 2)%Z.
Proof.
  intros Hx Hy. unfold resolve_collisions, resolve_x.
  cbn [player set_player level_barriers]. rewrite Hx.
  unfold resolve_y.
  cbn [player set_player set_player_velocity set_metrics level_barriers
       player_velocity metrics fst snd].
  assert (Hp : proposed_y rect_coord dt
                 (set_metrics (count_collision (metrics l))
                    (set_player_velocity
                       (fst (player_velocity l) * - PLAYER_BOUNCINESS,
                        snd (player_velocity l))
                       (set_player (set_rx (rx (player l)) (proposed_x rect_coord dt l))
                                   (set_player (proposed_x rect_coord dt l) l))))
               = proposed_y rect_coord dt l).
  { unfold proposed_y, proposed_x. destruct l as [[x y w h] v t b ho s r m].
    reflexivity. }
  rewrite Hp, Hy. cbn.
  repeat split.
  - destruct l as [[x y w h] v t b ho s r m]. reflexivity.
  - lia.
Qed.

(** C2. Axis-separated collision resolution, x first then y: in a frame
    where the x-only proposed displacement and the y-only proposed
    displacement each overlap some obstacle (one or several), the collision
    count grows by exactly 2, the ball ends the frame where it started on
    both axes, and each velocity component is negated and scaled by the
    bounciness. *)
Theorem axis_separated_collisions :
  forall (i : FrameInput) (g : Game) (l : Level),
    let moved := integrate (snd (control sqrtQ i g l)) in
    let dt := frame_dt i in
    nonempty (spritecollide (proposed_x rect_coord dt moved) (level_barriers l)) = true ->
    nonempty (spritecollide (proposed_y rect_coord dt moved) (level_barriers l)) = true ->
    let l' := snd (frame sqrtQ rect_coord i (g, l)) in
    Collision_Count (metrics l') = (Collision_Count (metrics l) + 2)%Z /\
    player l' = player l /\
    center (player l') = center (player l) /\
    player_velocity l' =
      (fst (player_velocity moved) * - PLAYER_BOUNCINESS,
       snd (player_velocity moved) * - PLAYER_BOUNCINESS).
Proof.
  intros i g l moved dt Hx Hy l'.
  destruct (control_keeps i g l) as (Kp & Kv & Kb & _ & _ & _ & Kc & _).
  set (q := snd (handle_quit i (fst (control sqrtQ i g l)) moved)).
  assert (Hq : q = moved \/ q = set_level_running false moved).
  { subst q. rewrite handle_quit_level. destruct (quit_event i); auto. }
  assert (Hb : level_barriers moved = level_barriers l) by exact Kb.
  assert (Hres : player (resolve_collisions rect_coord dt q) = player l /\
                 player_velocity (resolve_collisions rect_coord dt q) =
                   (fst (player_velocity moved) * - PLAYER_BOUNCINESS,
                    snd (player_velocity moved) * - PLAYER_BOUNCINESS) /\
                 Collision_Count (metrics (resolve_collisions rect_coord dt q)) =
                   (Collision_Count (metrics l) + 2)%Z).
  { assert (Mp : player moved = player l) by exact Kp.
    assert (Mc : Collision_Count (metrics moved) = Collision_Count (metrics l))
      by exact Kc.
    rewrite <- Mp, <- Mc.
    destruct Hq as [-> | ->].
    - apply resolve_collisions_both; rewrite Hb; assumption.
    - apply (resolve_collisions_both dt (set_level_running false moved));
        cbn [level_barriers set_level_running]; rewrite Hb; assumption. }
  destruct Hres as (Rp & Rv & Rc).
  assert (Hl' : player l' = player l /\
                player_velocity l' = player_velocity (resolve_collisions rect_coord dt q) /\
                Collision_Count (metrics l') =
                  Collision_Count (metrics (resolve_collisions rect_coord dt q))).
  { subst l'. rewrite frame_level. cbn zeta. rewrite advance_level.
    cbn [fst snd]. fold moved. fold q. fold dt.
    destruct (goal_reached sqrtQ (track (resolve_collisions rect_coord dt q)));
      cbn; rewrite Rp; repeat split; reflexivity. }
  destruct Hl' as (Lp & Lv & Lc).
  rewrite Lc, Rc, Lp, Lv, Rv. repeat split; reflexivity.
Qed.

End Collisions.

Lemma axis_separated_collisions_witness :
  Collision_Count
    (metrics (snd (frame Qsqrt truncate left_up_frame (Game_init, corner_level))))
  = 2%Z /\
  player (snd (frame Qsqrt truncate left_up_frame (Game_init, corner_level)))
  = mkRect 40 40 20 20.
Proof.
  destruct (axis_separated_collisions Qsqrt truncate left_up_frame
              Game_init corner_level) as (Hc & Hp & _).
  - vm_compute. reflexivity.
  - vm_compute. reflexivity.
  - split; [exact Hc | exact Hp].
Defined.

Lemma grip_gating_hardware_path_witness :
  serial (mkFrameInput 16 (Some (mkSample 500 (5000, 2500, 0)%Z (0, 0, 0)%Z))
                       (mkKeys false false false false) 0 false 1)
  = Some (mkSample 500 (5000, 2500, 0)%Z (0, 0, 0)%Z) /\
  hardware_target
    (snd (read_hardware_data
            (Some (mkSample 500 (5000, 2500, 0)%Z (0, 0, 0)%Z)) Game_init))
  = Ok (0, 0) /\
  target_velocity
    (snd (frame Qsqrt truncate
            (mkFrameInput 16 (Some (mkSample 500 (5000, 2500, 0)%Z (0, 0, 0)%Z))
                          (mkKeys false false false false) 0 false 1)
            (Game_init, corner_level)))
  = (0, 0).
Proof.
  split; [reflexivity|].
  apply (grip_gating_hardware_path Qsqrt truncate
           (mkFrameInput 16 (Some (mkSample 500 (5000, 2500, 0)%Z (0, 0, 0)%Z))
                         (mkKeys false false false false) 0 false 1)
           Game_init corner_level
           (mkSample 500 (5000, 2500, 0)%Z (0, 0, 0)%Z) eq_refl).
  - split; vm_compute; reflexivity.
  - vm_compute. discriminate.
Defined.

(** C1 as the specification words it fails for a tilt word beyond the range
    of floats: with a force of 0, at or below the threshold, and a tilt word
    of [2^1024], the hardware branch yields no zero target: it raises. *)
Lemma grip_gate_tilt_overflow :
  inject_Z (sample_fsr (mkSample 0 (2 ^ 1024, 0, 0)%Z (0, 0, 0)%Z))
    <= fsr_threshold Game_init /\
  hardware_target
    (snd (read_hardware_data
            (Some (mkSample 0 (2 ^ 1024, 0, 0)%Z (0, 0, 0)%Z)) Game_init))
  = Raise OverflowError /\
  hardware_target
    (snd (read_hardware_data
            (Some (mkSample 0 (2 ^ 1024, 0, 0)%Z (0, 0, 0)%Z)) Game_init))
  <> Ok (0, 0).
Proof.
  split; [vm_compute; discriminate|].
  split; [vm_compute; reflexivity | vm_compute; discriminate].
Qed.

(** ** Sums, means and the coefficient of variation *)

Lemma fold_left_Qplus (xs : list Q) (a : Q) :
  fold_left Qplus xs a == a + Py.sum xs.
Proof.
  unfold Py.sum. revert a. induction xs as [|x xs IH]; intro a; cbn [fold_left].
  - ring.
  - rewrite IH. rewrite (IH (0 + x)). ring.
Qed.

Lemma sum_cons (x : Q) (xs : list Q) : Py.sum (x :: xs) == x + Py.sum xs.
Proof.
  unfold Py.sum at 1. cbn [fold_left]. rewrite fold_left_Qplus. ring.
Qed.

Lemma sum_all_zero (xs : list Q) :
  Forall (fun x => x == 0) xs -> Py.sum xs == 0.
Proof.
  induction 1 as [|x xs Hx _ IH].
  - reflexivity.
  - rewrite sum_cons, Hx, IH. ring.
Qed.

Lemma sum_repeat (c : Q) (n : nat) :
  Py.sum (repeat c n) == inject_Z (Z.of_nat n) * c.
Proof.
  induction n as [|n IH].
  - cbn. ring.
  - cbn [repeat]. rewrite sum_cons, IH.
    rewrite Nat2Z.inj_succ. unfold Z.succ. rewrite inject_Z_plus. ring.
Qed.

Lemma mean_of_repeat (c : Q) (n : nat) :
  (0 < n)%nat -> mean_of (repeat c n) == c.
Proof.
  intro Hn. unfold mean_of, Py.len. rewrite repeat_length, sum_repeat.
  field. intro H. unfold Qeq in H. simpl in H. lia.
Qed.

Lemma variance_of_repeat (c : Q) (n : nat) :
  (0 < n)%nat -> variance_of (repeat c n) == 0.
Proof.
  intro Hn. unfold variance_of, sum_sq_dev.
  rewrite sum_all_zero.
  - unfold Qdiv. ring.
  - apply Forall_forall. intros y Hy. apply in_map_iff in Hy.
    destruct Hy as (x & <- & Hx). apply repeat_spec in Hx. subst x.
    rewrite (mean_of_repeat c n Hn). ring.
Qed.

Section CovFacts.

Variable sqrtQ : Q -> Q.
Hypothesis sqrtQ_zero : forall q, q == 0 -> sqrtQ q == 0.

Lemma cov_reference_eq (xs : list Q) : cov sqrtQ xs = Ok (cov_reference sqrtQ xs).
Proof.
  unfold cov, cov_reference.
  destruct (1 <? List.length xs)%nat eqn:Hlen; cbn [andb]; [|reflexivity].
  apply Nat.ltb_lt in Hlen.
  unfold mean, stdev.
  destruct xs as [|x xs]; [cbn in Hlen; lia|].
  cbn [Py.bind].
  destruct (List.length (x :: xs) <? 2)%nat eqn:H2;
    [apply Nat.ltb_lt in H2; lia|].
  cbn [Py.bind].
  destruct (Qltb 0 (mean_of (x :: xs))) eqn:Hm; [|reflexivity].
  apply Qltb_lt in Hm. unfold Py.div.
  destruct (Qeq_bool (mean_of (x :: xs)) 0) eqn:Hz.
  - apply Qeq_bool_iff in Hz. rewrite Hz in Hm. exfalso. exact (Qlt_irrefl 0 Hm).
  - reflexivity.
Qed.

(** C3. The coefficient of variation is [stdev / mean * 100] when there are
    at least two samples and the mean is positive, and 0 otherwise; it is 0
    on the empty list, on a single sample and on any constant list, and it
    never raises. *)
Theorem cov_formula_and_edge_cases :
  (forall xs, cov sqrtQ xs = Ok (cov_reference sqrtQ xs)) /\
  (forall xs, (1 < List.length xs)%nat -> 0 < mean_of xs ->
              cov sqrtQ xs = Ok (stdev_of sqrtQ xs / mean_of xs * 100)) /\
  (forall xs, ~ ((1 < List.length xs)%nat /\ 0 < mean_of xs) ->
              cov sqrtQ xs = Ok 0) /\
  cov sqrtQ [] = Ok 0 /\
  (forall x, cov sqrtQ [x] = Ok 0) /\
  (forall c n, exists v, cov sqrtQ (repeat c n) = Ok v /\ v == 0).
Proof.
  split; [exact cov_reference_eq|].
  split.
  { intros xs Hlen Hm. rewrite cov_reference_eq. unfold cov_reference.
    apply Nat.ltb_lt in Hlen. apply Qltb_lt in Hm. rewrite Hlen, Hm.
    reflexivity. }
  split.
  { intros xs Hnot. rewrite cov_reference_eq. unfold cov_reference.
    destruct (1 <? List.length xs)%nat eqn:Hlen; [|reflexivity].
    destruct (Qltb 0 (mean_of xs)) eqn:Hm; [|reflexivity].
    exfalso. apply Hnot. split; [apply Nat.ltb_lt|apply Qltb_lt]; assumption. }
  split; [reflexivity|].
  split; [reflexivity|].
  intros c n. exists (cov_reference sqrtQ (repeat c n)).
  split; [apply cov_reference_eq|].
  unfold cov_reference. rewrite repeat_length.
  destruct (1 <? n)%nat eqn:Hn; cbn [andb]; [|reflexivity].
  apply Nat.ltb_lt in Hn.
  destruct (Qltb 0 (mean_of (repeat c n))); [|reflexivity].
  unfold stdev_of.
  rewrite (sqrtQ_zero (variance_of (repeat c n)))
    by (apply variance_of_repeat; lia).
  unfold Qdiv. ring.
Qed.

End CovFacts.

Lemma cov_formula_and_edge_cases_witness :
  cov Qsqrt [10; 20] = Ok (stdev_of Qsqrt [10; 20] / mean_of [10; 20] * 100) /\
  (exists v, cov Qsqrt [10; 10; 10] = Ok v /\ v == 0).
Proof.
  destruct (cov_formula_and_edge_cases Qsqrt Qsqrt_zero)
    as (_ & Hf & _ & _ & _ & Hc).
  split.
  - apply Hf; vm_compute; reflexivity.
  - exact (Hc 10 3%nat).
Defined.

(** ** Path length and path efficiency *)

Section PathFacts.

Variable sqrtQ : Q -> Q.
Variable rect_coord : Q -> Z.



Lemma path_eff_total (m : Metrics) :
  path_eff sqrtQ m =
  Ok (if Qltb 0 (path_len sqrtQ (Path_Points m))
      then Shortest_Path_Length m / path_len sqrtQ (Path_Points m) * 100
      else 0).
Proof.
  unfold path_eff.
  destruct (Qltb 0 (path_len sqrtQ (Path_Points m))) eqn:Hp; [|reflexivity].
  apply Qltb_lt in Hp. unfold Py.div.
  destruct (Qeq_bool (path_len sqrtQ (Path_Points m)) 0) eqn:Hz; [|reflexivity].
  apply Qeq_bool_iff in Hz. rewrite Hz in Hp. exfalso. exact (Qlt_irrefl 0 Hp).
Qed.

(** What a frame, up to the completion test, leaves alone. *)
Lemma advance_keeps (i : FrameInput) (g : Game) (l : Level) :
  let a := advance sqrtQ rect_coord i (g, l) in
  completed_levels_metrics (fst a) = completed_levels_metrics g /\
  current_level_index (fst a) = current_level_index g /\
  game_state (fst a) = game_state g /\
  fsr_threshold (fst a) = fsr_threshold g /\
  user_type (fst a) = user_type g /\
  Shortest_Path_Length (metrics (snd a)) = Shortest_Path_Length (metrics l) /\
  LevelName (metrics (snd a)) = LevelName (metrics l) /\
  level_hole (snd a) = level_hole l /\
  level_barriers (snd a) = level_barriers l /\
  start_time (snd a) = start_time l.
Proof.
  cbn zeta. rewrite advance_level, advance_game. cbn [fst snd].
  destruct (control_keeps sqrtQ i g l)
    as (_ & _ & Kb & Kh & Kt & _ & _ & _ & Ks & Kn).
  destruct (control_keeps_game sqrtQ i g l) as (Gc & Gi & Gs & Gt & Gu & _).
  rewrite handle_quit_game, handle_quit_level.
  set (c := control sqrtQ i g l) in *.
  assert (Hg : forall b : bool,
             completed_levels_metrics (if b then set_running false (fst c) else fst c)
               = completed_levels_metrics g /\
             current_level_index (if b then set_running false (fst c) else fst c)
               = current_level_index g /\
             game_state (if b then set_running false (fst c) else fst c)
               = game_state g /\
             fsr_threshold (if b then set_running false (fst c) else fst c)
               = fsr_threshold g /\
             user_type (if b then set_running false (fst c) else fst c)
               = user_type g).
  { intros []; cbn; repeat split; assumption. }
  destruct (Hg (quit_event i)) as (H1 & H2 & H3 & H4 & H5).
  repeat (split; [assumption|]).
  set (q := if quit_event i then set_level_running false (integrate (snd c))
            else integrate (snd c)).
  destruct (resolve_collisions_keeps rect_coord (frame_dt i) q)
    as (_ & _ & _ & Rs & Rn & _ & Rh & Rb & Rt & _).
  unfold track.
  cbn [metrics set_metrics append_path_point Shortest_Path_Length LevelName
       level_hole level_barriers start_time].
  rewrite Rs, Rn, Rh, Rb, Rt.
  subst q. destruct (quit_event i); cbn; repeat split; assumption.
Qed.

Lemma complete_level_completed (now : Q) (g : Game) (l : Level) :
  completed_levels_metrics (fst (complete_level now g l)) =
  completed_levels_metrics g ++ [set_duration (now - start_time l) (metrics l)].
Proof.
  unfold complete_level. cbn [fst]. split_ifs; reflexivity.
Qed.




End PathFacts.

(** ** Level completion and level sequencing *)

Section CompletionFacts.

Variable sqrtQ : Q -> Q.
Variable rect_coord : Q -> Z.

Lemma within_capture_lt (d : Q) : within_capture d = true <-> d < 15.
Proof. apply Qltb_lt. Qed.

Lemma complete_level_index (now : Q) (g : Game) (l : Level) :
  current_level_index (fst (complete_level now g l)) = S (current_level_index g).
Proof.
  unfold complete_level. cbn [fst]. split_ifs; cbn; apply Nat.add_1_r.
Qed.

Lemma complete_level_state (now : Q) (g : Game) (l : Level) :
  game_state (fst (complete_level now g l)) =
  if (List.length level_sequence <=? S (current_level_index g))%nat
  then generate_report else ask_continue.
Proof.
  unfold complete_level. cbn [fst current_level_index set_current_level_index
                              set_completed_levels_metrics].
  rewrite Nat.add_1_r.
  destruct (List.length level_sequence <=? S (current_level_index g))%nat;
    reflexivity.
Qed.

(** The square of the distance between two pixel positions. *)
Lemma goal_distance_centres (l : Level) :
  goal_distance sqrtQ l =
  sqrtQ (inject_Z
           ((fst (center (level_hole l)) - fst (center (player l)))
            * (fst (center (level_hole l)) - fst (center (player l)))
            + (snd (center (level_hole l)) - snd (center (player l)))
              * (snd (center (level_hole l)) - snd (center (player l))))).
Proof.
  unfold goal_distance, distance_to, Vector2_length, vec_of_point.
  cbn [fst snd]. f_equal.
  unfold Qplus, Qmult, Qminus, Qopp, Qplus, inject_Z. cbn [Qnum Qden Pos.mul].
  f_equal. rewrite !Z.mul_1_r. unfold Z.sub. reflexivity.
Qed.

Section CaptureRadius.

(** What the completion test needs of the square root: it is monotone on
    whole numbers, it is exact at 225 and it is below 15 at 224.  The
    correctly rounded root of floats has all three. *)
Hypothesis sqrtQ_monotone :
  forall a b : Z, (0 <= a <= b)%Z -> sqrtQ (inject_Z a) <= sqrtQ (inject_Z b).
Hypothesis sqrtQ_225 : sqrtQ (inject_Z 225) == 15.
Hypothesis sqrtQ_224 : sqrtQ (inject_Z 224) < 15.

Lemma root_below_fifteen (n : Z) :
  (0 <= n)%Z -> (sqrtQ (inject_Z n) < 15 <-> (n < 225)%Z).
Proof.
  intro Hn. split; intro H.
  - destruct (Z.lt_ge_cases n 225) as [Hlt | Hge]; [exact Hlt|].
    exfalso. apply (Qlt_irrefl 15).
    apply Qle_lt_trans with (sqrtQ (inject_Z n)); [|exact H].
    rewrite <- sqrtQ_225. apply sqrtQ_monotone. lia.
  - apply Qle_lt_trans with (sqrtQ (inject_Z 224)); [|exact sqrtQ_224].
    apply sqrtQ_monotone. lia.
Qed.

(** C5. The completion test is a strict comparison with 15 of the distance
    between the centre of the ball's rect and the centre of the hole's
    rect, after the frame's motion.  The centres are whole pixels, so the
    test holds exactly when the squared distance of the two centres is
    below 225: a frame completes the level (appends the record, stops the
    level) exactly then, and completes nothing at a squared distance of 225
    or more; at a distance of exactly 15 the level is not completed.  The
    test itself accepts 14.999 and rejects 15. *)
Theorem completion_boundary_strict :
  (forall l,
      goal_reached sqrtQ l = true <->
      sqrtQ (inject_Z
               ((fst (center (level_hole l)) - fst (center (player l)))
                * (fst (center (level_hole l)) - fst (center (player l)))
                + (snd (center (level_hole l)) - snd (center (player l)))
                  * (snd (center (level_hole l)) - snd (center (player l)))))
        < 15) /\
  (forall l,
      goal_reached sqrtQ l = true <->
      ((fst (center (level_hole l)) - fst (center (player l)))
       * (fst (center (level_hole l)) - fst (center (player l)))
       + (snd (center (level_hole l)) - snd (center (player l)))
         * (snd (center (level_hole l)) - snd (center (player l))) < 225)%Z) /\
  (forall i g l,
      let a := advance sqrtQ rect_coord i (g, l) in
      let st := frame sqrtQ rect_coord i (g, l) in
      let dx := (fst (center (level_hole (snd a))) - fst (center (player (snd a))))%Z in
      let dy := (snd (center (level_hole (snd a))) - snd (center (player (snd a))))%Z in
      ((dx * dx + dy * dy < 225)%Z ->
         st = complete_level (time i) (fst a) (snd a) /\
         level_running (snd st) = false /\
         completed_levels_metrics (fst st) =
           completed_levels_metrics g ++
           [set_duration (time i - start_time (snd a)) (metrics (snd a))]) /\
      ((225 <= dx * dx + dy * dy)%Z ->
         st = a /\
         completed_levels_metrics (fst st) = completed_levels_metrics g)) /\
  (forall l,
      ((fst (center (level_hole l)) - fst (center (player l)))
       * (fst (center (level_hole l)) - fst (center (player l)))
       + (snd (center (level_hole l)) - snd (center (player l)))
         * (snd (center (level_hole l)) - snd (center (player l))) = 225)%Z ->
      goal_reached sqrtQ l = false) /\
  within_capture 15 = false /\
  within_capture (14999 # 1000) = true.
Proof.
  assert (Hroot : forall l,
             goal_reached sqrtQ l = true <->
             sqrtQ (inject_Z
                      ((fst (center (level_hole l)) - fst (center (player l)))
                       * (fst (center (level_hole l)) - fst (center (player l)))
                       + (snd (center (level_hole l)) - snd (center (player l)))
                         * (snd (center (level_hole l)) - snd (center (player l)))))
               < 15).
  { intro l. unfold goal_reached. rewrite goal_distance_centres.
    apply within_capture_lt. }
  assert (Hsq : forall l,
             goal_reached sqrtQ l = true <->
             ((fst (center (level_hole l)) - fst (center (player l)))
              * (fst (center (level_hole l)) - fst (center (player l)))
              + (snd (center (level_hole l)) - snd (center (player l)))
                * (snd (center (level_hole l)) - snd (center (player l))) < 225)%Z).
  { intro l. rewrite Hroot. apply root_below_fifteen.
    apply Z.add_nonneg_nonneg; apply Z.square_nonneg. }
  split; [exact Hroot|]. split; [exact Hsq|].
  split.
  { intros i g l a st dx dy.
    destruct (advance_keeps sqrtQ rect_coord i g l) as (Hc & _).
    fold a in Hc. split; intro H.
    - assert (Hg : goal_reached sqrtQ (snd a) = true) by (apply Hsq; exact H).
      assert (Hst : st = complete_level (time i) (fst a) (snd a)).
      { subst st. unfold frame. fold a. cbn zeta. rewrite Hg. reflexivity. }
      rewrite Hst. split; [reflexivity|]. split; [reflexivity|].
      rewrite complete_level_completed, Hc. reflexivity.
    - assert (Hg : goal_reached sqrtQ (snd a) = false).
      { apply not_true_iff_false. intro Hg. apply Hsq in Hg. fold dx dy in Hg. lia. }
      assert (Hst : st = a).
      { subst st. unfold frame. fold a. cbn zeta. rewrite Hg. reflexivity. }
      rewrite Hst. split; [reflexivity | exact Hc]. }
  split.
  { intros l H. apply not_true_iff_false. intro Hg. apply Hsq in Hg. lia. }
  split; reflexivity.
Qed.

End CaptureRadius.

(** C8. Level sequencing: Start Game sets the level index to 0, which is
    the layout "Easy", with an empty list of completed levels; a level
    completion advances the index by exactly 1 (and a frame without
    completion leaves it alone); completing the last layout of the sequence
    moves to report generation, and the ask-to-continue state is entered
    only when a further layout exists. *)
Theorem level_sequencing :
  (forall g,
      let r := main_menu_step (Some "Start Game"%string) g in
      current_level_index (fst r) = 0%nat /\
      level_name_at (current_level_index (fst r)) = Ok "Easy"%string /\
      completed_levels_metrics (fst r) = [] /\
      game_state (fst r) = playing /\
      snd r = false) /\
  (forall i g l,
      let a := advance sqrtQ rect_coord i (g, l) in
      let g' := fst (frame sqrtQ rect_coord i (g, l)) in
      (goal_reached sqrtQ (snd a) = true ->
         current_level_index g' = S (current_level_index g) /\
         (S (current_level_index g) = List.length level_sequence ->
            game_state g' = generate_report) /\
         (game_state g' = ask_continue ->
            (S (current_level_index g) < List.length level_sequence)%nat) /\
         (game_state g' = generate_report \/ game_state g' = ask_continue)) /\
      (goal_reached sqrtQ (snd a) = false ->
         current_level_index g' = current_level_index g /\
         game_state g' = game_state g)).
Proof.
  split.
  { intro g. cbn. repeat split; reflexivity. }
  intros i g l a g'.
  destruct (advance_keeps sqrtQ rect_coord i g l) as (_ & Hi & Hs & _).
  fold a in Hi, Hs. subst g'. unfold frame. fold a. cbn zeta.
  split; intro H; rewrite H.
  - rewrite complete_level_index, complete_level_state, Hi.
    split; [reflexivity|].
    destruct (List.length level_sequence <=? S (current_level_index g))%nat eqn:Hle.
    + split; [reflexivity|]. split; [discriminate | left; reflexivity].
    + apply Nat.leb_gt in Hle. split; [intro E; lia|].
      split; [intros _; exact Hle | right; reflexivity].
  - split; [exact Hi | exact Hs].
Qed.

End CompletionFacts.

Lemma Qsqrt_monotone (a b : Z) :
  (0 <= a <= b)%Z -> Qsqrt (inject_Z a) <= Qsqrt (inject_Z b).
Proof.
  intro H. unfold Qsqrt, inject_Z, Qle. cbn [Qnum Qden].
  rewrite !Z.mul_1_r. apply Z.sqrt_le_mono. lia.
Qed.

Lemma completion_boundary_strict_witness :
  (forall a b : Z, (0 <= a <= b)%Z -> Qsqrt (inject_Z a) <= Qsqrt (inject_Z b)) /\
  Qsqrt (inject_Z 225) == 15 /\
  Qsqrt (inject_Z 224) < 15 /\
  goal_reached Qsqrt (set_player (Ball 1195 420) easy_start) = false /\
  goal_reached Qsqrt (set_player (Ball 1194 420) easy_start) = true.
Proof.
  assert (H225 : Qsqrt (inject_Z 225) == 15) by (vm_compute; reflexivity).
  assert (H224 : Qsqrt (inject_Z 224) < 15) by (vm_compute; reflexivity).
  split; [exact Qsqrt_monotone|]. split; [exact H225|]. split; [exact H224|].
  destruct (completion_boundary_strict Qsqrt truncate Qsqrt_monotone H225 H224)
    as (_ & Hsq & _ & Hat & _).
  split.
  - apply Hat. vm_compute. reflexivity.
  - apply Hsq. vm_compute. reflexivity.
Defined.

(** ** Force sampling *)

Section ForceFacts.

Variable sqrtQ : Q -> Q.
Variable rect_coord : Q -> Z.
Hypothesis sqrtQ_zero : forall q, q == 0 -> sqrtQ q == 0.
Hypothesis sqrtQ_pos : forall q, 0 < q -> 0 < sqrtQ q.

(** After the control phase a frame no longer touches the force fields. *)
Lemma frame_force_fields (i : FrameInput) (g : Game) (l : Level) :
  let c := control sqrtQ i g l in
  let st := frame sqrtQ rect_coord i (g, l) in
  FSR_Readings_Move (metrics (snd st)) = FSR_Readings_Move (metrics (snd c)) /\
  Max_FSR (metrics (snd st)) = Max_FSR (metrics (snd c)) /\
  Min_FSR_Move (metrics (snd st)) = Min_FSR_Move (metrics (snd c)) /\
  current_fsr (fst st) = current_fsr (fst c) /\
  fsr_threshold (fst st) = fsr_threshold (fst c).
Proof.
  cbn zeta.
  set (a := advance sqrtQ rect_coord i (g, l)).
  assert (Ha : FSR_Readings_Move (metrics (snd a)) =
                 FSR_Readings_Move (metrics (snd (control sqrtQ i g l))) /\
               Max_FSR (metrics (snd a)) =
                 Max_FSR (metrics (snd (control sqrtQ i g l))) /\
               Min_FSR_Move (metrics (snd a)) =
                 Min_FSR_Move (metrics (snd (control sqrtQ i g l))) /\
               current_fsr (fst a) = current_fsr (fst (control sqrtQ i g l)) /\
               fsr_threshold (fst a) = fsr_threshold (fst (control sqrtQ i g l))).
  { subst a. rewrite advance_level, advance_game. cbn [fst snd].
    rewrite handle_quit_game, handle_quit_level.
    set (c := control sqrtQ i g l).
    set (q := if quit_event i then set_level_running false (integrate (snd c))
              else integrate (snd c)).
    destruct (resolve_collisions_keeps rect_coord (frame_dt i) q)
      as (Rf & Rmax & Rmin & _).
    unfold track.
    cbn [metrics set_metrics append_path_point FSR_Readings_Move Max_FSR
         Min_FSR_Move].
    rewrite Rf, Rmax, Rmin.
    subst q. destruct (quit_event i); cbn; repeat split; reflexivity. }
  destruct Ha as (Hf & Hmax & Hmin & Hc & Ht).
  unfold frame. fold a. cbn zeta.
  destruct (goal_reached sqrtQ (snd a)).
  - destruct (complete_level_keeps (time i) (fst a) (snd a)) as (Cc & Ct & _).
    rewrite Cc, Ct. cbn. repeat split; assumption.
  - repeat split; assumption.
Qed.

Lemma has_length_zero : has_length sqrtQ (0, 0) = false.
Proof.
  unfold has_length, Vector2_length. apply Qltb_ge.
  rewrite sqrtQ_zero by reflexivity. apply Qle_refl.
Qed.

Lemma keyboard_target_cancel (k : Keys) :
  keys_cancel k = true -> keyboard_target k = (0, 0).
Proof.
  destruct k as [[] [] [] []]; cbn; intro H; try discriminate; reflexivity.
Qed.

Lemma keyboard_has_length (k : Keys) :
  has_length sqrtQ (keyboard_target k) = negb (keys_cancel k).
Proof.
  destruct (keys_cancel k) eqn:Hc.
  - rewrite (keyboard_target_cancel k Hc). exact has_length_zero.
  - unfold has_length, Vector2_length. apply Qltb_lt. apply sqrtQ_pos.
    destruct k as [[] [] [] []]; cbn in Hc; try discriminate; reflexivity.
Qed.

Lemma uniform_in_band (r : Q) :
  0 <= r /\ r < 1 ->
  FSR_THRESHOLD + 200 <= uniform (FSR_THRESHOLD + 200) (MAX_FSR_VALUE - 500) r /\
  uniform (FSR_THRESHOLD + 200) (MAX_FSR_VALUE - 500) r <= MAX_FSR_VALUE - 500.
Proof.
  unfold uniform, FSR_THRESHOLD, MAX_FSR_VALUE. intros [H0 H1]. split; lra.
Qed.

Lemma keys_cancel_spec (k : Keys) :
  keys_cancel k = true <-> K_RIGHT k = K_LEFT k /\ K_DOWN k = K_UP k.
Proof.
  unfold keys_cancel. rewrite andb_true_iff, !eqb_true_iff. reflexivity.
Qed.

(** [random.uniform(a, b)] is an affine image of the unit draw: it reaches
    every value of the band below its upper end, and equal steps of the
    draw give equal steps of the sample. *)
Lemma uniform_onto (a b v : Q) :
  a < b -> a <= v -> v < b ->
  exists r, 0 <= r /\ r < 1 /\ uniform a b r == v.
Proof.
  intros Hab Hlo Hhi. exists ((v - a) / (b - a)).
  assert (Hd : 0 < b - a) by lra.
  split; [|split].
  - apply Qle_shift_div_l; [exact Hd | lra].
  - apply Qlt_shift_div_r; [exact Hd | lra].
  - unfold uniform. field. lra.
Qed.

Lemma uniform_affine (a b r1 r2 : Q) :
  uniform a b r2 - uniform a b r1 == (b - a) * (r2 - r1).
Proof. unfold uniform. ring. Qed.

(** C7. Keyboard fallback sampling, in a frame without a hardware sample.
    Whenever a direction key is held that is not cancelled by its opposite
    (on some axis exactly one of the two keys is down), a synthetic force
    is drawn from the band between the threshold plus 200 and the maximum
    minus 500, becomes the current force and is recorded; the draw is
    [random.uniform], the affine image of the unit draw, which reaches every
    value of the band below its upper end with equal steps for equal steps
    of the draw.  When no direction key is held, and likewise when only
    opposing keys are held together, nothing is recorded and the current
    force is set to zero. *)
Theorem keyboard_fallback_sampling :
  forall (i : FrameInput) (g : Game) (l : Level),
    serial i = None ->
    valid_random i ->
    let st := frame sqrtQ rect_coord i (g, l) in
    let k := keys i in
    let lo := FSR_THRESHOLD + 200 in
    let hi := MAX_FSR_VALUE - 500 in
    let sim_fsr := uniform lo hi (random i) in
    (K_RIGHT k <> K_LEFT k \/ K_DOWN k <> K_UP k ->
       lo <= sim_fsr /\ sim_fsr <= hi /\
       sim_fsr == lo + (hi - lo) * random i /\
       FSR_Readings_Move (metrics (snd st)) = FSR_Readings_Move (metrics l) ++ [sim_fsr] /\
       current_fsr (fst st) = sim_fsr) /\
    (K_RIGHT k = K_LEFT k /\ K_DOWN k = K_UP k ->
       FSR_Readings_Move (metrics (snd st)) = FSR_Readings_Move (metrics l) /\
       current_fsr (fst st) = 0 /\
       target_velocity (snd st) = (0, 0)) /\
    (K_RIGHT k = false /\ K_LEFT k = false /\ K_DOWN k = false /\ K_UP k = false ->
       FSR_Readings_Move (metrics (snd st)) = FSR_Readings_Move (metrics l) /\
       current_fsr (fst st) = 0) /\
    (forall v, lo <= v -> v < hi ->
               exists r, 0 <= r /\ r < 1 /\ uniform lo hi r == v) /\
    (forall r1 r2, uniform lo hi r2 - uniform lo hi r1 == (hi - lo) * (r2 - r1)).
Proof.
  intros i g l Hs Hr st k lo hi sim_fsr.
  destruct (frame_force_fields i g l) as (Hf & _ & _ & Hc & _).
  fold st in Hf, Hc.
  assert (Ht : target_velocity (snd st) =
               target_velocity (snd (control sqrtQ i g l))).
  { subst st. rewrite frame_target. reflexivity. }
  unfold control, read_hardware_data in Hf, Hc, Ht. rewrite Hs in Hf, Hc, Ht.
  unfold control_keyboard in Hf, Hc, Ht.
  cbn [target_velocity set_target_velocity] in Hf, Hc, Ht.
  rewrite keyboard_has_length in Hf, Hc, Ht. fold k in Hf, Hc, Ht.
  assert (Hzero : keys_cancel k = true ->
                  FSR_Readings_Move (metrics (snd st)) = FSR_Readings_Move (metrics l) /\
                  current_fsr (fst st) = 0 /\
                  target_velocity (snd st) = (0, 0)).
  { intro Hk. rewrite Hk in Hf, Hc, Ht. cbn in Hf, Hc, Ht.
    rewrite (keyboard_target_cancel _ Hk) in Ht.
    repeat split; assumption. }
  split; [|split; [|split; [|split]]].
  - intro Hk.
    assert (Hn : keys_cancel k = false).
    { apply not_true_iff_false. intro Hcancel.
      apply keys_cancel_spec in Hcancel. destruct Hcancel as (Hx & Hy).
      destruct Hk as [Hk | Hk]; contradiction. }
    rewrite Hn in Hf, Hc. cbn in Hf, Hc.
    destruct (uniform_in_band (random i) Hr) as (Hlo & Hhi).
    split; [exact Hlo|]. split; [exact Hhi|].
    split; [reflexivity|]. split; assumption.
  - intro Hk. apply Hzero. apply keys_cancel_spec. exact Hk.
  - intros (H1 & H2 & H3 & H4).
    destruct Hzero as (Hz1 & Hz2 & _).
    + apply keys_cancel_spec. rewrite H1, H2, H3, H4. split; reflexivity.
    + split; assumption.
  - intros v Hlo Hhi. apply uniform_onto; try assumption.
    unfold lo, hi, FSR_THRESHOLD, MAX_FSR_VALUE. reflexivity.
  - intros r1 r2. apply uniform_affine.
Qed.

End ForceFacts.

Lemma keyboard_fallback_sampling_witness :
  serial left_up_frame = None /\
  valid_random left_up_frame /\
  serial opposing_keys_frame = None /\
  valid_random opposing_keys_frame /\
  FSR_Readings_Move
    (metrics (snd (frame Qsqrt truncate left_up_frame (Game_init, corner_level))))
  = FSR_Readings_Move (metrics corner_level)
    ++ [uniform (FSR_THRESHOLD + 200) (MAX_FSR_VALUE - 500) (random left_up_frame)] /\
  FSR_Readings_Move
    (metrics (snd (frame Qsqrt truncate opposing_keys_frame (Game_init, corner_level))))
  = FSR_Readings_Move (metrics corner_level) /\
  current_fsr (fst (frame Qsqrt truncate opposing_keys_frame (Game_init, corner_level)))
  = 0.
Proof.
  assert (R1 : valid_random left_up_frame)
    by (split; vm_compute; [discriminate | reflexivity]).
  assert (R2 : valid_random opposing_keys_frame)
    by (split; vm_compute; [discriminate | reflexivity]).
  split; [reflexivity|]. split; [exact R1|].
  split; [reflexivity|]. split; [exact R2|].
  destruct (keyboard_fallback_sampling Qsqrt truncate Qsqrt_zero Qsqrt_pos
              left_up_frame Game_init corner_level eq_refl R1)
    as (Hmove & _).
  destruct (keyboard_fallback_sampling Qsqrt truncate Qsqrt_zero Qsqrt_pos
              opposing_keys_frame Game_init corner_level eq_refl R2)
    as (_ & Hcancel & _).
  split.
  - apply Hmove. left. discriminate.
  - destruct Hcancel as (H1 & H2 & _); [split; reflexivity|].
    split; assumption.
Defined.

(** ** The force invariant of the metrics accumulator *)

Lemma fold_left_Qmax_proper (xs : list Q) (a b : Q) :
  a == b -> fold_left Qmax xs a == fold_left Qmax xs b.
Proof.
  revert a b. induction xs as [|x xs IH]; intros a b H; cbn [fold_left].
  - exact H.
  - apply IH. rewrite H. reflexivity.
Qed.

Lemma fold_left_Qmax_ge (xs : list Q) (a : Q) : a <= fold_left Qmax xs a.
Proof.
  revert a. induction xs as [|x xs IH]; intro a; cbn [fold_left].
  - apply Qle_refl.
  - apply Qle_trans with (Qmax a x); [apply Q.le_max_l | apply IH].
Qed.

Lemma fold_left_Qmin_shift (xs : list Q) (a x : Q) :
  fold_left Qmin xs (Qmin a x) == Qmin a (fold_left Qmin xs x).
Proof.
  revert x. induction xs as [|y xs IH]; intro x; cbn [fold_left].
  - reflexivity.
  - rewrite <- IH. clear IH.
    assert (H : Qmin (Qmin a x) y == Qmin a (Qmin x y))
      by (symmetry; apply Q.min_assoc).
    revert H. generalize (Qmin (Qmin a x) y) (Qmin a (Qmin x y)).
    clear. induction xs as [|z xs IH]; intros p q H; cbn [fold_left].
    + exact H.
    + apply IH. rewrite H. reflexivity.
Qed.

Lemma fold_left_Qmin_above (t : Q) (xs : list Q) (a : Q) :
  t < a -> Forall (fun f => t < f) xs -> t < fold_left Qmin xs a.
Proof.
  revert a. induction xs as [|x xs IH]; intros a Ha Hxs; cbn [fold_left].
  - exact Ha.
  - inversion Hxs as [|? ? Hx Hrest]; subst.
    apply IH; [|exact Hrest]. apply Q.min_glb_lt; assumption.
Qed.

Lemma record_force_invariant (f : Q) (m : Metrics) :
  FSR_THRESHOLD < f -> force_invariant m -> force_invariant (record_force f m).
Proof.
  intros Hf (Hall & Hmax & Hmin). unfold force_invariant, record_force.
  cbn [FSR_Readings_Move Max_FSR Min_FSR_Move].
  rewrite !fold_left_app. cbn [fold_left]. rewrite <- Hmax, <- Hmin.
  split; [|split; reflexivity].
  apply Forall_app. split; [exact Hall | constructor; [exact Hf | constructor]].
Qed.

Section AccumulatorFacts.

Variable sqrtQ : Q -> Q.
Variable rect_coord : Q -> Z.
Hypothesis sqrtQ_zero : forall q, q == 0 -> sqrtQ q == 0.

Lemma control_force_invariant (i : FrameInput) (g : Game) (l : Level) :
  fsr_threshold g = FSR_THRESHOLD ->
  valid_random i ->
  force_invariant (metrics l) ->
  force_invariant (metrics (snd (control sqrtQ i g l))) /\
  fsr_threshold (fst (control sqrtQ i g l)) = FSR_THRESHOLD.
Proof.
  intros Ht Hr Hinv. unfold control, read_hardware_data.
  destruct (serial i) as [s|].
  - unfold control_hardware. cbn [target_velocity set_target_velocity].
    unfold hardware_target_value. cbn [fsr_threshold current_fsr accel_data set_sensor].
    rewrite Ht.
    destruct (Qltb FSR_THRESHOLD (inject_Z (sample_fsr s))) eqn:Hgrip.
    + apply Qltb_lt in Hgrip.
      match goal with
      | |- context [if ?b then _ else _] => destruct b
      end; cbn; (split; [|exact Ht]); [apply record_force_invariant|]; assumption.
    + rewrite (has_length_zero sqrtQ sqrtQ_zero). cbn. split; assumption.
  - unfold control_keyboard. cbn [target_velocity set_target_velocity].
    destruct (has_length sqrtQ (keyboard_target (keys i))); cbn;
      (split; [|exact Ht]); [|exact Hinv].
    apply record_force_invariant; [|exact Hinv].
    destruct (uniform_in_band (random i) Hr) as (Hlo & _).
    apply Qlt_le_trans with (FSR_THRESHOLD + 200); [reflexivity | exact Hlo].
Qed.

Lemma frame_force_invariant (i : FrameInput) (g : Game) (l : Level) :
  fsr_threshold g = FSR_THRESHOLD ->
  valid_random i ->
  force_invariant (metrics l) ->
  force_invariant (metrics (snd (frame sqrtQ rect_coord i (g, l)))) /\
  fsr_threshold (fst (frame sqrtQ rect_coord i (g, l))) = FSR_THRESHOLD.
Proof.
  intros Ht Hr Hinv.
  destruct (control_force_invariant i g l Ht Hr Hinv) as ((Hall & Hmax & Hmin) & Ht').
  destruct (frame_force_fields sqrtQ rect_coord i g l) as (Ff & Fmax & Fmin & _ & Fthr).
  unfold force_invariant. rewrite Ff, Fmax, Fmin, Fthr.
  repeat split; assumption.
Qed.

Lemma level_loop_force_invariant (frames : list FrameInput) :
  forall (g : Game) (l : Level),
    fsr_threshold g = FSR_THRESHOLD ->
    Forall valid_random frames ->
    force_invariant (metrics l) ->
    force_invariant (metrics (snd (level_loop sqrtQ rect_coord frames (g, l)))).
Proof.
  induction frames as [|i rest IH]; intros g l Ht Hr Hinv; cbn [level_loop].
  - exact Hinv.
  - cbn [snd]. destruct (level_running l); [|exact Hinv].
    inversion Hr as [|? ? Hi Hrest]; subst.
    destruct (frame_force_invariant i g l Ht Hi Hinv) as (Hinv' & Ht').
    destruct (frame sqrtQ rect_coord i (g, l)) as [g1 l1].
    apply IH; assumption.
Qed.

(** C10, as the code has it. Over any run of frames of a freshly built
    level, every recorded force sample is strictly above the threshold; and
    once a sample exists, the running maximum is the maximum of the samples,
    the running minimum is the smaller of the sentinel 4095 and the minimum
    of the samples (so it is the minimum of the samples as soon as one of
    them is at most 4095), and both exceed the threshold. *)
Theorem force_samples_above_threshold :
  forall (level_name : string) (lay : Layout) (now : Q) (l0 : Level)
         (g : Game) (frames : list FrameInput),
    init_level sqrtQ level_name lay now = Some l0 ->
    fsr_threshold g = FSR_THRESHOLD ->
    Forall valid_random frames ->
    let m := metrics (snd (level_loop sqrtQ rect_coord frames (g, l0))) in
    let samples := FSR_Readings_Move m in
    Forall (fun f => FSR_THRESHOLD < f) samples /\
    (samples <> [] ->
       Max_FSR m == Qmaximum samples /\
       Min_FSR_Move m == Qmin MAX_FSR_VALUE (Qminimum samples) /\
       (Exists (fun f => f <= MAX_FSR_VALUE) samples ->
          Min_FSR_Move m == Qminimum samples) /\
       FSR_THRESHOLD < Max_FSR m /\
       FSR_THRESHOLD < Min_FSR_Move m).
Proof.
  intros level_name lay now l0 g frames Hinit Ht Hr m samples.
  assert (H0 : force_invariant (metrics l0)).
  { unfold init_level in Hinit.
    destruct (player_start_pos lay); [|discriminate].
    destruct (hole lay); [|discriminate].
    injection Hinit as <-. unfold force_invariant. cbn.
    split; [constructor | split; reflexivity]. }
  destruct (level_loop_force_invariant frames g l0 Ht Hr H0) as (Hall & Hmax & Hmin).
  fold m in Hall, Hmax, Hmin. fold samples in Hall, Hmax, Hmin.
  split; [exact Hall|].
  intro Hne. destruct samples as [|x rest] eqn:Hs; [congruence|].
  inversion Hall as [|? ? Hx Hrest]; subst.
  assert (Emax : Max_FSR m == fold_left Qmax rest x).
  { rewrite Hmax. cbn [fold_left]. apply fold_left_Qmax_proper.
    apply Q.max_r. apply Qlt_le_weak.
    apply Qlt_trans with FSR_THRESHOLD; [reflexivity | exact Hx]. }
  assert (Emin : Min_FSR_Move m == Qmin MAX_FSR_VALUE (fold_left Qmin rest x)).
  { rewrite Hmin. cbn [fold_left]. apply fold_left_Qmin_shift. }
  assert (Gmin : FSR_THRESHOLD < Min_FSR_Move m).
  { rewrite Hmin. apply fold_left_Qmin_above; [reflexivity | exact Hall]. }
  cbn [Qmaximum Qminimum].
  split; [exact Emax|]. split; [exact Emin|].
  split.
  - intro Hex. rewrite Emin. apply Q.min_r.
    assert (Hle : forall (ys : list Q) (a : Q),
               a <= MAX_FSR_VALUE \/ Exists (fun f => f <= MAX_FSR_VALUE) ys ->
               fold_left Qmin ys a <= MAX_FSR_VALUE).
    { clear. induction ys as [|y ys IH]; intros a H; cbn [fold_left].
      - destruct H as [H | H]; [exact H | inversion H].
      - apply IH. destruct H as [H | H].
        + left. apply Qle_trans with a; [apply Q.le_min_l | exact H].
        + inversion H as [? ? Hy | ? ? Hys]; subst.
          * left. apply Qle_trans with y; [apply Q.le_min_r | exact Hy].
          * right. exact Hys. }
    apply Hle. inversion Hex as [? ? Hy | ? ? Hys]; subst; [left | right]; assumption.
  - split; [|exact Gmin].
    rewrite Emax. apply Qlt_le_trans with x; [exact Hx | apply fold_left_Qmax_ge].
Qed.

End AccumulatorFacts.

Lemma easy_level_start : easy_level = Some easy_start.
Proof. vm_compute. reflexivity. Qed.

Lemma force_samples_above_threshold_witness :
  Forall (fun f => FSR_THRESHOLD < f)
    (FSR_Readings_Move
       (metrics (snd (level_loop Qsqrt truncate
                        [left_up_frame; strong_grip_frame; opposing_keys_frame]
                        (Game_init, easy_start))))).
Proof.
  apply (force_samples_above_threshold Qsqrt truncate Qsqrt_zero
           "Easy" (scan_level Easy) 0 easy_start Game_init
           [left_up_frame; strong_grip_frame; opposing_keys_frame]).
  - vm_compute. reflexivity.
  - reflexivity.
  - repeat (apply Forall_cons || apply Forall_nil); split; vm_compute;
      first [reflexivity | discriminate].
Defined.

(** C10, as the specification words it, fails: one hardware frame with the force
    word 5000 on a fresh level records the single sample 5000, while the
    running minimum stays at the sentinel 4095. *)
Lemma min_force_stays_at_sentinel :
  FSR_Readings_Move
    (metrics (snd (level_loop Qsqrt truncate [strong_grip_frame]
                     (Game_init, easy_start)))) = [5000] /\
  Min_FSR_Move
    (metrics (snd (level_loop Qsqrt truncate [strong_grip_frame]
                     (Game_init, easy_start)))) = 4095 /\
  Qminimum [5000] = 5000 /\
  ~ 4095 == 5000.
Proof.
  vm_compute. repeat split; try reflexivity. discriminate.
Qed.

(** ** Session averages and the empty session *)

Section ReportFacts.

Variable sqrtQ : Q -> Q.
Variable float_of_string : string -> option Q.
Variable str_of_float : Q -> string.

Lemma level_row_total (m : Metrics) :
  exists r, level_row sqrtQ m = Ok r.
Proof.
  unfold level_row. rewrite cov_reference_eq, path_eff_total. cbn [Py.bind].
  eexists. reflexivity.
Qed.

Lemma level_rows_total (ms : list Metrics) :
  exists rows, level_rows sqrtQ ms = Ok rows /\ List.length rows = List.length ms.
Proof.
  induction ms as [|m ms (rows & Hrows & Hlen)]; cbn [level_rows].
  - exists []. split; reflexivity.
  - destruct (level_row_total m) as (r & Hr). rewrite Hr, Hrows. cbn [Py.bind].
    exists (r :: rows). split; [reflexivity | cbn; congruence].
Qed.

Lemma mean_nonempty (xs : list Q) : xs <> [] -> mean xs = Ok (mean_of xs).
Proof. destruct xs; [congruence | reflexivity]. Qed.

Lemma session_averages_nonempty (rows : list LevelRow) :
  rows <> [] ->
  session_averages rows =
    Ok (mean_of (map row_cov rows),
        mean_of (map (fun d => inject_Z (row_collisions d)) rows),
        mean_of (map row_path_eff rows)) /\
  session_averages_db rows = session_averages rows.
Proof.
  destruct rows as [|r rows]; [congruence|]. intros _. split; reflexivity.
Qed.

(** C6, as the code has it. On an empty list of completed levels report
    generation returns at once, in both variants: no report, no aggregate,
    nothing raised (the guarded aggregate expressions of the database
    variant would give three zeros, but are not reached). On a non-empty
    list the per-level rows never raise and the three aggregates are the
    arithmetic means of the rows' values, the same in both variants. *)
Theorem empty_session_short_circuits :
  (forall user f,
      generate_report_for sqrtQ float_of_string str_of_float user [] f = Ok (None, f)) /\
  generate_report_db sqrtQ [] = Ok None /\
  session_averages_db [] = Ok (0, 0, 0) /\
  (forall completed,
      completed <> [] ->
      exists rows,
        level_rows sqrtQ completed = Ok rows /\
        List.length rows = List.length completed /\
        session_averages rows =
          Ok (mean_of (map row_cov rows),
              mean_of (map (fun d => inject_Z (row_collisions d)) rows),
              mean_of (map row_path_eff rows)) /\
        session_averages_db rows = session_averages rows /\
        generate_report_db sqrtQ completed =
          Ok (Some (mkReport rows
                      (mean_of (map row_cov rows))
                      (mean_of (map (fun d => inject_Z (row_collisions d)) rows))
                      (mean_of (map row_path_eff rows))
                      None))).
Proof.
  split; [reflexivity|]. split; [reflexivity|]. split; [reflexivity|].
  intros completed Hne.
  destruct (level_rows_total completed) as (rows & Hrows & Hlen).
  assert (Hr : rows <> []).
  { destruct rows; [|discriminate]. destruct completed; [congruence | discriminate]. }
  destruct (session_averages_nonempty rows Hr) as (Hs & Hdb).
  exists rows. repeat (split; [assumption|]).
  unfold generate_report_db. destruct completed as [|m ms]; [congruence|].
  rewrite Hrows. cbn [Py.bind]. rewrite Hdb, Hs. reflexivity.
Qed.

End ReportFacts.

(** C6, as the specification words it, fails: on the empty list neither variant
    yields any aggregate (there is no report at all), and the bare
    aggregate step of [game.py] would raise there. *)
Lemma empty_session_yields_no_aggregates :
  generate_report_for Qsqrt float_of_digits str_of_floor "normal" [] None
    = Ok (None, None) /\
  generate_report_db Qsqrt [] = Ok None /\
  session_averages [] = Raise StatisticsError.
Proof. repeat split; reflexivity. Qed.

(** ** The baseline file and the comparison table *)

Lemma dict_get_set {V} (k k' : string) (v : V) (d : dict V) :
  dict_get k (dict_set k' v d) = if String.eqb k' k then Ok v else dict_get k d.
Proof.
  induction d as [|[k0 v0] d IH]; cbn [dict_set dict_get].
  - destruct (String.eqb k' k); reflexivity.
  - destruct (String.eqb k0 k') eqn:E0; cbn [dict_get].
    + apply String.eqb_eq in E0. subst k0.
      destruct (String.eqb k' k); reflexivity.
    + rewrite IH. destruct (String.eqb k0 k) eqn:E1; [|reflexivity].
      apply String.eqb_eq in E1. subst k0. rewrite String.eqb_sym, E0.
      reflexivity.
Qed.

Lemma split_nonempty (sep : ascii) (s : string) : split sep s <> [].
Proof.
  destruct s as [|c s]; cbn [split]; [discriminate|].
  destruct (Ascii.eqb c sep); [discriminate|].
  destruct (split sep s); discriminate.
Qed.

Lemma split_trailing_separator (sep : ascii) (key : string) :
  exists p parts,
    split sep (key ++ String sep EmptyString) = (p :: parts) ++ [EmptyString].
Proof.
  induction key as [|c key (p & parts & IH)]; cbn [append split].
  - rewrite Ascii.eqb_refl. exists EmptyString, []. reflexivity.
  - destruct (Ascii.eqb c sep).
    + rewrite IH. exists EmptyString, (p :: parts). reflexivity.
    + rewrite IH. cbn [app]. exists (String c p), parts. reflexivity.
Qed.

Lemma dict_get_missing {V} (k : string) (d : dict V) :
  dict_mem k d = false <-> dict_get k d = Raise KeyError.
Proof.
  unfold dict_mem. induction d as [|[k0 v] d IH]; cbn [existsb dict_get fst].
  - split; reflexivity.
  - destruct (String.eqb k0 k); cbn [orb]; [split; discriminate | exact IH].
Qed.

Lemma dict_get_present {V} (k : string) (d : dict V) :
  dict_mem k d = true -> exists v, dict_get k d = Ok v.
Proof.
  unfold dict_mem. induction d as [|[k0 v] d IH]; cbn [existsb dict_get fst].
  - discriminate.
  - destruct (String.eqb k0 k); cbn [orb]; [exists v; reflexivity | exact IH].
Qed.

Section BaselineFacts.

Variable float_of_string : string -> option Q.
Hypothesis float_of_empty : float_of_string EmptyString = None.

Lemma floats_length (vs : list string) (xs : list Q) :
  floats float_of_string vs = Ok xs -> List.length xs = List.length vs.
Proof.
  revert xs. induction vs as [|v vs IH]; intros xs H; cbn [floats] in H.
  - injection H as <-. reflexivity.
  - destruct (float_of_string v); [|discriminate].
    destruct (floats float_of_string vs) as [ys|]; [|discriminate].
    cbn [Py.bind] in H. injection H as <-. cbn. f_equal. apply IH. reflexivity.
Qed.

(** A line that names a key and holds no value does not parse. *)
Lemma parse_line_no_values (line key : string) :
  strip line = (key ++ ":")%string ->
  parse_line float_of_string line = Raise ValueError.
Proof.
  intro Hs. unfold parse_line. rewrite Hs.
  destruct (split_trailing_separator ":" key) as (p & parts & Hsplit).
  rewrite Hsplit. destruct parts as [|p2 parts]; cbn [app].
  - cbn [split floats]. rewrite float_of_empty. reflexivity.
  - destruct parts; reflexivity.
Qed.

Lemma parse_line_values (line key : string) (xs : list Q) :
  parse_line float_of_string line = Ok (key, xs) -> xs <> [].
Proof.
  unfold parse_line.
  destruct (split ":" (strip line)) as [|k [|values [|? ?]]]; try discriminate.
  destruct (floats float_of_string (split "," values)) as [ys|] eqn:Hf;
    [|discriminate].
  cbn [Py.bind]. intro H. injection H as _ <-.
  apply floats_length in Hf. intro Hnil. subst ys.
  destruct (split "," values) eqn:Hsp; [|discriminate].
  exact (split_nonempty _ _ Hsp).
Qed.

Lemma load_lines_raises (lines : list string) :
  forall thresholds,
    (exists line e, In line lines /\ parse_line float_of_string line = Raise e) ->
    exists e, load_lines float_of_string lines thresholds = Raise e.
Proof.
  induction lines as [|l lines IH]; intros th (line & e & Hin & Hp).
  - destruct Hin.
  - cbn [load_lines].
    destruct (parse_line float_of_string l) as [[k xs]|e0] eqn:Hl;
      [|exists e0; reflexivity].
    cbn [Py.bind fst snd].
    destruct (mean_if_any xs) as [m|e1]; [|exists e1; reflexivity].
    cbn [Py.bind]. apply IH.
    destruct Hin as [<- | Hin]; [congruence|].
    exists line, e. split; assumption.
Qed.

Lemma load_lines_means (lines : list string) :
  forall thresholds result k v,
    load_lines float_of_string lines thresholds = Ok result ->
    dict_get k result = Ok v ->
    dict_get k thresholds = Ok v \/
    exists line xs,
      In line lines /\ parse_line float_of_string line = Ok (k, xs) /\
      xs <> [] /\ v = mean_of xs.
Proof.
  induction lines as [|l lines IH]; intros th result k v Hload Hget;
    cbn [load_lines] in Hload.
  - injection Hload as <-. left. exact Hget.
  - destruct (parse_line float_of_string l) as [[k0 xs]|] eqn:Hl; [|discriminate].
    cbn [Py.bind fst snd] in Hload.
    pose proof (parse_line_values l k0 xs Hl) as Hxs.
    unfold mean_if_any in Hload.
    destruct xs as [|x xs]; [congruence|].
    cbn [nonempty mean Py.bind] in Hload.
    destruct (IH _ _ _ _ Hload Hget) as [Hth | (line & ys & Hin & Hp & Hys & Hv)].
    + rewrite dict_get_set in Hth.
      destruct (String.eqb k0 k) eqn:Ek.
      * apply String.eqb_eq in Ek. subst k0. injection Hth as <-.
        right. exists l, (x :: xs). repeat split; auto. now left.
      * left. exact Hth.
    + right. exists line, ys. repeat split; auto. now right.
Qed.

(** C9. Baseline comparison. With the baseline file absent, with a file of
    zero lines, or with a file in which some key holds no value, the
    comparison reports no baseline (no table) and no zero baseline is
    returned. With history, each baseline value is the arithmetic mean of the
    sequence persisted for its key; when all three metrics have history the
    table gives per metric the session value, that mean and their
    difference, and when one of them has none the lookup of its mean raises
    [KeyError]. *)
Theorem baseline_comparison :
  (forall a b c, compare float_of_string "rehab" None a b c = Ok None) /\
  (forall a b c, compare float_of_string "rehab" (Some []) a b c = Ok None) /\
  (forall lines line key a b c,
      In line lines -> strip line = (key ++ ":")%string ->
      load_normal_thresholds float_of_string (Some lines) = None /\
      compare float_of_string "rehab" (Some lines) a b c = Ok None) /\
  (forall lines thresholds k v,
      load_normal_thresholds float_of_string (Some lines) = Some thresholds ->
      dict_get k thresholds = Ok v ->
      exists line xs,
        In line lines /\ parse_line float_of_string line = Ok (k, xs) /\
        xs <> [] /\ v = mean_of xs) /\
  (forall lines thresholds a_cov a_collisions a_path_eff t_cov t_collisions t_path_eff,
      load_normal_thresholds float_of_string (Some lines) = Some thresholds ->
      dict_get "avg_cov" thresholds = Ok t_cov ->
      dict_get "avg_collisions" thresholds = Ok t_collisions ->
      dict_get "avg_path_eff" thresholds = Ok t_path_eff ->
      compare float_of_string "rehab" (Some lines) a_cov a_collisions a_path_eff =
      Ok (Some [ mkCompRow "Collisions" a_collisions t_collisions
                           (a_collisions - t_collisions);
                 mkCompRow "Grip CoV (%)" a_cov t_cov (a_cov - t_cov);
                 mkCompRow "Path Eff (%)" a_path_eff t_path_eff
                           (a_path_eff - t_path_eff) ])) /\
  (forall lines thresholds a_cov a_collisions a_path_eff,
      load_normal_thresholds float_of_string (Some lines) = Some thresholds ->
      thresholds <> [] ->
      dict_mem "avg_cov" thresholds && dict_mem "avg_collisions" thresholds
        && dict_mem "avg_path_eff" thresholds = false ->
      compare float_of_string "rehab" (Some lines) a_cov a_collisions a_path_eff =
      Raise KeyError).
Proof.
  split; [reflexivity|]. split; [reflexivity|].
  split.
  { intros lines line key a b c Hin Hs.
    assert (Hload : load_normal_thresholds float_of_string (Some lines) = None).
    { unfold load_normal_thresholds.
      destruct (load_lines_raises lines []) as (e & He).
      - exists line, ValueError. split; [exact Hin|].
        exact (parse_line_no_values line key Hs).
      - rewrite He. reflexivity. }
    split; [exact Hload|].
    unfold compare. cbn [String.eqb]. rewrite Hload.
    reflexivity. }
  split.
  { intros lines th k v Hload Hget. unfold load_normal_thresholds in Hload.
    destruct (load_lines float_of_string lines []) as [d|] eqn:Hl;
      cbn [Py.bind Py.catch] in Hload; [|discriminate].
    injection Hload as ->.
    destruct (load_lines_means lines [] th k v Hl Hget) as [H | H];
      [discriminate | exact H]. }
  split.
  { intros lines th a_cov a_coll a_eff t_cov t_coll t_eff Hload Hc Hl Hp.
    unfold compare. replace (String.eqb "rehab" "rehab") with true by reflexivity.
    rewrite Hload.
    destruct th as [|kv d]; [discriminate|].
    unfold comparison_rows. rewrite Hl, Hc, Hp. reflexivity. }
  intros lines th a_cov a_coll a_eff Hload Hne Hmiss.
  unfold compare. replace (String.eqb "rehab" "rehab") with true by reflexivity.
  rewrite Hload. destruct th as [|kv d]; [congruence|].
  unfold comparison_rows.
  destruct (dict_mem "avg_collisions" (kv :: d)) eqn:M2.
  - destruct (dict_get_present _ _ M2) as (v2 & G2). rewrite G2. cbn [Py.bind].
    destruct (dict_mem "avg_cov" (kv :: d)) eqn:M1.
    + destruct (dict_get_present _ _ M1) as (v1 & G1). rewrite G1. cbn [Py.bind].
      cbn [andb] in Hmiss. apply dict_get_missing in Hmiss.
      rewrite Hmiss. reflexivity.
    + apply dict_get_missing in M1. rewrite M1. reflexivity.
  - apply dict_get_missing in M2. rewrite M2. reflexivity.
Qed.

End BaselineFacts.

Lemma baseline_comparison_witness :
  compare float_of_digits "rehab" (Some ["avg_cov:"]%string) 1 2 3 = Ok None /\
  compare float_of_digits "rehab"
    (Some ["avg_cov:10,20"; "avg_collisions:3"; "avg_path_eff:80,90"]%string) 1 2 3
  = Ok (Some [ mkCompRow "Collisions" 2 3 (2 - 3);
               mkCompRow "Grip CoV (%)" 1 (mean_of [10; 20]) (1 - mean_of [10; 20]);
               mkCompRow "Path Eff (%)" 3 (mean_of [80; 90]) (3 - mean_of [80; 90]) ]).
Proof.
  destruct (baseline_comparison float_of_digits eq_refl)
    as (_ & _ & Hnone & _ & Hrows & _).
  split.
  - apply (Hnone ["avg_cov:"]%string "avg_cov:"%string "avg_cov"%string 1 2 3).
    + left. reflexivity.
    + reflexivity.
  - apply (Hrows _ [("avg_cov", mean_of [10; 20]); ("avg_collisions", mean_of [3]);
                    ("avg_path_eff", mean_of [80; 90])]%string);
      reflexivity.
Defined.

(** C9 as the specification words it fails when history exists for one
    metric only: the file loads, with the mean of its one sequence, yet the
    comparison returns no triple for any metric: it raises. *)
Lemma baseline_partial_history_raises :
  load_normal_thresholds float_of_digits (Some ["avg_cov:10,20"%string])
  = Some [("avg_cov"%string, mean_of [10; 20])] /\
  compare float_of_digits "rehab" (Some ["avg_cov:10,20"%string]) 1 2 3
  = Raise KeyError.
Proof. split; vm_compute; reflexivity. Qed.

(** ** Worked examples with the instance [Qsqrt] *)

Example path_efficiency_straight_line :
  exists v, path_eff Qsqrt straight_path_metrics = Ok v /\ v == 150.
Proof. eexists. split; [vm_compute; reflexivity | reflexivity]. Qed.

Example path_efficiency_zero_length :
  path_eff Qsqrt still_path_metrics = Ok 0.
Proof. vm_compute. reflexivity. Qed.

Example capture_at_fifteen_pixels :
  goal_reached Qsqrt (set_player (Ball 1195 420) easy_start) = false /\
  goal_reached Qsqrt (set_player (Ball 1194 420) easy_start) = true.
Proof. split; vm_compute; reflexivity. Qed.

(** ** The session invariant along [run] *)

Section SessionFacts.

Variable sqrtQ : Q -> Q.
Variable rect_coord : Q -> Z.
Variable float_of_string : string -> option Q.
Variable str_of_float : Q -> string.

Lemma index_in_range_init : index_in_range Game_init.
Proof. intros [H | H]; discriminate. Qed.

Lemma menu_loop_preserves (P : Game -> Prop)
  (step : option string -> Game -> Game * bool) :
  (forall a g, P g -> P (fst (step a g))) ->
  forall acts g, P g -> P (menu_loop step acts g).
Proof.
  intros Hstep acts. induction acts as [|a acts IH]; intros g Hg; cbn [menu_loop].
  - exact Hg.
  - specialize (Hstep a g Hg). destruct (step a g) as [g1 b]. cbn [fst] in Hstep.
    destruct b; [apply IH|]; exact Hstep.
Qed.

Lemma user_type_step_in_range (a : option string) (g : Game) :
  index_in_range g -> index_in_range (fst (user_type_step a g)).
Proof.
  unfold user_type_step. intro H. split_ifs; cbn [fst]; try exact H;
    intros [E | E]; discriminate.
Qed.

Lemma user_info_step_in_range (a : option string) (g : Game) :
  index_in_range g -> index_in_range (fst (user_info_step a g)).
Proof.
  unfold user_info_step. intro H. split_ifs; cbn [fst]; try exact H.
  intros [E | E]; discriminate.
Qed.

Lemma main_menu_step_in_range (a : option string) (g : Game) :
  index_in_range g -> index_in_range (fst (main_menu_step a g)).
Proof.
  unfold main_menu_step. intro H. split_ifs; cbn [fst]; try exact H.
  - intros _. cbn. lia.
  - intros [E | E]; discriminate.
Qed.

Lemma settings_step_in_range (a : option string) (g : Game) :
  index_in_range g -> index_in_range (fst (settings_step a g)).
Proof.
  unfold settings_step. intro H. split_ifs; cbn [fst]; try exact H.
  intros [E | E]; discriminate.
Qed.

Lemma ask_to_continue_in_range (acts : list (option string)) :
  forall g g',
    (current_level_index g < List.length level_sequence)%nat ->
    ask_to_continue acts g = Ok g' ->
    index_in_range g'.
Proof.
  induction acts as [|a acts IH]; intros g g' Hi H; cbn [ask_to_continue] in H.
  - injection H as <-. intros _. exact Hi.
  - destruct (is_action a "quit").
    + cbn [current_level_index set_running] in H.
      destruct (level_name_at (current_level_index g)); [|discriminate].
      cbn [Py.bind] in H. injection H as <-. intros _. exact Hi.
    + destruct (is_action a "Continue").
      * cbn [current_level_index set_game_state] in H.
        destruct (level_name_at (current_level_index g)); [|discriminate].
        cbn [Py.bind] in H. injection H as <-. intros _. exact Hi.
      * destruct (is_action a "End & Report").
        -- cbn [current_level_index set_game_state] in H.
           destruct (level_name_at (current_level_index g)); [|discriminate].
           cbn [Py.bind] in H. injection H as <-. intros _. exact Hi.
        -- destruct (level_name_at (current_level_index g)); [|discriminate].
           cbn [Py.bind] in H. exact (IH g g' Hi H).
Qed.

Lemma frame_in_range (i : FrameInput) (g : Game) (l : Level) :
  index_in_range g -> index_in_range (fst (frame sqrtQ rect_coord i (g, l))).
Proof.
  intro H.
  destruct (advance_keeps sqrtQ rect_coord i g l) as (_ & Hi & Hs & _).
  unfold frame. cbn zeta.
  destruct (goal_reached sqrtQ (snd (advance sqrtQ rect_coord i (g, l)))).
  - unfold index_in_range.
    rewrite complete_level_index, complete_level_state, Hi.
    destruct (List.length level_sequence <=? S (current_level_index g))%nat eqn:E.
    + intros [D | D]; discriminate.
    + intros _. apply Nat.leb_gt in E. exact E.
  - unfold index_in_range. rewrite Hi, Hs. exact H.
Qed.

Lemma level_loop_in_range (fs : list FrameInput) :
  forall g l,
    index_in_range g ->
    index_in_range (fst (level_loop sqrtQ rect_coord fs (g, l))).
Proof.
  induction fs as [|i fs IH]; intros g l H; cbn [level_loop].
  - exact H.
  - cbn [snd]. destruct (level_running l); [|exact H].
    pose proof (frame_in_range i g l H) as H1.
    destruct (frame sqrtQ rect_coord i (g, l)) as [g1 l1]. apply IH. exact H1.
Qed.

Lemma play_level_in_range (name : string) (now : Q) (fs : list FrameInput)
  (g g' : Game) :
  index_in_range g ->
  play_level sqrtQ rect_coord name now fs g = Ok g' ->
  index_in_range g'.
Proof.
  intros H Hp. unfold play_level in Hp.
  destruct (lookup_level name LEVELS) as [level_map|]; [|discriminate].
  cbn [Py.bind] in Hp.
  destruct (init_level sqrtQ name (scan_level level_map) now) as [l|].
  - injection Hp as <-. apply level_loop_in_range. exact H.
  - injection Hp as <-. intros [E | E]; discriminate.
Qed.

(** Every iteration of [run] keeps the level index inside the sequence
    whenever a level is about to be played or offered. *)
Lemma run_step_in_range (i : StepInput) (w w' : World) :
  index_in_range (game w) ->
  run_step sqrtQ rect_coord float_of_string str_of_float i w = Ok w' ->
  index_in_range (game w').
Proof.
  intros H Hs. unfold run_step in Hs.
  destruct (game_state (game w)) eqn:Est.
  - injection Hs as <-. cbn [game].
    apply menu_loop_preserves; [exact user_type_step_in_range | exact H].
  - injection Hs as <-. cbn [game].
    apply menu_loop_preserves; [exact user_info_step_in_range | exact H].
  - injection Hs as <-. cbn [game].
    apply menu_loop_preserves; [exact main_menu_step_in_range | exact H].
  - injection Hs as <-. cbn [game].
    apply menu_loop_preserves; [exact settings_step_in_range | exact H].
  - destruct (level_name_at (current_level_index (game w))) as [name|];
      [|discriminate].
    cbn [Py.bind] in Hs.
    destruct (play_level sqrtQ rect_coord name (level_start i) (frames i) (game w))
      as [g1|] eqn:Hp; [|discriminate].
    cbn [Py.bind] in Hs. injection Hs as <-. cbn [game].
    exact (play_level_in_range _ _ _ _ _ H Hp).
  - destruct (ask_to_continue (actions i) (game w)) as [g1|] eqn:Ha;
      [|discriminate].
    cbn [Py.bind] in Hs. injection Hs as <-. cbn [game].
    apply (ask_to_continue_in_range (actions i) (game w)); [|exact Ha].
    apply H. right. exact Est.
  - destruct (generate_report_for sqrtQ float_of_string str_of_float
                (user_type (game w)) (completed_levels_metrics (game w))
                (thresholds_file w)); [|discriminate].
    cbn [Py.bind] in Hs. injection Hs as <-. cbn [game].
    intros [E | E]; discriminate.
Qed.

Lemma run_in_range (inputs : list StepInput) :
  forall w w',
    index_in_range (game w) ->
    run sqrtQ rect_coord float_of_string str_of_float inputs w = Ok w' ->
    index_in_range (game w').
Proof.
  induction inputs as [|i inputs IH]; intros w w' H Hr; cbn [run] in Hr.
  - injection Hr as <-. exact H.
  - destruct (running (game w)); [|injection Hr as <-; exact H].
    destruct (run_step sqrtQ rect_coord float_of_string str_of_float i w)
      as [w1|] eqn:Hs; [|discriminate].
    cbn [Py.bind] in Hr.
    exact (IH w1 w' (run_step_in_range i w w1 H Hs) Hr).
Qed.

(** While the invariant holds, indexing [level_sequence] for the level to
    play does not raise. *)
Lemma playing_level_exists (g : Game) :
  index_in_range g -> game_state g = playing ->
  exists name, level_name_at (current_level_index g) = Ok name /\
               exists level_map, lookup_level name LEVELS = Ok level_map.
Proof.
  intros H Hs. specialize (H (or_introl Hs)). unfold level_name_at.
  cbn in H. destruct (current_level_index g) as [|[|[|n]]]; [| | |lia];
    cbn; eexists; (split; [reflexivity|]); eexists; reflexivity.
Qed.

End SessionFacts.

(* ===================================================================== *)
(** * Further properties of the engine *)
(* ===================================================================== *)

(** ** Speed bounds *)

Lemma clamp_bounds (v lo hi : Q) :
  lo <= hi -> lo <= clamp v lo hi /\ clamp v lo hi <= hi.
Proof.
  intro H. unfold clamp. split.
  - apply Q.le_max_l.
  - apply Q.max_lub; [exact H | apply Q.le_min_l].
Qed.

Lemma clamp_inside (v lo hi : Q) :
  lo <= v -> v <= hi -> clamp v lo hi == v.
Proof.
  intros H1 H2. unfold clamp. rewrite (Q.min_r hi v H2). apply Q.max_r. exact H1.
Qed.

Lemma tilt_bounds (a : Z) : -1 <= tilt_value a /\ tilt_value a <= 1.
Proof. unfold tilt_value. apply clamp_bounds. discriminate. Qed.

Lemma within_speed_zero : within_speed (0, 0).
Proof. unfold within_speed, PLAYER_SPEED. cbn. repeat split; discriminate. Qed.

Lemma hardware_target_within (g : Game) : within_speed (hardware_target_value g).
Proof.
  unfold hardware_target_value. cbv zeta.
  destruct (Qltb (fsr_threshold g) (current_fsr g)); [|exact within_speed_zero].
  destruct (tilt_bounds (fst (fst (accel_data g)))) as (X1 & X2).
  destruct (tilt_bounds (snd (fst (accel_data g)))) as (Y1 & Y2).
  unfold within_speed, PLAYER_SPEED. cbn [fst snd]. repeat split; lra.
Qed.

Lemma keyboard_target_within (k : Keys) : within_speed (keyboard_target k).
Proof.
  destruct k as [[] [] [] []]; unfold within_speed; cbn;
    repeat split; discriminate.
Qed.

Lemma lerp_within (v t : Vec) :
  within_speed v -> within_speed t ->
  within_speed (lerp v t PLAYER_ACCELERATION).
Proof.
  unfold within_speed, lerp, PLAYER_ACCELERATION, PLAYER_SPEED. cbn [fst snd].
  intros ((A1 & A2) & (A3 & A4)) ((B1 & B2) & (B3 & B4)). repeat split; lra.
Qed.

Lemma bounce_within (x : Q) :
  - PLAYER_SPEED <= x /\ x <= PLAYER_SPEED ->
  - PLAYER_SPEED <= x * - PLAYER_BOUNCINESS /\ x * - PLAYER_BOUNCINESS <= PLAYER_SPEED.
Proof. unfold PLAYER_SPEED, PLAYER_BOUNCINESS. intros (A & B). split; lra. Qed.

Section SpeedFacts.

Variable sqrtQ : Q -> Q.
Variable rect_coord : Q -> Z.

Lemma control_target_within (i : FrameInput) (g : Game) (l : Level) :
  within_speed (target_velocity (snd (control sqrtQ i g l))).
Proof.
  unfold control, read_hardware_data. destruct (serial i) as [s|].
  - rewrite control_hardware_target. apply hardware_target_within.
  - unfold control_keyboard. cbn [target_velocity set_target_velocity].
    destruct (has_length sqrtQ (keyboard_target (keys i))); cbn;
      apply keyboard_target_within.
Qed.

Lemma resolve_collisions_within (dt : Q) (l : Level) :
  within_speed (player_velocity l) ->
  within_speed (player_velocity (resolve_collisions rect_coord dt l)).
Proof.
  intros (Hx & Hy).
  assert (Hc : (fst (player_velocity (resolve_collisions rect_coord dt l)) =
                  fst (player_velocity l) \/
                fst (player_velocity (resolve_collisions rect_coord dt l)) =
                  fst (player_velocity l) * - PLAYER_BOUNCINESS) /\
               (snd (player_velocity (resolve_collisions rect_coord dt l)) =
                  snd (player_velocity l) \/
                snd (player_velocity (resolve_collisions rect_coord dt l)) =
                  snd (player_velocity l) * - PLAYER_BOUNCINESS)).
  { unfold resolve_collisions, resolve_x, resolve_y.
    split_ifs;
      cbn [player_velocity set_player_velocity set_player set_metrics fst snd];
      split; auto. }
  destruct Hc as ([Ex | Ex] & [Ey | Ey]); unfold within_speed;
    rewrite Ex, Ey; split; auto using bounce_within.
Qed.

Lemma resolve_x_running (dt : Q) (old_x : Z) (b : bool) (q : Level) :
  resolve_x rect_coord dt old_x (set_level_running b q) =
  (set_level_running b (fst (resolve_x rect_coord dt old_x q)),
   snd (resolve_x rect_coord dt old_x q)).
Proof.
  destruct q as [p v t bs h s r m].
  cbv beta iota zeta delta
    [resolve_x proposed_x set_player set_player_velocity set_metrics
     set_level_running player player_velocity level_barriers metrics].
  split_ifs; reflexivity.
Qed.

Lemma resolve_y_running (dt : Q) (old_y : Z) (b : bool) (q : Level) :
  resolve_y rect_coord dt old_y (set_level_running b q) =
  (set_level_running b (fst (resolve_y rect_coord dt old_y q)),
   snd (resolve_y rect_coord dt old_y q)).
Proof.
  destruct q as [p v t bs h s r m].
  cbv beta iota zeta delta
    [resolve_y proposed_y set_player set_player_velocity set_metrics
     set_level_running player player_velocity level_barriers metrics].
  split_ifs; reflexivity.
Qed.

(** The collision resolver does not look at the running flag. *)
Lemma resolve_collisions_running (dt : Q) (b : bool) (q : Level) :
  resolve_collisions rect_coord dt (set_level_running b q) =
  set_level_running b (resolve_collisions rect_coord dt q).
Proof.
  unfold resolve_collisions.
  replace (rx (player (set_level_running b q))) with (rx (player q))
    by (destruct q; reflexivity).
  replace (ry (player (set_level_running b q))) with (ry (player q))
    by (destruct q; reflexivity).
  rewrite resolve_x_running.
  destruct (resolve_x rect_coord dt (rx (player q)) q) as [l1 xs]. cbn [fst snd].
  rewrite resolve_y_running.
  destruct (resolve_y rect_coord dt (ry (player q)) l1) as [l2 ys]. reflexivity.
Qed.

Lemma frame_velocity (i : FrameInput) (g : Game) (l : Level) :
  player_velocity (snd (frame sqrtQ rect_coord i (g, l))) =
  player_velocity
    (resolve_collisions rect_coord (frame_dt i)
       (integrate (snd (control sqrtQ i g l)))).
Proof.
  rewrite frame_level. cbn zeta. rewrite advance_level. cbn [fst snd].
  rewrite handle_quit_level.
  destruct (goal_reached sqrtQ _); destruct (quit_event i);
    rewrite ?resolve_collisions_running; reflexivity.
Qed.

Lemma frame_within (i : FrameInput) (g : Game) (l : Level) :
  within_speed (player_velocity l) ->
  within_speed (player_velocity (snd (frame sqrtQ rect_coord i (g, l)))) /\
  within_speed (target_velocity (snd (frame sqrtQ rect_coord i (g, l)))).
Proof.
  intro Hv. split.
  - rewrite frame_velocity. apply resolve_collisions_within.
    unfold integrate. cbn [player_velocity set_player_velocity target_velocity].
    apply lerp_within; [|apply control_target_within].
    destruct (control_keeps sqrtQ i g l) as (_ & Kv & _). rewrite Kv. exact Hv.
  - rewrite frame_target. apply control_target_within.
Qed.

(** X1. The ball's velocity never exceeds the maximum speed on either axis:
    from a velocity within the bound (as at level start), any run of frames,
    whatever the sensor words, keys, frame times and collisions, leaves both
    components within [-PLAYER_SPEED, PLAYER_SPEED]. *)
Theorem velocity_within_max_speed :
  forall (fs : list FrameInput) (g : Game) (l : Level),
    within_speed (player_velocity l) ->
    within_speed (player_velocity (snd (level_loop sqrtQ rect_coord fs (g, l)))).
Proof.
  induction fs as [|i rest IH]; intros g l H; cbn [level_loop].
  - exact H.
  - cbn [snd]. destruct (level_running l); [|exact H].
    destruct (frame_within i g l H) as (Hv & _).
    destruct (frame sqrtQ rect_coord i (g, l)) as [g1 l1]. apply IH. exact Hv.
Qed.

(** X2. The frame time is clamped into [0, 0.1] seconds, so with a velocity
    within the speed bound the proposed move of a frame is at most 26 pixels
    on each axis (less than a tile). *)
Theorem frame_displacement_bound :
  forall (i : FrameInput) (v : Vec),
    (0 <= tick_ms i)%Z ->
    within_speed v ->
    (0 <= frame_dt i /\ frame_dt i <= 1 # 10) /\
    (- (26) <= fst v * frame_dt i /\ fst v * frame_dt i <= 26) /\
    (- (26) <= snd v * frame_dt i /\ snd v * frame_dt i <= 26).
Proof.
  intros i v Ht ((X1 & X2) & (Y1 & Y2)). unfold PLAYER_SPEED in *.
  assert (Hdt : 0 <= frame_dt i /\ frame_dt i <= 1 # 10).
  { unfold frame_dt. split; [|apply Q.le_min_r].
    apply Q.min_glb; [|discriminate].
    unfold Qdiv. apply Qmult_le_0_compat; [|discriminate].
    unfold Qle. cbn. lia. }
  destruct Hdt as (D1 & D2). split; [split; assumption|].
  split; split; nra.
Qed.

End SpeedFacts.

(** ** Collisions, the ball's path and the walls *)

Section MotionFacts.

Variable sqrtQ : Q -> Q.
Variable rect_coord : Q -> Z.

(** What a frame does to the level, in terms of the collision resolver
    applied to the smoothed state. *)
Lemma frame_motion (i : FrameInput) (g : Game) (l : Level) :
  let r := resolve_collisions rect_coord (frame_dt i)
             (integrate (snd (control sqrtQ i g l))) in
  let l' := snd (frame sqrtQ rect_coord i (g, l)) in
  player l' = player r /\
  level_barriers l' = level_barriers r /\
  Collision_Count (metrics l') = Collision_Count (metrics r) /\
  Path_Points (metrics l') = Path_Points (metrics r) ++ [center (player r)] /\
  (level_running l' = true -> level_running l = true).
Proof.
  cbn zeta. rewrite frame_level. cbn zeta. rewrite advance_level. cbn [fst snd].
  rewrite handle_quit_level.
  destruct (control_keeps sqrtQ i g l) as (_ & _ & _ & _ & _ & Kr & _).
  destruct (resolve_collisions_keeps rect_coord (frame_dt i)
              (integrate (snd (control sqrtQ i g l))))
    as (_ & _ & _ & _ & _ & _ & _ & _ & _ & Rr).
  destruct (goal_reached sqrtQ _); destruct (quit_event i);
    rewrite ?resolve_collisions_running; cbn; repeat split;
    try discriminate; intro H; rewrite Rr in H; cbn in H; rewrite <- Kr; exact H.
Qed.

Lemma resolve_collisions_count (dt : Q) (l : Level) :
  (Collision_Count (metrics l)
   <= Collision_Count (metrics (resolve_collisions rect_coord dt l))
   <= Collision_Count (metrics l) + 2)%Z.
Proof.
  unfold resolve_collisions, resolve_x, resolve_y. split_ifs; cbn; lia.
Qed.

(** X3. The collision counter never decreases and grows by at most 2 per
    frame: after any run of frames it lies between its initial value and
    that value plus twice the number of frames. *)
Theorem collision_count_bounds :
  forall (fs : list FrameInput) (g : Game) (l : Level),
    (Collision_Count (metrics l)
     <= Collision_Count (metrics (snd (level_loop sqrtQ rect_coord fs (g, l))))
     <= Collision_Count (metrics l) + 2 * Z.of_nat (List.length fs))%Z.
Proof.
  induction fs as [|i rest IH]; intros g l; cbn [level_loop].
  - cbn. lia.
  - cbn [snd]. destruct (level_running l); [|cbn [snd List.length]; lia].
    destruct (frame_motion i g l) as (_ & _ & Hc & _).
    pose proof (resolve_collisions_count (frame_dt i)
                  (integrate (snd (control sqrtQ i g l)))) as Hr.
    destruct (control_keeps sqrtQ i g l) as (_ & _ & _ & _ & _ & _ & Kc & _).
    change (Collision_Count (metrics (integrate (snd (control sqrtQ i g l)))))
      with (Collision_Count (metrics (snd (control sqrtQ i g l)))) in Hr.
    rewrite Kc in Hr.
    destruct (frame sqrtQ rect_coord i (g, l)) as [g1 l1]. cbn [snd] in Hc.
    specialize (IH g1 l1). rewrite Hc in IH. cbn [List.length].
    rewrite Nat2Z.inj_succ. lia.
Qed.

(** X4. One path point per frame: a run of frames appends to the path at
    most one point per frame, exactly one per frame while the level is
    still running, the last appended point is the ball's centre, and
    nothing is appended only if no frame ran. *)
Theorem path_points_one_per_frame :
  forall (fs : list FrameInput) (g : Game) (l : Level),
    let l' := snd (level_loop sqrtQ rect_coord fs (g, l)) in
    exists pts,
      Path_Points (metrics l') = Path_Points (metrics l) ++ pts /\
      (List.length pts <= List.length fs)%nat /\
      (level_running l' = true -> List.length pts = List.length fs) /\
      (pts <> [] -> last pts (0, 0)%Z = center (player l')) /\
      (pts = [] -> l' = l).
Proof.
  induction fs as [|i rest IH]; intros g l; cbn [level_loop].
  - exists []. cbn. rewrite app_nil_r. repeat split; auto. congruence.
  - cbn [snd]. destruct (level_running l) eqn:Hrun.
    + destruct (frame_motion i g l) as (Hp & _ & _ & Hpts & _).
      destruct (resolve_collisions_keeps rect_coord (frame_dt i)
                  (integrate (snd (control sqrtQ i g l))))
        as (_ & _ & _ & _ & _ & Rp & _).
      destruct (control_keeps sqrtQ i g l) as (_ & _ & _ & _ & _ & _ & _ & Kp & _).
      change (Path_Points (metrics (integrate (snd (control sqrtQ i g l)))))
        with (Path_Points (metrics (snd (control sqrtQ i g l)))) in Rp.
      rewrite Rp, Kp in Hpts. rewrite <- Hp in Hpts.
      destruct (frame sqrtQ rect_coord i (g, l)) as [g1 l1]. cbn [snd] in Hpts.
      destruct (IH g1 l1) as (pts & Hq & Hlen & Hrunning & Hlast & Hsame).
      exists (center (player l1) :: pts).
      rewrite Hq, Hpts, <- app_assoc. cbn [app List.length].
      split; [reflexivity|]. split; [lia|]. split; [|split; [|discriminate]].
      * intro H. rewrite (Hrunning H). reflexivity.
      * intros _. destruct pts as [|p pts].
        -- rewrite (Hsame eq_refl). reflexivity.
        -- change (last (center (player l1) :: p :: pts) (0, 0)%Z)
             with (last (p :: pts) (0, 0)%Z).
           apply Hlast. discriminate.
    + exists []. cbn. rewrite app_nil_r. repeat split; auto; try lia.
      * intro H. congruence.
      * congruence.
Qed.

Lemma resolve_x_clear (dt : Q) (l : Level) :
  clear_of_barriers l ->
  clear_of_barriers (fst (resolve_x rect_coord dt (rx (player l)) l)) /\
  level_barriers (fst (resolve_x rect_coord dt (rx (player l)) l)) = level_barriers l /\
  ry (player (fst (resolve_x rect_coord dt (rx (player l)) l))) = ry (player l).
Proof.
  unfold clear_of_barriers, resolve_x. intro Hc.
  cbn [player set_player level_barriers].
  destruct (spritecollide (proposed_x rect_coord dt l) (level_barriers l)) eqn:E;
    cbn [nonempty fst player set_player set_player_velocity set_metrics
         level_barriers].
  - split; [exact E|]. split; reflexivity.
  - unfold proposed_x. destruct l as [[x y w h] v t bs ho s run m].
    cbn in *. split; [exact Hc|]. split; reflexivity.
Qed.

Lemma resolve_y_clear (dt : Q) (old_y : Z) (l : Level) :
  clear_of_barriers l -> ry (player l) = old_y ->
  clear_of_barriers (fst (resolve_y rect_coord dt old_y l)) /\
  level_barriers (fst (resolve_y rect_coord dt old_y l)) = level_barriers l.
Proof.
  unfold clear_of_barriers, resolve_y. intros Hc Hy.
  cbn [player set_player level_barriers].
  destruct (spritecollide (proposed_y rect_coord dt l) (level_barriers l)) eqn:E;
    cbn [nonempty fst player set_player set_player_velocity set_metrics
         level_barriers].
  - split; [exact E | reflexivity].
  - unfold proposed_y. destruct l as [[x y w h] v t bs ho s run m].
    cbn in *. subst old_y. split; [exact Hc | reflexivity].
Qed.

(** The collision resolver never leaves the ball on a barrier. *)
Lemma resolve_collisions_clear (dt : Q) (l : Level) :
  clear_of_barriers l ->
  clear_of_barriers (resolve_collisions rect_coord dt l) /\
  level_barriers (resolve_collisions rect_coord dt l) = level_barriers l.
Proof.
  intro Hc. unfold resolve_collisions.
  destruct (resolve_x_clear dt l Hc) as (H1 & B1 & Y1).
  destruct (resolve_x rect_coord dt (rx (player l)) l) as [l1 xs].
  cbn [fst] in H1, B1, Y1.
  destruct (resolve_y_clear dt (ry (player l)) l1 H1 Y1) as (H2 & B2).
  destruct (resolve_y rect_coord dt (ry (player l)) l1) as [l2 ys].
  cbn [fst] in H2, B2. split; [exact H2 | congruence].
Qed.

Lemma frame_clear (i : FrameInput) (g : Game) (l : Level) :
  clear_of_barriers l ->
  clear_of_barriers (snd (frame sqrtQ rect_coord i (g, l))).
Proof.
  intro Hc. destruct (frame_motion i g l) as (Hp & Hb & _).
  unfold clear_of_barriers. rewrite Hp, Hb.
  apply resolve_collisions_clear.
  destruct (control_keeps sqrtQ i g l) as (Kp & _ & Kb & _).
  unfold clear_of_barriers, integrate.
  cbn [player level_barriers set_player_velocity].
  rewrite Kp, Kb. exact Hc.
Qed.

Lemma level_loop_clear (fs : list FrameInput) :
  forall (g : Game) (l : Level),
    clear_of_barriers l ->
    clear_of_barriers (snd (level_loop sqrtQ rect_coord fs (g, l))).
Proof.
  induction fs as [|i rest IH]; intros g l Hc; cbn [level_loop].
  - exact Hc.
  - cbn [snd]. destruct (level_running l); [|exact Hc].
    pose proof (frame_clear i g l Hc) as H1.
    destruct (frame sqrtQ rect_coord i (g, l)) as [g1 l1]. apply IH. exact H1.
Qed.

End MotionFacts.

(** ** The tile scan and the walls *)

Lemma scanned_before_next_column (r1 c1 r c : Z) :
  scanned_before r1 c1 r c -> scanned_before r1 c1 r (c + 1).
Proof. unfold scanned_before. lia. Qed.

Lemma scanned_before_next_row (r1 c1 r c : Z) :
  scanned_before r1 c1 r c -> scanned_before r1 c1 (r + 1) 0.
Proof. unfold scanned_before. lia. Qed.

(** The ball placed on the centre of one tile misses the barrier of any
    other tile. *)
Lemma start_ball_misses_wall (br bc wr wc : Z) :
  scanned_before wr wc br bc \/ scanned_before br bc wr wc ->
  colliderect
    (Ball (bc * TILE_SIZE + TILE_SIZE / 2) (br * TILE_SIZE + TILE_SIZE / 2))
    (Barrier (wc * TILE_SIZE) (wr * TILE_SIZE) TILE_SIZE TILE_SIZE) = false.
Proof.
  unfold scanned_before, colliderect, Ball, rect_centered, Barrier, TILE_SIZE.
  cbn [rx ry rw rh].
  change (40 / 2)%Z with 20%Z. change (20 / 2)%Z with 10%Z.
  intro H.
  repeat match goal with
         | |- context [(?a <? ?b)%Z] => destruct (Z.ltb_spec a b)
         end; cbn [andb]; try reflexivity; exfalso; lia.
Qed.

Lemma scan_invariant_next_row (r c : Z) (acc : Layout) :
  scan_invariant r c acc -> scan_invariant (r + 1) 0 acc.
Proof.
  intros (HB & HP & HD). repeat split.
  - intros b Hb. destruct (HB b Hb) as (r' & c' & E & Hbefore).
    exists r', c'. split; [exact E | exact (scanned_before_next_row _ _ _ _ Hbefore)].
  - intros p Hp. destruct (HP p Hp) as (r' & c' & E & Hbefore).
    exists r', c'. split; [exact E | exact (scanned_before_next_row _ _ _ _ Hbefore)].
  - exact HD.
Qed.

Lemma scan_tile_invariant (r c : Z) (tile : ascii) (acc : Layout) :
  scan_invariant r c acc -> scan_invariant r (c + 1) (scan_tile r c tile acc).
Proof.
  intros (HB & HP & HD).
  assert (HB' : forall b, In b (barriers acc) ->
                  exists r' c',
                    b = Barrier (c' * TILE_SIZE) (r' * TILE_SIZE) TILE_SIZE TILE_SIZE /\
                    scanned_before r' c' r (c + 1)).
  { intros b Hb. destruct (HB b Hb) as (r' & c' & E & Hbefore).
    exists r', c'. split; [exact E | apply scanned_before_next_column; exact Hbefore]. }
  assert (HP' : forall p, player_start_pos acc = Some p ->
                  exists r' c',
                    p = (c' * TILE_SIZE + TILE_SIZE / 2,
                         r' * TILE_SIZE + TILE_SIZE / 2)%Z /\
                    scanned_before r' c' r (c + 1)).
  { intros p Hp. destruct (HP p Hp) as (r' & c' & E & Hbefore).
    exists r', c'. split; [exact E | apply scanned_before_next_column; exact Hbefore]. }
  assert (Hhere : scanned_before r c r (c + 1)) by (unfold scanned_before; lia).
  unfold scan_tile. cbv zeta.
  destruct (Ascii.eqb tile "W"); [|destruct (Ascii.eqb tile "P");
                                    [|destruct (Ascii.eqb tile "H")]];
    unfold scan_invariant; cbn [barriers player_start_pos hole].
  - split; [|split; [exact HP'|]].
    + intros b Hb. apply in_app_or in Hb. destruct Hb as [Hb | [<- | []]].
      * exact (HB' b Hb).
      * exists r, c. split; [reflexivity | exact Hhere].
    + intros b p Hb Hp. apply in_app_or in Hb. destruct Hb as [Hb | [<- | []]].
      * exact (HD b p Hb Hp).
      * destruct (HP p Hp) as (r' & c' & -> & Hbefore). cbn [fst snd].
        apply start_ball_misses_wall. right. exact Hbefore.
  - split; [exact HB'|split].
    + intros p Hp. injection Hp as <-. exists r, c.
      split; [reflexivity | exact Hhere].
    + intros b p Hb Hp. injection Hp as <-. cbn [fst snd].
      destruct (HB b Hb) as (r' & c' & -> & Hbefore).
      apply start_ball_misses_wall. left. exact Hbefore.
  - split; [exact HB'|split; [exact HP' | exact HD]].
  - split; [exact HB'|split; [exact HP' | exact HD]].
Qed.

Lemma scan_row_invariant (r : Z) (row : string) :
  forall (c : Z) (acc : Layout),
    scan_invariant r c acc ->
    exists c', scan_invariant r c' (scan_row r c row acc).
Proof.
  induction row as [|tile rest IH]; intros c acc H; cbn [scan_row].
  - exists c. exact H.
  - apply IH. apply scan_tile_invariant. exact H.
Qed.

Lemma scan_rows_invariant (level_map : list string) :
  forall (r : Z) (acc : Layout),
    scan_invariant r 0 acc ->
    exists r' c', scan_invariant r' c' (scan_rows r level_map acc).
Proof.
  induction level_map as [|row rest IH]; intros r acc H; cbn [scan_rows].
  - exists r, 0%Z. exact H.
  - destruct (scan_row_invariant r row 0%Z acc H) as (c' & H1).
    apply IH. exact (scan_invariant_next_row r c' _ H1).
Qed.

Lemma filter_none {A} (f : A -> bool) (xs : list A) :
  (forall x, In x xs -> f x = false) -> filter f xs = [].
Proof.
  induction xs as [|x xs IH]; intro H; cbn [filter]; [reflexivity|].
  rewrite (H x (or_introl eq_refl)). apply IH. intros y Hy. apply H. now right.
Qed.

Section WallFacts.

Variable sqrtQ : Q -> Q.
Variable rect_coord : Q -> Z.

(** Whatever the layout, the ball starts clear of every barrier. *)
Lemma init_level_clear (level_name : string) (level_map : list string)
  (now : Q) (l0 : Level) :
  init_level sqrtQ level_name (scan_level level_map) now = Some l0 ->
  clear_of_barriers l0.
Proof.
  intro Hinit.
  destruct (scan_rows_invariant level_map 0%Z empty_layout) as (r & c & _ & _ & HD).
  { repeat split; cbn; intros; try contradiction; discriminate. }
  fold (scan_level level_map) in HD.
  unfold init_level in Hinit.
  destruct (player_start_pos (scan_level level_map)) as [start|] eqn:Hs;
    [|discriminate].
  destruct (hole (scan_level level_map)) as [h|]; [|discriminate].
  injection Hinit as <-. unfold clear_of_barriers, spritecollide.
  cbn [player level_barriers]. apply filter_none.
  intros b Hb. exact (HD b start Hb eq_refl).
Qed.

(** X5. The ball never ends a frame on a wall: in a level built from any
    layout (any grid of tiles), after any run of frames the ball's rect
    overlaps no barrier, whatever the inputs and whatever the coercion of
    coordinates to pixels. *)
Theorem ball_never_overlaps_a_wall :
  forall (level_name : string) (level_map : list string) (now : Q)
         (l0 : Level) (fs : list FrameInput) (g : Game),
    init_level sqrtQ level_name (scan_level level_map) now = Some l0 ->
    clear_of_barriers (snd (level_loop sqrtQ rect_coord fs (g, l0))).
Proof.
  intros level_name level_map now l0 fs g Hinit.
  apply level_loop_clear. exact (init_level_clear _ _ _ _ Hinit).
Qed.

End WallFacts.

(** ** Layouts without a start or a goal *)

Lemma scan_tile_start_none (r c : Z) (tile : ascii) (acc : Layout) :
  player_start_pos (scan_tile r c tile acc) = None <->
  Ascii.eqb tile "P" = false /\ player_start_pos acc = None.
Proof.
  unfold scan_tile. cbv zeta.
  destruct (Ascii.eqb tile "W") eqn:EW.
  - apply Ascii.eqb_eq in EW. subst tile. cbn. tauto.
  - destruct (Ascii.eqb tile "P") eqn:EP; cbn [player_start_pos].
    + split; [discriminate | intros (H & _); discriminate].
    + destruct (Ascii.eqb tile "H"); cbn [player_start_pos]; tauto.
Qed.

Lemma scan_tile_hole_none (r c : Z) (tile : ascii) (acc : Layout) :
  hole (scan_tile r c tile acc) = None <->
  Ascii.eqb tile "H" = false /\ hole acc = None.
Proof.
  unfold scan_tile. cbv zeta.
  destruct (Ascii.eqb tile "W") eqn:EW.
  - apply Ascii.eqb_eq in EW. subst tile. cbn. tauto.
  - destruct (Ascii.eqb tile "P") eqn:EP; cbn [hole].
    + apply Ascii.eqb_eq in EP. subst tile. cbn. tauto.
    + destruct (Ascii.eqb tile "H"); cbn [hole];
        [split; [discriminate | intros (H & _); discriminate] | tauto].
Qed.

Lemma scan_row_none (r : Z) (row : string) :
  forall (c : Z) (acc : Layout),
    (player_start_pos (scan_row r c row acc) = None <->
     row_has_tile "P" row = false /\ player_start_pos acc = None) /\
    (hole (scan_row r c row acc) = None <->
     row_has_tile "H" row = false /\ hole acc = None).
Proof.
  induction row as [|tile rest IH]; intros c acc; cbn [scan_row row_has_tile].
  - tauto.
  - destruct (IH (c + 1)%Z (scan_tile r c tile acc)) as (IP & IHo).
    rewrite IP, IHo, scan_tile_start_none, scan_tile_hole_none.
    rewrite !orb_false_iff. tauto.
Qed.

Lemma scan_rows_none (level_map : list string) :
  forall (r : Z) (acc : Layout),
    (player_start_pos (scan_rows r level_map acc) = None <->
     has_tile "P" level_map = false /\ player_start_pos acc = None) /\
    (hole (scan_rows r level_map acc) = None <->
     has_tile "H" level_map = false /\ hole acc = None).
Proof.
  unfold has_tile.
  induction level_map as [|row rest IH]; intros r acc; cbn [scan_rows existsb].
  - tauto.
  - destruct (IH (r + 1)%Z (scan_row r 0%Z row acc)) as (IP & IHo).
    destruct (scan_row_none r row 0%Z acc) as (RP & RH).
    rewrite IP, IHo, RP, RH, !orb_false_iff. tauto.
Qed.

(** X6. Level construction fails exactly when the layout has no start tile
    or no goal tile; otherwise the level is built. *)
Theorem level_needs_start_and_goal :
  forall (sqrtQ : Q -> Q) (level_name : string) (level_map : list string) (now : Q),
    init_level sqrtQ level_name (scan_level level_map) now = None <->
    has_tile "P" level_map = false \/ has_tile "H" level_map = false.
Proof.
  intros sqrtQ level_name level_map now.
  destruct (scan_rows_none level_map 0%Z empty_layout) as (HP & HH).
  fold (scan_level level_map) in HP, HH. cbn [empty_layout player_start_pos hole] in HP, HH.
  unfold init_level.
  destruct (player_start_pos (scan_level level_map)) as [p|].
  - destruct (hole (scan_level level_map)) as [h|].
    + split; [discriminate|].
      intros [H | H].
      * pose proof (proj2 HP (conj H eq_refl)) as E. discriminate E.
      * pose proof (proj2 HH (conj H eq_refl)) as E. discriminate E.
    + split; [intros _; right; apply HH; reflexivity | reflexivity].
  - split; [intros _; left; apply HP; reflexivity | reflexivity].
Qed.

(** ** The session: levels in order, and what [run] can raise *)

Lemma firstn_succ_nth {A} (xs : list A) :
  forall (i : nat) (x : A),
    nth_error xs i = Some x -> firstn (S i) xs = firstn i xs ++ [x].
Proof.
  induction xs as [|y xs IH]; intros i x H.
  - destruct i; discriminate.
  - destruct i as [|i]; cbn in H.
    + injection H as <-. reflexivity.
    + change (y :: firstn (S i) xs = y :: (firstn i xs ++ [x])).
      f_equal. exact (IH i x H).
Qed.

Lemma level_name_at_some (i : nat) (name : string) :
  level_name_at i = Ok name ->
  nth_error level_sequence i = Some name /\
  (i < List.length level_sequence)%nat /\
  exists level_map, lookup_level name LEVELS = Ok level_map.
Proof.
  unfold level_name_at. intro H.
  destruct (nth_error level_sequence i) as [n|] eqn:E; [|discriminate].
  injection H as ->. split; [reflexivity|].
  split; [apply nth_error_Some; congruence|].
  destruct i as [|[|[|i]]]; unfold level_sequence in E; cbn in E;
    [| | |destruct i; discriminate]; injection E as <-; eexists; reflexivity.
Qed.

Lemma dict_get_raises {V} (k : string) (d : dict V) (e : exn) :
  dict_get k d = Raise e -> e = KeyError.
Proof.
  induction d as [|[k0 v] d IH]; cbn [dict_get].
  - intro H. injection H as <-. reflexivity.
  - destruct (String.eqb k0 k); [discriminate | exact IH].
Qed.

Section RunFacts.

Variable sqrtQ : Q -> Q.
Variable rect_coord : Q -> Z.
Variable float_of_string : string -> option Q.
Variable str_of_float : Q -> string.

Lemma menu_step_in_order
  (step : option string -> Game -> Game * bool) :
  (forall a g,
      (current_level_index (fst (step a g)) = current_level_index g /\
       completed_levels_metrics (fst (step a g)) = completed_levels_metrics g) \/
      (current_level_index (fst (step a g)) = 0%nat /\
       completed_levels_metrics (fst (step a g)) = [])) ->
  forall a g, levels_in_order g -> levels_in_order (fst (step a g)).
Proof.
  intros Hstep a g (H1 & H2). unfold levels_in_order.
  destruct (Hstep a g) as [(Ei & Ec) | (Ei & Ec)]; rewrite Ei, Ec.
  - split; assumption.
  - split; [reflexivity | apply Nat.le_0_l].
Qed.

Lemma user_type_step_in_order (a : option string) (g : Game) :
  levels_in_order g -> levels_in_order (fst (user_type_step a g)).
Proof.
  apply menu_step_in_order. clear. intros a g. left.
  unfold user_type_step. split_ifs; split; reflexivity.
Qed.

Lemma user_info_step_in_order (a : option string) (g : Game) :
  levels_in_order g -> levels_in_order (fst (user_info_step a g)).
Proof.
  apply menu_step_in_order. clear. intros a g. left.
  unfold user_info_step. split_ifs; split; reflexivity.
Qed.

Lemma main_menu_step_in_order (a : option string) (g : Game) :
  levels_in_order g -> levels_in_order (fst (main_menu_step a g)).
Proof.
  apply menu_step_in_order. clear. intros a g.
  unfold main_menu_step. split_ifs; cbn; auto.
Qed.

Lemma settings_step_in_order (a : option string) (g : Game) :
  levels_in_order g -> levels_in_order (fst (settings_step a g)).
Proof.
  apply menu_step_in_order. clear. intros a g. left.
  unfold settings_step. split_ifs; split; reflexivity.
Qed.

Lemma ask_to_continue_keeps (acts : list (option string)) :
  forall g g',
    ask_to_continue acts g = Ok g' ->
    current_level_index g' = current_level_index g /\
    completed_levels_metrics g' = completed_levels_metrics g.
Proof.
  induction acts as [|a acts IH]; intros g g' H; cbn [ask_to_continue] in H.
  - injection H as <-. split; reflexivity.
  - destruct (is_action a "quit");
      [|destruct (is_action a "Continue");
        [|destruct (is_action a "End & Report")]];
      cbn [current_level_index set_running set_game_state] in H;
      destruct (level_name_at (current_level_index g)); try discriminate;
      cbn [Py.bind] in H;
      try (injection H as <-; split; reflexivity).
    exact (IH g g' H).
Qed.

Lemma ask_to_continue_total (acts : list (option string)) :
  forall g,
    (current_level_index g < List.length level_sequence)%nat ->
    exists g', ask_to_continue acts g = Ok g'.
Proof.
  induction acts as [|a acts IH]; intros g Hi; cbn [ask_to_continue].
  - eexists. reflexivity.
  - assert (Hn : exists n, level_name_at (current_level_index g) = Ok n).
    { unfold level_name_at.
      destruct (nth_error level_sequence (current_level_index g)) eqn:E;
        [eexists; reflexivity|].
      apply nth_error_None in E. lia. }
    destruct Hn as (n & Hn).
    destruct (is_action a "quit");
      [|destruct (is_action a "Continue");
        [|destruct (is_action a "End & Report")]];
      cbn [current_level_index set_running set_game_state];
      rewrite Hn; cbn [Py.bind]; try (eexists; reflexivity).
    apply IH. exact Hi.
Qed.

Lemma frame_in_order (i : FrameInput) (g : Game) (l : Level) :
  levels_in_order g ->
  level_name_at (current_level_index g) = Ok (LevelName (metrics l)) ->
  levels_in_order (fst (frame sqrtQ rect_coord i (g, l))) /\
  (level_running (snd (frame sqrtQ rect_coord i (g, l))) = true ->
   level_name_at (current_level_index (fst (frame sqrtQ rect_coord i (g, l)))) =
   Ok (LevelName (metrics (snd (frame sqrtQ rect_coord i (g, l)))))).
Proof.
  intros (Hmap & Hle) Hname.
  destruct (advance_keeps sqrtQ rect_coord i g l)
    as (Hc & Hi & _ & _ & _ & _ & Hn & _).
  destruct (level_name_at_some _ _ Hname) as (Hnth & Hlt & _).
  unfold frame. cbn zeta.
  destruct (goal_reached sqrtQ (snd (advance sqrtQ rect_coord i (g, l)))).
  - split; [|cbn; discriminate].
    unfold levels_in_order.
    rewrite complete_level_completed, complete_level_index, Hc, Hi.
    rewrite map_app, Hmap. cbn [map LevelName set_duration]. rewrite Hn.
    split; [symmetry; apply firstn_succ_nth; exact Hnth | exact Hlt].
  - split.
    + unfold levels_in_order. rewrite Hc, Hi. split; assumption.
    + intros _. rewrite Hi, Hn. exact Hname.
Qed.

Lemma level_loop_in_order (fs : list FrameInput) :
  forall g l,
    levels_in_order g ->
    (level_running l = true ->
     level_name_at (current_level_index g) = Ok (LevelName (metrics l))) ->
    levels_in_order (fst (level_loop sqrtQ rect_coord fs (g, l))).
Proof.
  induction fs as [|i rest IH]; intros g l Ho Hn; cbn [level_loop].
  - exact Ho.
  - cbn [snd]. destruct (level_running l) eqn:Hr; [|exact Ho].
    destruct (frame_in_order i g l Ho (Hn eq_refl)) as (Ho' & Hn').
    destruct (frame sqrtQ rect_coord i (g, l)) as [g1 l1].
    apply IH; assumption.
Qed.

Lemma play_level_in_order (name : string) (now : Q) (fs : list FrameInput)
  (g g' : Game) :
  levels_in_order g ->
  level_name_at (current_level_index g) = Ok name ->
  play_level sqrtQ rect_coord name now fs g = Ok g' ->
  levels_in_order g'.
Proof.
  intros Ho Hn Hp. unfold play_level in Hp.
  destruct (lookup_level name LEVELS) as [level_map|]; [|discriminate].
  cbn [Py.bind] in Hp.
  destruct (init_level sqrtQ name (scan_level level_map) now) as [l|] eqn:Hi.
  - injection Hp as <-. apply level_loop_in_order; [exact Ho|].
    intros _. unfold init_level in Hi.
    destruct (player_start_pos (scan_level level_map)); [|discriminate].
    destruct (hole (scan_level level_map)); [|discriminate].
    injection Hi as <-. exact Hn.
  - injection Hp as <-. exact Ho.
Qed.

Lemma run_step_in_order (i : StepInput) (w w' : World) :
  levels_in_order (game w) ->
  run_step sqrtQ rect_coord float_of_string str_of_float i w = Ok w' ->
  levels_in_order (game w').
Proof.
  intros H Hs. unfold run_step in Hs.
  destruct (game_state (game w)) eqn:Est.
  - injection Hs as <-. cbn [game].
    apply menu_loop_preserves; [exact user_type_step_in_order | exact H].
  - injection Hs as <-. cbn [game].
    apply menu_loop_preserves; [exact user_info_step_in_order | exact H].
  - injection Hs as <-. cbn [game].
    apply menu_loop_preserves; [exact main_menu_step_in_order | exact H].
  - injection Hs as <-. cbn [game].
    apply menu_loop_preserves; [exact settings_step_in_order | exact H].
  - destruct (level_name_at (current_level_index (game w))) as [name|] eqn:Hn;
      [|discriminate].
    cbn [Py.bind] in Hs.
    destruct (play_level sqrtQ rect_coord name (level_start i) (frames i) (game w))
      as [g1|] eqn:Hp; [|discriminate].
    cbn [Py.bind] in Hs. injection Hs as <-. cbn [game].
    exact (play_level_in_order _ _ _ _ _ H Hn Hp).
  - destruct (ask_to_continue (actions i) (game w)) as [g1|] eqn:Ha;
      [|discriminate].
    cbn [Py.bind] in Hs. injection Hs as <-. cbn [game].
    destruct (ask_to_continue_keeps _ _ _ Ha) as (Ei & Ec).
    destruct H as (H1 & H2). unfold levels_in_order. rewrite Ei, Ec.
    split; assumption.
  - destruct (generate_report_for sqrtQ float_of_string str_of_float
                (user_type (game w)) (completed_levels_metrics (game w))
                (thresholds_file w)); [|discriminate].
    cbn [Py.bind] in Hs. injection Hs as <-. cbn [game].
    split; [reflexivity | apply Nat.le_0_l].
Qed.

(** X7. Levels are completed in the order of the sequence: along any run
    of the session loop that starts with the records matching the index (as
    in the initial state), the names of the completed records are exactly
    the first levels of Easy, Medium, Hard up to the current index, and
    there are as many records as the index says. *)
Theorem completed_levels_in_order :
  forall (inputs : list StepInput) (w w' : World),
    levels_in_order (game w) ->
    run sqrtQ rect_coord float_of_string str_of_float inputs w = Ok w' ->
    map LevelName (completed_levels_metrics (game w')) =
      firstn (current_level_index (game w')) level_sequence /\
    List.length (completed_levels_metrics (game w')) = current_level_index (game w').
Proof.
  intros inputs.
  assert (Hrun : forall w w',
             levels_in_order (game w) ->
             run sqrtQ rect_coord float_of_string str_of_float inputs w = Ok w' ->
             levels_in_order (game w')).
  { induction inputs as [|i inputs IH]; intros w w' H Hr; cbn [run] in Hr.
    - injection Hr as <-. exact H.
    - destruct (running (game w)); [|injection Hr as <-; exact H].
      destruct (run_step sqrtQ rect_coord float_of_string str_of_float i w)
        as [w1|] eqn:Hs; [|discriminate].
      cbn [Py.bind] in Hr.
      exact (IH w1 w' (run_step_in_order i w w1 H Hs) Hr). }
  intros w w' H Hr. destruct (Hrun w w' H Hr) as (Hmap & Hle).
  split; [exact Hmap|].
  rewrite <- (length_map LevelName), Hmap. apply firstn_length_le. exact Hle.
Qed.

Lemma generate_report_raises (user : string) (completed : list Metrics)
  (f : File) (e : exn) :
  generate_report_for sqrtQ float_of_string str_of_float user completed f = Raise e ->
  e = KeyError.
Proof.
  unfold generate_report_for. destruct completed as [|m ms]; [discriminate|].
  destruct (level_rows_total sqrtQ (m :: ms)) as (rows & Hrows & Hlen).
  rewrite Hrows. cbn [Py.bind].
  assert (Hr : rows <> []) by (destruct rows; [discriminate Hlen | discriminate]).
  destruct (session_averages_nonempty rows Hr) as (Hs & _).
  rewrite Hs. cbn [Py.bind fst snd].
  match goal with
  | |- context [compare ?a ?b ?c ?d ?e ?f] =>
      destruct (compare a b c d e f) as [cmp|e0] eqn:Hc
  end; cbn [Py.bind]; [discriminate|].
  intro H. injection H as <-.
  unfold compare in Hc. destruct (String.eqb user "rehab"); [|discriminate].
  match type of Hc with
  | context [load_normal_thresholds ?a ?b] =>
      destruct (load_normal_thresholds a b) as [[|kv d]|]
  end; try discriminate.
  unfold comparison_rows in Hc.
  destruct (dict_get "avg_collisions" (kv :: d)) eqn:E1;
    [|injection Hc as <-; exact (dict_get_raises _ _ _ E1)].
  cbn [Py.bind] in Hc.
  destruct (dict_get "avg_cov" (kv :: d)) eqn:E2;
    [|injection Hc as <-; exact (dict_get_raises _ _ _ E2)].
  cbn [Py.bind] in Hc.
  destruct (dict_get "avg_path_eff" (kv :: d)) eqn:E3;
    [|injection Hc as <-; exact (dict_get_raises _ _ _ E3)].
  discriminate.
Qed.

Lemma run_step_raises (i : StepInput) (w : World) (e : exn) :
  index_in_range (game w) ->
  run_step sqrtQ rect_coord float_of_string str_of_float i w = Raise e ->
  e = KeyError.
Proof.
  intros H Hs. unfold run_step in Hs.
  destruct (game_state (game w)) eqn:Est; try discriminate.
  - destruct (playing_level_exists (game w) H Est) as (name & Hn & level_map & Hl).
    rewrite Hn in Hs. cbn [Py.bind] in Hs.
    unfold play_level in Hs. rewrite Hl in Hs. cbn [Py.bind] in Hs.
    destruct (init_level sqrtQ name (scan_level level_map) (level_start i));
      discriminate.
  - destruct (ask_to_continue_total (actions i) (game w)) as (g1 & Ha).
    { apply H. right. exact Est. }
    rewrite Ha in Hs. discriminate.
  - destruct (generate_report_for sqrtQ float_of_string str_of_float
                (user_type (game w)) (completed_levels_metrics (game w))
                (thresholds_file w)) eqn:Hg; [discriminate|].
    cbn [Py.bind] in Hs. injection Hs as <-.
    exact (generate_report_raises _ _ _ _ Hg).
Qed.

(** In the model of the session loop the comparison table's [KeyError] is
    the one exception left. *)
Lemma run_raises_key_error (inputs : list StepInput) :
  forall (w : World) (e : exn),
    index_in_range (game w) ->
    run sqrtQ rect_coord float_of_string str_of_float inputs w = Raise e ->
    e = KeyError.
Proof.
  induction inputs as [|i inputs IH]; intros w e H Hr; cbn [run] in Hr.
  - discriminate.
  - destruct (running (game w)); [|discriminate].
    destruct (run_step sqrtQ rect_coord float_of_string str_of_float i w)
      as [w1|e1] eqn:Hs; cbn [Py.bind] in Hr.
    + exact (IH w1 e (run_step_in_range sqrtQ rect_coord float_of_string
                        str_of_float i w w1 H Hs) Hr).
    + injection Hr as <-. exact (run_step_raises i w e1 H Hs).
Qed.

(** X8. The level index never leaves the level sequence.  Along any run of
    the session loop from a state whose index is in range while a level is
    played or the player is asked to continue (as in the initial state),
    the two places that index [level_sequence] with it, in [run] and in
    [_ask_to_continue], never raise [IndexError]; and when the run returns,
    the index is in range again. *)
Theorem level_index_stays_in_range :
  forall (inputs : list StepInput) (w : World),
    index_in_range (game w) ->
    run sqrtQ rect_coord float_of_string str_of_float inputs w
      <> Raise IndexError /\
    (forall w',
        run sqrtQ rect_coord float_of_string str_of_float inputs w = Ok w' ->
        index_in_range (game w')).
Proof.
  intros inputs w H. split.
  - intro Hr. pose proof (run_raises_key_error inputs w IndexError H Hr).
    discriminate.
  - intros w' Hr.
    exact (run_in_range sqrtQ rect_coord float_of_string str_of_float
             inputs w w' H Hr).
Qed.

End RunFacts.

(** ** Decoding a serial line *)

Section SerialFacts.

Variable int_of_string : string -> option Z.

(** X9. [_read_hardware_data] on a line of text. It reports a sample exactly
    when the line has seven comma-separated fields that are all integers,
    and then stores that sample. A rejected line never changes the
    gyroscope data, but it is not always without effect: the force field is
    assigned before the accelerometer fields are converted, so a line whose
    first field is an integer and whose accelerometer fields are not leaves
    the new force in place while reporting no sample. *)
Theorem serial_line_decoding :
  forall (line : option string) (g : Game),
    (forall raw s,
        line = Some raw -> decode_sample int_of_string raw = Some s ->
        read_hardware_line int_of_string line g = read_hardware_data (Some s) g) /\
    (fst (read_hardware_line int_of_string line g) = true ->
     exists raw s, line = Some raw /\ decode_sample int_of_string raw = Some s) /\
    (fst (read_hardware_line int_of_string line g) = false ->
     gyro_data (snd (read_hardware_line int_of_string line g)) = gyro_data g /\
     (snd (read_hardware_line int_of_string line g) = g \/
      exists fsr,
        snd (read_hardware_line int_of_string line g)
          = set_current_fsr (inject_Z fsr) g \/
        exists accel,
          snd (read_hardware_line int_of_string line g)
            = set_accel_data accel (set_current_fsr (inject_Z fsr) g))) /\
    (forall raw d0 d1 d2 d3 d4 d5 d6 fsr,
        line = Some raw ->
        split "," (strip raw) = [d0; d1; d2; d3; d4; d5; d6] ->
        int_of_string d0 = Some fsr ->
        int_triple int_of_string d1 d2 d3 = None ->
        read_hardware_line int_of_string line g
          = (false, set_current_fsr (inject_Z fsr) g)).
Proof.
  intros line g. split; [|split; [|split]].
  - intros raw s -> Hd. unfold decode_sample in Hd. unfold read_hardware_line.
    destruct (split "," (strip raw))
      as [|d0 [|d1 [|d2 [|d3 [|d4 [|d5 [|d6 [|d7 ds]]]]]]]]; try discriminate.
    destruct (int_of_string d0) as [fsr|]; [|discriminate].
    destruct (int_triple int_of_string d1 d2 d3) as [accel|]; [|discriminate].
    destruct (int_triple int_of_string d4 d5 d6) as [gyro|]; [|discriminate].
    injection Hd as <-. reflexivity.
  - unfold read_hardware_line, decode_sample.
    destruct line as [raw|]; [|discriminate].
    destruct (split "," (strip raw))
      as [|d0 [|d1 [|d2 [|d3 [|d4 [|d5 [|d6 [|d7 ds]]]]]]]] eqn:Es;
      try discriminate.
    destruct (int_of_string d0) as [fsr|] eqn:E0; [|discriminate].
    destruct (int_triple int_of_string d1 d2 d3) as [accel|] eqn:E1; [|discriminate].
    destruct (int_triple int_of_string d4 d5 d6) as [gyro|] eqn:E2; [|discriminate].
    intros _. exists raw, (mkSample fsr accel gyro).
    split; [reflexivity|]. rewrite Es, E0, E1, E2. reflexivity.
  - unfold read_hardware_line.
    destruct line as [raw|]; [|intros _; split; [reflexivity | left; reflexivity]].
    destruct (split "," (strip raw))
      as [|d0 [|d1 [|d2 [|d3 [|d4 [|d5 [|d6 [|d7 ds]]]]]]]];
      try (intros _; split; [reflexivity | left; reflexivity]).
    destruct (int_of_string d0) as [fsr|];
      [|intros _; split; [reflexivity | left; reflexivity]].
    destruct (int_triple int_of_string d1 d2 d3) as [accel|].
    + destruct (int_triple int_of_string d4 d5 d6) as [gyro|]; [discriminate|].
      intros _. split; [reflexivity|]. right. exists fsr. right. exists accel.
      reflexivity.
    + intros _. split; [reflexivity|]. right. exists fsr. left. reflexivity.
  - intros raw d0 d1 d2 d3 d4 d5 d6 fsr -> Es E0 E1. unfold read_hardware_line.
    rewrite Es, E0, E1. reflexivity.
Qed.

End SerialFacts.

(** ** The numbers on the HUD *)

Lemma truncate_nonneg (x : Q) : 0 <= x -> truncate x = Qfloor x.
Proof.
  destruct x as [n d]. unfold Qle, truncate, Qfloor. cbn. intro H.
  apply Z.quot_div_nonneg; lia.
Qed.

Lemma Qfloor_unique (x : Q) (z : Z) :
  inject_Z z <= x -> x < inject_Z (z + 1) -> Qfloor x = z.
Proof.
  intros Hle Hlt.
  apply Z.le_antisymm.
  - assert (H : (Qfloor x < z + 1)%Z).
    { rewrite Zlt_Qlt. apply Qle_lt_trans with x; [apply Qfloor_le | exact Hlt]. }
    lia.
  - rewrite <- (Qfloor_Z z). apply Qfloor_resp_le. exact Hle.
Qed.

(** X10. The HUD timer: for a non-negative elapsed time the displayed
    minutes and seconds are non-negative, the seconds are below 60, and
    together they are the whole seconds elapsed. *)
Theorem hud_timer_decomposition :
  forall elapsed_time : Q,
    0 <= elapsed_time ->
    (0 <= fst (hud_timer elapsed_time))%Z /\
    (0 <= snd (hud_timer elapsed_time) <= 59)%Z /\
    (60 * fst (hud_timer elapsed_time) + snd (hud_timer elapsed_time)
     = Qfloor elapsed_time)%Z.
Proof.
  intros e He. unfold hud_timer. cbv zeta. cbn [fst snd].
  set (q := Qfloor (e / 60)).
  assert (Hq1 : inject_Z q <= e / 60) by apply Qfloor_le.
  assert (Hq2 : e / 60 < inject_Z (q + 1)) by apply Qlt_floor.
  rewrite inject_Z_plus in Hq2. change (inject_Z 1) with 1 in Hq2.
  assert (Hq0 : (0 <= q)%Z).
  { subst q. rewrite <- (Qfloor_Z 0). apply Qfloor_resp_le.
    unfold Qdiv. apply Qmult_le_0_compat; [exact He | discriminate]. }
  assert (Hlo : 0 <= e - 60 * inject_Z q).
  { assert (H : e == (e / 60) * 60) by (field). lra. }
  assert (Hhi : e - 60 * inject_Z q < 60).
  { assert (H : e == (e / 60) * 60) by (field). lra. }
  rewrite (truncate_nonneg (inject_Z q))
    by (change (inject_Z 0 <= inject_Z q); rewrite <- Zle_Qle; exact Hq0).
  rewrite Qfloor_Z.
  rewrite (truncate_nonneg _ Hlo).
  assert (Hs : Qfloor (e - 60 * inject_Z q) = (Qfloor e - 60 * q)%Z).
  { apply Qfloor_unique.
    - unfold Zminus. rewrite inject_Z_plus, inject_Z_opp, inject_Z_mult.
      change (inject_Z 60) with 60.
      pose proof (Qfloor_le e). lra.
    - unfold Zminus. rewrite !inject_Z_plus, inject_Z_opp, inject_Z_mult.
      change (inject_Z 60) with 60. change (inject_Z 1) with 1.
      pose proof (Qlt_floor e) as H. rewrite inject_Z_plus in H.
      change (inject_Z 1) with 1 in H. lra. }
  split; [exact Hq0|]. split; [|lia].
  split.
  - rewrite <- (Qfloor_Z 0). apply Qfloor_resp_le. exact Hlo.
  - assert (H : (Qfloor (e - 60 * inject_Z q) < 60)%Z).
    { rewrite Zlt_Qlt.
      apply Qle_lt_trans with (e - 60 * inject_Z q); [apply Qfloor_le | exact Hhi]. }
    lia.
Qed.

(** X11. The grip meter. For a current force within the range of floats
    (also outside the sensor's range), the filled bar is between 0 and the
    meter's 200 pixels; it is full from the maximum force on, empty for a
    force of zero or less, and proportional in between.  For a force beyond
    the range of floats, which only an int can be, the division raises
    [OverflowError].  The threshold line lies strictly inside the meter. *)
Theorem grip_meter_within_its_frame :
  forall g : Game,
    (Qabs (current_fsr g) < inject_Z Py.float_bound ->
     exists w,
       fill_width g = Ok w /\
       (0 <= w /\ w <= 200) /\
       (MAX_FSR_VALUE <= current_fsr g -> w == 200) /\
       (current_fsr g <= 0 -> w == 0) /\
       (0 <= current_fsr g -> current_fsr g <= MAX_FSR_VALUE ->
        w == 200 * current_fsr g / MAX_FSR_VALUE)) /\
    (inject_Z Py.float_bound <= Qabs (current_fsr g) ->
     fill_width g = Raise OverflowError) /\
    (inject_Z (fst GRIP_METER_POS) < threshold_x /\
     threshold_x < inject_Z (fst GRIP_METER_POS + fst GRIP_METER_SIZE)).
Proof.
  intro g. split; [|split].
  - intro Hin. unfold fill_width, fill_ratio, Py.to_float.
    replace (Qle_bool (inject_Z Py.float_bound) (Qabs (current_fsr g))) with false.
    2:{ symmetry. apply not_true_iff_false. intro H. apply Qle_bool_iff in H.
        apply (Qlt_irrefl (inject_Z Py.float_bound)).
        apply Qle_lt_trans with (Qabs (current_fsr g)); assumption. }
    cbn [Py.bind]. eexists. split; [reflexivity|].
    unfold MAX_FSR_VALUE.
    change (inject_Z (fst GRIP_METER_SIZE)) with 200.
    destruct (clamp_bounds (current_fsr g / 4095) 0 1) as (C0 & C1); [discriminate|].
    split; [split; lra|].
    split; [|split].
    + intro H. unfold clamp.
      rewrite (Q.min_l 1 (current_fsr g / 4095)).
      * rewrite Q.max_r by discriminate. reflexivity.
      * apply Qle_shift_div_l; [reflexivity | lra].
    + intro H. unfold clamp.
      assert (Hd : current_fsr g / 4095 <= 0).
      { apply Qle_shift_div_r; [reflexivity | lra]. }
      rewrite (Q.min_r 1 (current_fsr g / 4095)) by lra.
      rewrite Q.max_l by exact Hd. reflexivity.
    + intros H0 H1.
      rewrite clamp_inside.
      * field.
      * apply Qle_shift_div_l; [reflexivity | lra].
      * apply Qle_shift_div_r; [reflexivity | lra].
  - intro Hout. unfold fill_width, fill_ratio, Py.to_float.
    apply Qle_bool_iff in Hout. rewrite Hout. reflexivity.
  - split; reflexivity.
Qed.

(** ** Writing the baseline file and reading it back *)

Lemma string_forall_app (p : ascii -> bool) (a b : string) :
  string_forall p (a ++ b) = string_forall p a && string_forall p b.
Proof.
  induction a as [|c a IH]; cbn [append string_forall]; [reflexivity|].
  rewrite IH. apply andb_assoc.
Qed.

Lemma string_forall_impl (p q : ascii -> bool) (s : string) :
  (forall c, p c = true -> q c = true) ->
  string_forall p s = true -> string_forall q s = true.
Proof.
  intro H. induction s as [|c s IH]; cbn [string_forall]; [reflexivity|].
  rewrite !andb_true_iff. intros (Hc & Hs). split; auto.
Qed.

Lemma join_forall (p : ascii -> bool) (sep : string) (parts : list string) :
  string_forall p sep = true ->
  Forall (fun s => string_forall p s = true) parts ->
  string_forall p (join sep parts) = true.
Proof.
  intros Hsep Hparts. induction Hparts as [|x xs Hx Hxs IH]; [reflexivity|].
  destruct xs as [|y ys]; [exact Hx|].
  change (join sep (x :: y :: ys)) with (x ++ sep ++ join sep (y :: ys))%string.
  rewrite !string_forall_app, Hx, Hsep, IH. reflexivity.
Qed.

Lemma lstrip_no_space (s : string) :
  string_forall (fun c => negb (is_space c)) s = true -> lstrip s = s.
Proof.
  destruct s as [|c s]; [reflexivity|]. cbn [string_forall lstrip].
  rewrite andb_true_iff, negb_true_iff. intros (Hc & _). rewrite Hc. reflexivity.
Qed.

Lemma rstrip_no_space (s : string) :
  string_forall (fun c => negb (is_space c)) s = true -> rstrip s = s.
Proof.
  induction s as [|c s IH]; [reflexivity|]. cbn [string_forall rstrip].
  rewrite andb_true_iff, negb_true_iff. intros (Hc & Hs).
  rewrite (IH Hs). destruct s; [rewrite Hc|]; reflexivity.
Qed.

Lemma strip_no_space (s : string) :
  string_forall (fun c => negb (is_space c)) s = true -> strip s = s.
Proof.
  intro H. unfold strip. rewrite (lstrip_no_space s H). exact (rstrip_no_space s H).
Qed.

Lemma split_no_separator (sep : ascii) (s : string) :
  string_forall (fun c => negb (Ascii.eqb c sep)) s = true ->
  split sep s = [s].
Proof.
  induction s as [|c s IH]; [reflexivity|]. cbn [string_forall split].
  rewrite andb_true_iff, negb_true_iff. intros (Hc & Hs).
  rewrite Hc, (IH Hs). reflexivity.
Qed.

Lemma split_at_separator (sep : ascii) (a b : string) :
  string_forall (fun c => negb (Ascii.eqb c sep)) a = true ->
  split sep (a ++ String sep b) = a :: split sep b.
Proof.
  induction a as [|c a IH]; cbn [string_forall append split].
  - intros _. rewrite Ascii.eqb_refl. reflexivity.
  - rewrite andb_true_iff, negb_true_iff. intros (Hc & Ha).
    rewrite Hc, (IH Ha). reflexivity.
Qed.

Lemma split_join (sep : ascii) (parts : list string) :
  parts <> [] ->
  Forall (fun s => string_forall (fun c => negb (Ascii.eqb c sep)) s = true) parts ->
  split sep (join (String sep EmptyString) parts) = parts.
Proof.
  intros Hne Hparts. induction Hparts as [|x xs Hx Hxs IH]; [congruence|].
  destruct xs as [|y ys]; [exact (split_no_separator sep x Hx)|].
  change (join (String sep EmptyString) (x :: y :: ys))
    with (x ++ String sep (join (String sep EmptyString) (y :: ys)))%string.
  rewrite (split_at_separator sep x _ Hx). f_equal. apply IH. discriminate.
Qed.

Section BaselineRoundTrip.

Variable float_of_string : string -> option Q.
Variable str_of_float : Q -> string.

Lemma floats_of_strs (xs : list Q) :
  Forall (value_ok float_of_string str_of_float) xs ->
  floats float_of_string (map str_of_float xs) = Ok xs.
Proof.
  induction 1 as [|x xs (_ & Hx) _ IH]; [reflexivity|].
  cbn [map floats]. rewrite Hx, IH. reflexivity.
Qed.

Lemma tokens_of_strs (p : ascii -> bool) (xs : list Q) :
  (forall c, negb (Ascii.eqb c "," || Ascii.eqb c ":" || is_space c) = true ->
             p c = true) ->
  Forall (value_ok float_of_string str_of_float) xs ->
  Forall (fun s => string_forall p s = true) (map str_of_float xs).
Proof.
  intros Hp. induction 1 as [|x xs (Hx & _) _ IH]; cbn [map]; constructor.
  - exact (string_forall_impl _ p _ Hp Hx).
  - exact IH.
Qed.

(** A line written by [_update_normal_thresholds] reads back as its key
    and values. *)
Lemma split_rendered_line (key : string) (xs : list Q) :
  token_ok key = true ->
  Forall (value_ok float_of_string str_of_float) xs ->
  split ":" (strip (render_line str_of_float (key, xs))) =
    [key; join "," (map str_of_float xs)].
Proof.
  intros Hk Hxs. unfold render_line. cbn [fst snd].
  assert (Hvalues : forall p : ascii -> bool,
             p ","%char = true ->
             (forall c, negb (Ascii.eqb c "," || Ascii.eqb c ":" || is_space c) = true ->
                        p c = true) ->
             string_forall p (join "," (map str_of_float xs)) = true).
  { intros p Hcomma Hp. apply join_forall.
    - cbn. rewrite Hcomma. reflexivity.
    - exact (tokens_of_strs p xs Hp Hxs). }
  rewrite strip_no_space.
  - change (key ++ ":" ++ join "," (map str_of_float xs))%string
      with (key ++ String ":" (join "," (map str_of_float xs)))%string.
    rewrite split_at_separator.
    + rewrite split_no_separator; [reflexivity|].
      apply Hvalues; [reflexivity|].
      intros c. rewrite !negb_true_iff, !orb_false_iff. intros ((_ & H) & _).
      exact H.
    + refine (string_forall_impl _ _ _ _ Hk).
      intros c. rewrite !negb_true_iff, !orb_false_iff.
      intros ((_ & H) & _). exact H.
  - rewrite !string_forall_app. rewrite andb_true_iff. split.
    + refine (string_forall_impl _ _ _ _ Hk).
      intros c. rewrite !negb_true_iff, !orb_false_iff.
      intros (_ & H). exact H.
    + rewrite andb_true_iff. split; [reflexivity|].
      apply Hvalues; [reflexivity|].
      intros c. rewrite !negb_true_iff, !orb_false_iff. intros (_ & H). exact H.
Qed.

Lemma floats_rendered (xs : list Q) :
  xs <> [] ->
  Forall (value_ok float_of_string str_of_float) xs ->
  floats float_of_string (split "," (join "," (map str_of_float xs))) = Ok xs.
Proof.
  intros Hne Hxs. rewrite split_join.
  - exact (floats_of_strs xs Hxs).
  - destruct xs; [congruence | discriminate].
  - apply (tokens_of_strs _ xs); [|exact Hxs].
    intros c. rewrite !negb_true_iff, !orb_false_iff. intros ((H & _) & _). exact H.
Qed.

Lemma parse_rendered_line (key : string) (xs : list Q) :
  token_ok key = true -> xs <> [] ->
  Forall (value_ok float_of_string str_of_float) xs ->
  parse_line float_of_string (render_line str_of_float (key, xs)) = Ok (key, xs).
Proof.
  intros Hk Hne Hxs. unfold parse_line.
  rewrite (split_rendered_line key xs Hk Hxs), (floats_rendered xs Hne Hxs).
  reflexivity.
Qed.

Lemma update_rendered_line (key : string) (xs : list Q) (thresholds : dict (list Q)) :
  token_ok key = true -> xs <> [] ->
  Forall (value_ok float_of_string str_of_float) xs ->
  dict_mem key thresholds = true ->
  update_line float_of_string (render_line str_of_float (key, xs)) thresholds
    = Ok (dict_set key xs thresholds).
Proof.
  intros Hk Hne Hxs Hmem. unfold update_line.
  rewrite (split_rendered_line key xs Hk Hxs), Hmem, (floats_rendered xs Hne Hxs).
  reflexivity.
Qed.

Lemma mean_if_any_app (xs : list Q) (x : Q) :
  mean_if_any (xs ++ [x]) = Ok (mean_of (xs ++ [x])).
Proof.
  unfold mean_if_any. destruct (xs ++ [x]) eqn:E; [|reflexivity].
  destruct xs; discriminate.
Qed.

Lemma mean_if_any_nonempty (xs : list Q) :
  xs <> [] -> mean_if_any xs = Ok (mean_of xs).
Proof. destruct xs; [congruence | reflexivity]. Qed.

(** Reading a file of three well-formed histories gives them back. *)
Lemma update_lines_history (covs collisions path_effs : list Q) :
  covs <> [] -> collisions <> [] -> path_effs <> [] ->
  Forall (value_ok float_of_string str_of_float) covs ->
  Forall (value_ok float_of_string str_of_float) collisions ->
  Forall (value_ok float_of_string str_of_float) path_effs ->
  update_lines float_of_string
    (map (render_line str_of_float) (baseline_history covs collisions path_effs))
    (baseline_history [] [] [])
  = baseline_history covs collisions path_effs.
Proof.
  intros N1 N2 N3 H1 H2 H3. unfold baseline_history.
  cbn [map update_lines].
  rewrite (update_rendered_line "avg_cov" covs) by (assumption || reflexivity).
  cbn [dict_set String.eqb Ascii.eqb Bool.eqb fst snd].
  rewrite (update_rendered_line "avg_collisions" collisions)
    by (assumption || reflexivity).
  cbn [dict_set String.eqb Ascii.eqb Bool.eqb fst snd].
  rewrite (update_rendered_line "avg_path_eff" path_effs)
    by (assumption || reflexivity).
  reflexivity.
Qed.

Lemma load_lines_history (covs collisions path_effs : list Q) :
  covs <> [] -> collisions <> [] -> path_effs <> [] ->
  Forall (value_ok float_of_string str_of_float) covs ->
  Forall (value_ok float_of_string str_of_float) collisions ->
  Forall (value_ok float_of_string str_of_float) path_effs ->
  load_normal_thresholds float_of_string
    (baseline_file str_of_float covs collisions path_effs)
  = Some [("avg_cov", mean_of covs); ("avg_collisions", mean_of collisions);
          ("avg_path_eff", mean_of path_effs)]%string.
Proof.
  intros N1 N2 N3 H1 H2 H3.
  unfold load_normal_thresholds, baseline_file, baseline_history.
  cbn [map load_lines].
  rewrite (parse_rendered_line "avg_cov" covs) by (assumption || reflexivity).
  cbn [Py.bind fst snd]. rewrite (mean_if_any_nonempty covs N1). cbn [Py.bind].
  rewrite (parse_rendered_line "avg_collisions" collisions)
    by (assumption || reflexivity).
  cbn [Py.bind fst snd]. rewrite (mean_if_any_nonempty collisions N2). cbn [Py.bind].
  rewrite (parse_rendered_line "avg_path_eff" path_effs)
    by (assumption || reflexivity).
  cbn [Py.bind fst snd]. rewrite (mean_if_any_nonempty path_effs N3).
  reflexivity.
Qed.

(** X12. The baseline file is an append-only history: what a normal
    session records is what the next session reads.  Take any file, missing
    or not, and the three histories it holds.  If every number involved
    survives being printed and read back, then after recording a session's
    three averages the file holds the same histories, each extended by its
    average: that is what the next recording finds in it, the comparison
    loads the means of the extended histories from it, and these means are
    what the recording returns. *)
Theorem baseline_file_round_trip :
  forall (f : File) (covs collisions path_effs : list Q) (a b c : Q),
    stored_histories float_of_string f =
      baseline_history covs collisions path_effs ->
    Forall (value_ok float_of_string str_of_float) (covs ++ [a]) ->
    Forall (value_ok float_of_string str_of_float) (collisions ++ [b]) ->
    Forall (value_ok float_of_string str_of_float) (path_effs ++ [c]) ->
    stored_histories float_of_string
      (fst (update_normal_thresholds float_of_string str_of_float f a b c))
    = baseline_history (covs ++ [a]) (collisions ++ [b]) (path_effs ++ [c]) /\
    load_normal_thresholds float_of_string
      (fst (update_normal_thresholds float_of_string str_of_float f a b c))
    = Some [("avg_cov", mean_of (covs ++ [a]));
            ("avg_collisions", mean_of (collisions ++ [b]));
            ("avg_path_eff", mean_of (path_effs ++ [c]))]%string /\
    snd (update_normal_thresholds float_of_string str_of_float f a b c)
    = Ok [("avg_cov", mean_of (covs ++ [a]));
          ("avg_collisions", mean_of (collisions ++ [b]));
          ("avg_path_eff", mean_of (path_effs ++ [c]))]%string.
Proof.
  intros f covs collisions path_effs a b c Hf H1 H2 H3.
  assert (N1 : covs ++ [a] <> [])
    by (intro E; apply app_eq_nil in E; destruct E; discriminate).
  assert (N2 : collisions ++ [b] <> [])
    by (intro E; apply app_eq_nil in E; destruct E; discriminate).
  assert (N3 : path_effs ++ [c] <> [])
    by (intro E; apply app_eq_nil in E; destruct E; discriminate).
  assert (Hw : fst (update_normal_thresholds float_of_string str_of_float f a b c)
               = baseline_file str_of_float (covs ++ [a]) (collisions ++ [b])
                               (path_effs ++ [c])).
  { unfold update_normal_thresholds. rewrite Hf.
    unfold baseline_file, baseline_history, dict_append.
    cbn [map fst snd String.eqb Ascii.eqb Bool.eqb]. reflexivity. }
  rewrite Hw. split; [|split].
  - unfold stored_histories, baseline_file.
    exact (update_lines_history _ _ _ N1 N2 N3 H1 H2 H3).
  - exact (load_lines_history _ _ _ N1 N2 N3 H1 H2 H3).
  - unfold update_normal_thresholds. rewrite Hf.
    unfold baseline_history, dict_append.
    cbn [map fst snd String.eqb Ascii.eqb Bool.eqb].
    rewrite !mean_if_any_app. reflexivity.
Qed.

End BaselineRoundTrip.

(** ** A line that does not parse *)

Section BaselineDamage.

Variable float_of_string : string -> option Q.
Variable str_of_float : Q -> string.

Lemma update_line_malformed (bad : string) (thresholds : dict (list Q)) :
  List.length (split ":" (strip bad)) <> 2%nat ->
  update_line float_of_string bad thresholds = Raise ValueError.
Proof.
  unfold update_line.
  destruct (split ":" (strip bad)) as [|k [|values [|? ?]]];
    cbn [List.length]; (reflexivity || congruence).
Qed.

Lemma parse_line_malformed (bad : string) :
  List.length (split ":" (strip bad)) <> 2%nat ->
  parse_line float_of_string bad = Raise ValueError.
Proof.
  unfold parse_line.
  destruct (split ":" (strip bad)) as [|k [|values [|? ?]]];
    cbn [List.length]; (reflexivity || congruence).
Qed.

Lemma update_lines_stop (pre post : list string) (bad : string) :
  (forall t, update_line float_of_string bad t = Raise ValueError) ->
  forall thresholds,
    update_lines float_of_string (pre ++ bad :: post) thresholds
    = update_lines float_of_string pre thresholds.
Proof.
  intro Hbad. induction pre as [|l pre IH]; intro th; cbn [app update_lines].
  - rewrite Hbad. reflexivity.
  - destruct (update_line float_of_string l th); [apply IH | reflexivity].
Qed.

(** X13. A line that does not split into a key and its values at a colon
    (a blank line, say) ends the reading of the baseline file. When a normal
    session records its averages, the lines after it are not read, so the
    file is rewritten as if it had ended just before that line: the history
    stored after it is lost. A rehabilitation session that loads such a file
    gets no baseline at all. *)
Theorem malformed_line_truncates_history :
  forall (pre post : list string) (bad : string) (a b c : Q),
    List.length (split ":" (strip bad)) <> 2%nat ->
    update_normal_thresholds float_of_string str_of_float
      (Some (pre ++ bad :: post)) a b c
    = update_normal_thresholds float_of_string str_of_float (Some pre) a b c /\
    load_normal_thresholds float_of_string (Some (pre ++ bad :: post)) = None.
Proof.
  intros pre post bad a b c Hbad. split.
  - unfold update_normal_thresholds, stored_histories.
    rewrite (update_lines_stop pre post bad
               (fun t => update_line_malformed bad t Hbad)).
    reflexivity.
  - unfold load_normal_thresholds.
    assert (H : forall d, exists e,
                 load_lines float_of_string (pre ++ bad :: post) d = Raise e).
    { induction pre as [|l pre IH]; intro d; cbn [app load_lines].
      - rewrite (parse_line_malformed bad Hbad). exists ValueError. reflexivity.
      - destruct (parse_line float_of_string l) as [[k xs]|e];
          [|exists e; reflexivity].
        cbn [Py.bind fst snd].
        destruct (mean_if_any xs) as [m|e]; [|exists e; reflexivity].
        cbn [Py.bind]. apply IH. }
    destruct (H []) as (e & He). rewrite He. reflexivity.
Qed.

End BaselineDamage.

(** ** The comparison table needs all three keys *)

Section ComparisonKeys.

Variable sqrtQ : Q -> Q.
Variable float_of_string : string -> option Q.
Variable str_of_float : Q -> string.

(** X14. A rehabilitation report against a baseline that loads to a
    non-empty dict needs all three keys in it. If one of [avg_cov],
    [avg_collisions], [avg_path_eff] is missing, building the comparison
    table raises [KeyError] and no report is produced; otherwise the report
    is produced with a table, and the baseline file is left as it was. *)
Theorem rehab_report_needs_all_three_keys :
  forall (completed : list Metrics) (lines : list string) (thresholds : dict Q),
    completed <> [] ->
    load_normal_thresholds float_of_string (Some lines) = Some thresholds ->
    thresholds <> [] ->
    (dict_mem "avg_cov" thresholds && dict_mem "avg_collisions" thresholds
       && dict_mem "avg_path_eff" thresholds = false <->
     generate_report_for sqrtQ float_of_string str_of_float "rehab" completed
       (Some lines) = Raise KeyError) /\
    (dict_mem "avg_cov" thresholds && dict_mem "avg_collisions" thresholds
       && dict_mem "avg_path_eff" thresholds = true <->
     exists r table,
       generate_report_for sqrtQ float_of_string str_of_float "rehab" completed
         (Some lines) = Ok (Some r, Some lines) /\
       comparison r = Some table).
Proof.
  intros completed lines th Hc Hload Hth.
  destruct completed as [|m ms]; [congruence|].
  destruct th as [|kv d]; [congruence|].
  unfold generate_report_for.
  destruct (level_rows_total sqrtQ (m :: ms)) as (rows & Hrows & Hlen).
  rewrite Hrows. cbn [Py.bind].
  assert (Hr : rows <> []) by (destruct rows; [discriminate Hlen | discriminate]).
  destruct (session_averages_nonempty rows Hr) as (Hs & _).
  rewrite Hs. cbn [Py.bind fst snd].
  replace (String.eqb "rehab" "normal") with false by reflexivity.
  unfold compare. replace (String.eqb "rehab" "rehab") with true by reflexivity.
  rewrite Hload. unfold comparison_rows.
  destruct (dict_mem "avg_collisions" (kv :: d)) eqn:M2.
  - destruct (dict_get_present _ _ M2) as (v2 & G2). rewrite G2. cbn [Py.bind].
    destruct (dict_mem "avg_cov" (kv :: d)) eqn:M1.
    + destruct (dict_get_present _ _ M1) as (v1 & G1). rewrite G1. cbn [Py.bind].
      destruct (dict_mem "avg_path_eff" (kv :: d)) eqn:M3.
      * destruct (dict_get_present _ _ M3) as (v3 & G3). rewrite G3.
        cbn [Py.bind andb].
        split; split; try discriminate; try (intros _; reflexivity).
        intros _. eexists. eexists. split; reflexivity.
      * apply dict_get_missing in M3. rewrite M3. cbn [Py.bind andb].
        split; split; try reflexivity; try discriminate.
        intros (r & table & H & _). discriminate.
    + apply dict_get_missing in M1. rewrite M1. cbn [Py.bind andb].
      split; split; try reflexivity; try discriminate.
      intros (r & table & H & _). discriminate.
  - apply dict_get_missing in M2. rewrite M2. cbn [Py.bind andb].
    rewrite andb_false_r. cbn [andb].
    split; split; try reflexivity; try discriminate.
    intros (r & table & H & _). discriminate.
Qed.

End ComparisonKeys.

(** ** The click protocol of the menus *)

Section ClickFacts.

Import Sprites.

Lemma same_face_refl (downs : Prop) (b : Button) : same_face downs b b.
Proof. repeat split. intro H. left. exact H. Qed.

Lemma same_face_weaken (P Q : Prop) (b b1 : Button) :
  (P -> Q) -> same_face P b b1 -> same_face Q b b1.
Proof.
  intros HPQ (Hr & Ht & Hh & Hp). repeat split; try assumption.
  intro H. destruct (Hp H) as [H1 | (H1 & H2)]; [left | right]; auto.
Qed.

Lemma same_face_trans (P Q : Prop) (b b1 b2 : Button) :
  same_face P b b1 -> same_face Q b1 b2 -> same_face (P \/ Q) b b2.
Proof.
  intros (Hr & Ht & Hh & Hp) (Hr2 & Ht2 & Hh2 & Hp2). repeat split; try congruence.
  intro H. destruct (Hp2 H) as [H1 | (H1 & H2)].
  - destruct (Hp H1) as [H3 | (H3 & H4)]; [left | right]; auto.
  - right. split; [congruence | right; exact H2].
Qed.

Lemma faces_refl (downs : Prop) (bs : list Button) :
  Forall2 (same_face downs) bs bs.
Proof. induction bs; constructor; [apply same_face_refl | assumption]. Qed.

Lemma faces_weaken (P Q : Prop) (bs bs1 : list Button) :
  (P -> Q) -> Forall2 (same_face P) bs bs1 -> Forall2 (same_face Q) bs bs1.
Proof.
  intros HPQ H. induction H; constructor; [|assumption].
  exact (same_face_weaken P Q _ _ HPQ H).
Qed.

Lemma faces_trans (P Q : Prop) (bs bs1 bs2 : list Button) :
  Forall2 (same_face P) bs bs1 -> Forall2 (same_face Q) bs1 bs2 ->
  Forall2 (same_face (P \/ Q)) bs bs2.
Proof.
  intros H. revert bs2. induction H as [|b b1 bs bs1 Hb Hbs IH]; intros bs2 H2;
    inversion H2; subst; constructor.
  - exact (same_face_trans P Q _ _ _ Hb H1).
  - apply IH. assumption.
Qed.

Lemma faces_in (downs : Prop) (bs bs1 : list Button) (b1 : Button) :
  Forall2 (same_face downs) bs bs1 -> In b1 bs1 ->
  exists b, In b bs /\ same_face downs b b1.
Proof.
  intros H. induction H as [|b b' bs bs1 Hb Hbs IH]; intros Hin; [destruct Hin|].
  destruct Hin as [<- | Hin].
  - exists b. split; [left; reflexivity | exact Hb].
  - destruct (IH Hin) as (b0 & Hin0 & Hb0). exists b0. split; [right|]; assumption.
Qed.

Lemma is_clicked_face (event_type : Z) (b : Button) :
  same_face (event_type = MOUSEBUTTONDOWN) b (fst (is_clicked event_type b)) /\
  (snd (is_clicked event_type b) = true ->
   event_type = MOUSEBUTTONUP /\ is_pressed b = true /\ is_hovered b = true).
Proof.
  unfold is_clicked.
  destruct (event_type =? MOUSEBUTTONDOWN)%Z eqn:Ed; cbn [andb].
  - apply Z.eqb_eq in Ed. destruct (is_hovered b) eqn:Eh; cbn [fst snd].
    + split; [|discriminate]. repeat split; cbn; auto.
    + destruct ((event_type =? MOUSEBUTTONUP)%Z && is_pressed b) eqn:Eu;
        cbn [fst snd].
      * split; [|congruence]. repeat split; cbn; auto; discriminate.
      * split; [apply same_face_refl | discriminate].
  - destruct (event_type =? MOUSEBUTTONUP)%Z eqn:Eu; cbn [andb].
    + apply Z.eqb_eq in Eu. destruct (is_pressed b) eqn:Ep; cbn [fst snd].
      * split; [|auto]. repeat split; cbn; auto; discriminate.
      * split; [apply same_face_refl | discriminate].
    + cbn [fst snd]. split; [apply same_face_refl | discriminate].
Qed.

Lemma click_buttons_face (event_type : Z) (buttons : list Button) :
  Forall2 (same_face (event_type = MOUSEBUTTONDOWN)) buttons
          (fst (click_buttons event_type buttons)) /\
  (forall action,
      snd (click_buttons event_type buttons) = Some action ->
      event_type = MOUSEBUTTONUP /\
      exists b, In b buttons /\ text b = action /\
                is_pressed b = true /\ is_hovered b = true).
Proof.
  induction buttons as [|b rest (IHf & IHa)]; cbn [click_buttons].
  - split; [constructor | discriminate].
  - destruct (is_clicked_face event_type b) as (Hf & Hc).
    destruct (is_clicked event_type b) as [b1 clicked]. cbn [fst snd] in Hf, Hc.
    destruct clicked.
    + cbn [fst snd]. split.
      * constructor; [exact Hf | apply faces_refl].
      * intros action Ha. injection Ha as <-.
        destruct (Hc eq_refl) as (Hu & Hp & Hh). split; [exact Hu|].
        exists b. split; [left; reflexivity|].
        destruct Hf as (_ & Ht & _). auto.
    + destruct (click_buttons event_type rest) as [rest1 action1].
      cbn [fst snd] in *. split.
      * constructor; assumption.
      * intros action Ha. destruct (IHa action Ha) as (Hu & b0 & Hin & H).
        split; [exact Hu|]. exists b0. split; [right; exact Hin | exact H].
Qed.

Lemma press_hovered_face (bs : list Button) :
  Forall2 (same_face True) bs
    (map (fun b => if is_hovered b then set_is_pressed true b else b) bs).
Proof.
  induction bs as [|b bs IH]; cbn [map]; constructor; [|exact IH].
  destruct (is_hovered b) eqn:Eh; [|apply same_face_refl].
  repeat split; cbn; auto.
Qed.

Lemma release_face (bs : list Button) :
  Forall2 (same_face False) bs (map (set_is_pressed false) bs).
Proof.
  induction bs as [|b bs IH]; cbn [map]; constructor; [|exact IH].
  repeat split; cbn. discriminate.
Qed.

Lemma handle_event_face (event_type : Z) (buttons : list Button) :
  Forall2 (same_face (event_type = MOUSEBUTTONDOWN)) buttons
          (fst (handle_event event_type buttons)) /\
  (forall action,
      snd (handle_event event_type buttons) = Some action ->
      event_type = QUIT /\ action = "quit"%string \/
      event_type = MOUSEBUTTONUP /\
      exists b, In b buttons /\ text b = action /\
                is_pressed b = true /\ is_hovered b = true).
Proof.
  unfold handle_event. destruct (event_type =? QUIT)%Z eqn:Eq.
  - apply Z.eqb_eq in Eq. cbn [fst snd]. split; [apply faces_refl|].
    intros action Ha. injection Ha as <-. left. auto.
  - destruct (click_buttons_face event_type buttons) as (Hf & Ha).
    destruct (click_buttons event_type buttons) as [bs1 [action1|]];
      cbn [fst snd] in *.
    + split; [exact Hf|]. intros action H. right. exact (Ha action H).
    + split; [|discriminate].
      destruct (event_type =? MOUSEBUTTONDOWN)%Z eqn:Ed.
      * apply Z.eqb_eq in Ed.
        replace (event_type =? MOUSEBUTTONUP)%Z with false
          by (subst event_type; reflexivity).
        apply (faces_weaken (event_type = MOUSEBUTTONDOWN \/ True));
          [intros _; exact Ed|].
        exact (faces_trans _ _ _ _ _ Hf (press_hovered_face bs1)).
      * destruct (event_type =? MOUSEBUTTONUP)%Z; [|exact Hf].
        apply (faces_weaken (event_type = MOUSEBUTTONDOWN \/ False));
          [intros [H | []]; exact H|].
        exact (faces_trans _ _ _ _ _ Hf (release_face bs1)).
Qed.

Lemma handle_menu_events_click (events : list Z) :
  forall (buttons buttons1 : list Button) (action : string),
    handle_menu_events events buttons = (buttons1, Some action) ->
    action = "quit"%string /\ In QUIT events \/
    exists b, In b buttons /\ text b = action /\ is_hovered b = true /\
              In MOUSEBUTTONUP events /\
              (is_pressed b = true \/ In MOUSEBUTTONDOWN events).
Proof.
  induction events as [|ev events IH]; intros buttons buttons1 action H;
    cbn [handle_menu_events] in H; [discriminate|].
  destruct (handle_event_face ev buttons) as (Hf & Ha).
  destruct (handle_event ev buttons) as [bs1 [action1|]]; cbn [fst snd] in *.
  - injection H as <- <-.
    destruct (Ha action1 eq_refl) as [(Hq & Hn) | (Hu & b & Hin & Ht & Hp & Hh)].
    + left. split; [exact Hn | left; auto].
    + right. exists b. repeat split; auto. left. auto.
  - destruct (IH bs1 buttons1 action H)
      as [(Hn & Hq) | (b1 & Hin1 & Ht & Hh & Hu & Hp)].
    + left. split; [exact Hn | right; exact Hq].
    + right. destruct (faces_in _ _ _ b1 Hf Hin1) as (b & Hin & _ & Ht0 & Hh0 & Hp0).
      exists b. split; [exact Hin|]. split; [congruence|]. split; [congruence|].
      split; [right; exact Hu|].
      destruct Hp as [Hp | Hd]; [|right; right; exact Hd].
      destruct (Hp0 Hp) as [Hb | (_ & Hd)]; [left; exact Hb|].
      right. left. auto.
Qed.

(** X15. A menu action comes from a button that was pressed and released
    under the pointer. If one iteration of a menu loop yields an action,
    then either it is ["quit"] and the queue held a [QUIT] event, or it is
    the text of a button whose rectangle contains the mouse position of this
    iteration, the queue held a [MOUSEBUTTONUP], and the button was already
    pressed or the queue held a [MOUSEBUTTONDOWN]. *)
Theorem menu_action_is_a_released_press :
  forall (mouse_pos : point) (events : list Z)
         (buttons buttons1 : list Button) (action : string),
    menu_frame mouse_pos events buttons = (buttons1, Some action) ->
    action = "quit"%string /\ In QUIT events \/
    exists b, In b buttons /\ text b = action /\
              collidepoint (rect b) mouse_pos = true /\
              In MOUSEBUTTONUP events /\
              (is_pressed b = true \/ In MOUSEBUTTONDOWN events).
Proof.
  intros mouse_pos events buttons buttons1 action H. unfold menu_frame in H.
  destruct (handle_menu_events_click events _ _ _ H)
    as [Hq | (b1 & Hin & Ht & Hh & Hu & Hp)]; [left; exact Hq|].
  right. apply in_map_iff in Hin. destruct Hin as (b & <- & Hin).
  exists b. cbn in Ht, Hh, Hp. auto 6.
Qed.

End ClickFacts.

(** ** The life of a particle *)

Section ParticleFacts.

Import Sprites.

Variable rect_coord : Q -> Z.

Lemma updates_dead (n : nat) (p : Particle) :
  alive p = false -> updates rect_coord n p = p.
Proof. intro H. destruct n; cbn [updates]; [|rewrite H]; reflexivity. Qed.

Lemma updates_succ (n : nat) :
  forall p,
    updates rect_coord (S n) p =
      if alive (updates rect_coord n p)
      then update rect_coord (updates rect_coord n p)
      else updates rect_coord n p.
Proof.
  induction n as [|n IH]; intro p.
  - cbn [updates]. reflexivity.
  - change (updates rect_coord (S (S n)) p)
      with (if alive p then updates rect_coord (S n) (update rect_coord p) else p).
    cbn [updates] in *. destruct (alive p) eqn:Ea.
    + rewrite IH. reflexivity.
    + rewrite Ea. reflexivity.
Qed.

Lemma particle_state (x y : Z) (v : Vec) (n : nat) :
  (n <= 60)%nat ->
  let p := updates rect_coord n (Particle_init x y v) in
  lifespan p = (60 - Z.of_nat n)%Z /\
  alive p = (n <? 60)%nat /\
  velocity p = v /\
  position p = (x + Z.of_nat n * rect_coord (fst v),
                y + Z.of_nat n * rect_coord (snd v))%Z /\
  ((n <= 30)%nat -> alpha p == 255) /\
  ((30 <= n)%nat -> alpha p == (17 # 2) * inject_Z (60 - Z.of_nat n)).
Proof.
  induction n as [|n IH]; intro Hn; cbn zeta.
  - cbn. repeat split; try (f_equal; lia); try (intro; lia).
  - assert (Hn' : (n <= 60)%nat) by lia.
    destruct (IH Hn') as (Hl & Ha & Hv & Hp & Hlo & Hhi). clear IH.
    rewrite updates_succ.
    set (p := updates rect_coord n (Particle_init x y v)) in *.
    rewrite Ha. replace (n <? 60)%nat with true by (symmetry; apply Nat.ltb_lt; lia).
    unfold update. cbn [lifespan alive velocity position alpha].
    rewrite Hl, Hv, Hp. cbn [fst snd].
    split; [lia|]. split.
    { destruct (60 - Z.of_nat n - 1 <=? 0)%Z eqn:E.
      - apply Z.leb_le in E. symmetry. apply Nat.ltb_ge. lia.
      - apply Z.leb_gt in E. rewrite Ha.
        transitivity true; [|symmetry]; apply Nat.ltb_lt; lia. }
    split; [reflexivity|]. split; [f_equal; lia|].
    destruct (60 - Z.of_nat n - 1 <? 30)%Z eqn:E.
    + apply Z.ltb_lt in E. split; [intro; lia|]. intros _.
      assert (H30 : (30 <= n)%nat) by lia.
      assert (Hx : alpha p - 255 / 30 == (17 # 2) * inject_Z (60 - Z.of_nat (S n))).
      { rewrite (Hhi H30). rewrite Nat2Z.inj_succ. unfold Z.succ.
        unfold Zminus. rewrite !inject_Z_plus, !inject_Z_opp, !inject_Z_plus.
        change (inject_Z 1) with 1. change (inject_Z 60) with 60.
        setoid_replace (255 / 30) with (17 # 2) by reflexivity. ring. }
      rewrite Q.max_r; [exact Hx|].
      rewrite Hx. apply Qmult_le_0_compat; [discriminate|].
      change 0 with (inject_Z 0). rewrite <- Zle_Qle. lia.
    + apply Z.ltb_ge in E. split; [intros _; apply Hlo; lia|].
      intro H30. assert (H29 : n = 29%nat) by lia.
      rewrite Hlo by lia. rewrite H29. reflexivity.
Qed.

(** X16. A particle lives exactly sixty updates, and its fade ends when it
    does. For the first thirty updates it is fully opaque; from then on its
    alpha is 8.5 times the updates it has left, so it is exactly transparent
    at the update that removes it; each update moves it by its velocity as
    coerced to pixels; and once removed it no longer changes. *)
Theorem particle_life_and_fade :
  forall (x y : Z) (v : Vec) (n : nat),
    let p := updates rect_coord n (Particle_init x y v) in
    ((n <= 60)%nat ->
     lifespan p = (60 - Z.of_nat n)%Z /\
     alive p = (n <? 60)%nat /\
     position p = (x + Z.of_nat n * rect_coord (fst v),
                   y + Z.of_nat n * rect_coord (snd v))%Z /\
     ((n <= 30)%nat -> alpha p == 255) /\
     ((30 <= n)%nat -> alpha p == (17 # 2) * inject_Z (lifespan p))) /\
    ((60 <= n)%nat ->
     p = updates rect_coord 60 (Particle_init x y v) /\
     alive p = false /\ alpha p == 0).
Proof.
  intros x y v n p. split.
  - intro Hn. destruct (particle_state x y v n Hn) as (Hl & Ha & _ & Hp & Hlo & Hhi).
    fold p in Hl, Ha, Hp, Hlo, Hhi. repeat split; try assumption.
    intro H. rewrite Hl. exact (Hhi H).
  - intro Hn.
    destruct (particle_state x y v 60 (Nat.le_refl 60)) as (_ & Ha & _ & _ & _ & Hhi).
    assert (Hp : p = updates rect_coord 60 (Particle_init x y v)).
    { unfold p. replace n with ((n - 60) + 60)%nat by lia.
      induction (n - 60)%nat as [|k IH]; [reflexivity|].
      change (S k + 60)%nat with (S (k + 60)). rewrite updates_succ, IH, Ha.
      reflexivity. }
    split; [exact Hp|]. rewrite Hp. split; [exact Ha|].
    assert (H30 : (30 <= 60)%nat) by lia.
    rewrite (Hhi H30). reflexivity.
Qed.

End ParticleFacts.

(** ** The historical summary of a player *)

Section HistoryFacts.

Import Database.

Variable sqrtQ : Q -> Q.

Lemma total_count_set (k : string) (d : dict Z) :
  total_count (dict_set k (get_or_zero k d + 1)%Z d) = (total_count d + 1)%Z.
Proof.
  unfold get_or_zero.
  induction d as [|[k0 v0] d IH]; cbn [dict_set dict_get Py.catch total_count fold_right snd].
  - reflexivity.
  - destruct (String.eqb k0 k); cbn [Py.catch fold_right snd].
    + fold (total_count d). lia.
    + fold (total_count d) in *.
      change (fold_right (fun kv n => (snd kv + n)%Z) 0%Z
                (dict_set k (Py.catch (dict_get k d) 0 + 1)%Z d))
        with (total_count (dict_set k (Py.catch (dict_get k d) 0 + 1)%Z d)).
      rewrite IH. lia.
Qed.

Lemma set_add_length (x : Z) (s : list Z) :
  (List.length s <= List.length (set_add x s) <= S (List.length s))%nat /\
  (1 <= List.length (set_add x s))%nat.
Proof.
  unfold set_add. destruct (existsb (Z.eqb x) s) eqn:E.
  - split; [lia|]. destruct s; [discriminate | cbn; lia].
  - rewrite length_app. cbn. lia.
Qed.

Lemma history_cov (readings : list Q) :
  (1 <? List.length readings)%nat = true ->
  (mean_fsr <- mean readings ;;
   stdev_fsr <- stdev sqrtQ readings ;;
   (if Qltb 0 mean_fsr
    then r <- Py.div stdev_fsr mean_fsr ;; Ok (r * 100)
    else Ok 0))
  = Ok (cov_reference sqrtQ readings).
Proof.
  intro H. rewrite <- (cov_reference_eq sqrtQ readings). unfold cov. rewrite H.
  reflexivity.
Qed.

Lemma history_row_ok (row : Row) (acc : Acc) :
  exists acc1,
    history_row sqrtQ row acc = Ok acc1 /\
    unique_sessions acc1 = set_add (session_id row) (unique_sessions acc) /\
    playtime acc1 = playtime acc + duration_seconds row /\
    total_collisions acc1 = (total_collisions acc + collision_count row)%Z /\
    total_count (by_difficulty acc1) = (total_count (by_difficulty acc) + 1)%Z /\
    all_level_covs acc1 =
      all_level_covs acc ++ map (cov_reference sqrtQ) (measured [row]).
Proof.
  unfold history_row, measured. cbn [map filter].
  destruct (1 <? List.length (fsr_readings_move row))%nat eqn:E.
  - pose proof (history_cov _ E) as Hc.
    destruct (mean (fsr_readings_move row)) as [m|]; [|discriminate].
    cbn [Py.bind] in Hc |- *.
    destruct (stdev sqrtQ (fsr_readings_move row)) as [sd|]; [|discriminate].
    cbn [Py.bind] in Hc |- *. rewrite Hc. cbn [Py.bind].
    eexists. split; [reflexivity|]. cbn.
    repeat split. apply total_count_set.
  - eexists. split; [reflexivity|]. cbn. rewrite app_nil_r.
    repeat split. apply total_count_set.
Qed.

Lemma history_rows_ok (results : list Row) :
  forall acc,
    exists acc1,
      history_rows sqrtQ results acc = Ok acc1 /\
      (List.length (unique_sessions acc) <= List.length (unique_sessions acc1)
       <= List.length (unique_sessions acc) + List.length results)%nat /\
      (results <> [] -> 1 <= List.length (unique_sessions acc1))%nat /\
      (forall id, In id (unique_sessions acc1) <->
                  In id (unique_sessions acc) \/ In id (map session_id results)) /\
      total_collisions acc1 =
        (total_collisions acc + fold_right Z.add 0 (map collision_count results))%Z /\
      total_count (by_difficulty acc1) =
        (total_count (by_difficulty acc) + Z.of_nat (List.length results))%Z /\
      all_level_covs acc1 =
        all_level_covs acc ++ map (cov_reference sqrtQ) (measured results).
Proof.
  induction results as [|row rest IH]; intro acc; cbn [history_rows].
  - exists acc. split; [reflexivity|]. cbn [List.length map fold_right measured filter].
    rewrite app_nil_r. repeat split; try lia; try tauto. intros [H | []]; exact H.
  - destruct (history_row_ok row acc) as (acc0 & Hrow & Hs & _ & Hc & Hd & Hv).
    rewrite Hrow. cbn [Py.bind].
    destruct (IH acc0) as (acc1 & Hrest & Hs1 & _ & Hin1 & Hc1 & Hd1 & Hv1).
    exists acc1. split; [exact Hrest|].
    pose proof (set_add_length (session_id row) (unique_sessions acc)) as Hlen.
    rewrite <- Hs in Hlen.
    split; [cbn [List.length]; lia|]. split; [intros _; lia|].
    split.
    { intro id. rewrite Hin1, Hs. unfold set_add. cbn [map In].
      destruct (existsb (Z.eqb (session_id row)) (unique_sessions acc)) eqn:E.
      - apply existsb_exists in E. destruct E as (y & Hy & Hxy).
        apply Z.eqb_eq in Hxy. subst y. split; [tauto|].
        intros [H | [<- | H]]; tauto.
      - rewrite in_app_iff. cbn [In]. tauto. }
    split; [rewrite Hc1, Hc; cbn [map fold_right]; lia|].
    split; [rewrite Hd1, Hd; cbn [List.length]; lia|].
    rewrite Hv1, Hv. rewrite <- app_assoc. f_equal.
    unfold measured. cbn [map filter].
    destruct (1 <? List.length (fsr_readings_move row))%nat; reflexivity.
Qed.

(** X17. The historical summary of a player. On rows with all columns
    present the computation never takes the [except] branch; it counts every
    row once, overall and by difficulty; the sessions counted are at most
    the rows, and at least one when there is a row; the collision average is
    the collisions over the rows; and the grip average is the mean of the
    report's coefficient of variation over the levels with two readings or
    more only (a level with fewer is left out, not counted as 0), and 0 when
    there is none. *)
Theorem player_history_summary :
  forall results : list Row,
    exists s,
      get_player_history sqrtQ results = Some s /\
      total_levels_played s = List.length results /\
      total_count (levels_by_difficulty s) = Z.of_nat (List.length results) /\
      (total_sessions s <= total_levels_played s)%nat /\
      (results <> [] -> 1 <= total_sessions s)%nat /\
      (results <> [] ->
       avg_collisions_per_level s =
         inject_Z (fold_right Z.add 0%Z (map collision_count results))
         / Py.len results) /\
      avg_grip_cov s =
        (if nonempty (measured results)
         then mean_of (map (cov_reference sqrtQ) (measured results))
         else 0).
Proof.
  intros [|row rest].
  - exists empty_summary. cbn. repeat split; try lia; congruence.
  - set (results := row :: rest).
    destruct (history_rows_ok results (mkAcc [] 0 0%Z [] []))
      as (acc & Hrows & Hs & Hs1 & _ & Hc & Hd & Hv).
    cbn [unique_sessions total_collisions by_difficulty all_level_covs
         List.length total_count fold_right app Z.add Nat.add] in Hs, Hc, Hd, Hv.
    unfold get_player_history. fold results. rewrite Hrows. cbn [Py.bind].
    replace (0 <? List.length results)%nat with true by reflexivity.
    unfold Py.div.
    replace (Qeq_bool (Py.len results) 0) with false.
    2:{ symmetry. apply not_true_iff_false. intro H. apply Qeq_bool_iff in H.
        unfold Py.len, Qeq in H. cbn in H. lia. }
    cbn [Py.bind]. rewrite Hv.
    assert (Hne : nonempty (map (cov_reference sqrtQ) (measured results))
                  = nonempty (measured results))
      by (destruct (measured results); reflexivity).
    rewrite Hne.
    destruct (measured results) as [|r rs] eqn:Em; cbn [nonempty map mean Py.bind Py.catch].
    + eexists. split; [reflexivity|].
      cbn [total_levels_played levels_by_difficulty total_sessions
           avg_collisions_per_level avg_grip_cov].
      split; [reflexivity|]. split; [exact Hd|]. split; [exact (proj2 Hs)|].
      split; [exact Hs1|]. split; [intros _; rewrite Hc; reflexivity|].
      reflexivity.
    + eexists. split; [reflexivity|].
      cbn [total_levels_played levels_by_difficulty total_sessions
           avg_collisions_per_level avg_grip_cov].
      split; [reflexivity|]. split; [exact Hd|]. split; [exact (proj2 Hs)|].
      split; [exact Hs1|]. split; [intros _; rewrite Hc; reflexivity|].
      reflexivity.
Qed.

End HistoryFacts.

(** ** Instances of the properties above *)

Lemma velocity_within_max_speed_witness :
  within_speed (player_velocity easy_start) /\
  within_speed
    (player_velocity
       (snd (level_loop Qsqrt truncate [left_up_frame; strong_grip_frame]
                        (Game_init, easy_start)))).
Proof.
  assert (H : within_speed (player_velocity easy_start))
    by (vm_compute; repeat split; discriminate).
  split; [exact H|].
  exact (velocity_within_max_speed Qsqrt truncate
           [left_up_frame; strong_grip_frame] Game_init easy_start H).
Defined.

Lemma frame_displacement_bound_witness :
  (0 <= tick_ms left_up_frame)%Z /\
  within_speed (260, - (130)) /\
  (0 <= frame_dt left_up_frame /\ frame_dt left_up_frame <= 1 # 10) /\
  (- (26) <= 260 * frame_dt left_up_frame /\ 260 * frame_dt left_up_frame <= 26) /\
  (- (26) <= - (130) * frame_dt left_up_frame /\
   - (130) * frame_dt left_up_frame <= 26).
Proof.
  assert (Ht : (0 <= tick_ms left_up_frame)%Z) by (vm_compute; discriminate).
  assert (Hv : within_speed (260, - (130)))
    by (vm_compute; repeat split; discriminate).
  split; [exact Ht|]. split; [exact Hv|].
  exact (frame_displacement_bound left_up_frame (260, - (130)) Ht Hv).
Defined.

Lemma ball_never_overlaps_a_wall_witness :
  init_level Qsqrt "Easy" (scan_level Easy) 0 = Some easy_start /\
  clear_of_barriers
    (snd (level_loop Qsqrt truncate [left_up_frame; left_up_frame]
                     (Game_init, easy_start))).
Proof.
  assert (H : init_level Qsqrt "Easy" (scan_level Easy) 0 = Some easy_start)
    by (vm_compute; reflexivity).
  split; [exact H|].
  exact (ball_never_overlaps_a_wall Qsqrt truncate "Easy" Easy 0 easy_start
           [left_up_frame; left_up_frame] Game_init H).
Defined.

Lemma completed_levels_in_order_witness :
  levels_in_order (game level_done_world) /\
  run Qsqrt truncate float_of_digits str_of_floor
      [mkStepInput [None; Some "End & Report"%string] 0 []] level_done_world
  = Ok (mkWorld (set_game_state generate_report (game level_done_world)) None []) /\
  map LevelName
      (completed_levels_metrics
         (game (mkWorld (set_game_state generate_report (game level_done_world))
                        None []))) =
    firstn (current_level_index
              (game (mkWorld (set_game_state generate_report
                                (game level_done_world)) None [])))
           level_sequence /\
  List.length
    (completed_levels_metrics
       (game (mkWorld (set_game_state generate_report (game level_done_world))
                      None []))) =
    current_level_index
      (game (mkWorld (set_game_state generate_report (game level_done_world))
                     None [])).
Proof.
  assert (H : levels_in_order (game level_done_world))
    by (split; [reflexivity | vm_compute; lia]).
  assert (Hr : run Qsqrt truncate float_of_digits str_of_floor
                 [mkStepInput [None; Some "End & Report"%string] 0 []]
                 level_done_world
               = Ok (mkWorld (set_game_state generate_report
                                (game level_done_world)) None []))
    by (vm_compute; reflexivity).
  split; [exact H|]. split; [exact Hr|].
  exact (completed_levels_in_order Qsqrt truncate float_of_digits str_of_floor
           _ _ _ H Hr).
Defined.

Lemma level_index_stays_in_range_witness :
  index_in_range (game level_done_world) /\
  run Qsqrt truncate float_of_digits str_of_floor
      [mkStepInput [None; Some "Continue"%string] 0 [];
       mkStepInput [] 0 [left_up_frame; left_up_frame]]
      level_done_world
    <> Raise IndexError /\
  (forall w',
      run Qsqrt truncate float_of_digits str_of_floor
          [mkStepInput [None; Some "Continue"%string] 0 [];
           mkStepInput [] 0 [left_up_frame; left_up_frame]]
          level_done_world = Ok w' ->
      index_in_range (game w')).
Proof.
  assert (H : index_in_range (game level_done_world))
    by (intros _; vm_compute; lia).
  split; [exact H|].
  exact (level_index_stays_in_range Qsqrt truncate float_of_digits str_of_floor
           _ level_done_world H).
Defined.

Lemma hud_timer_decomposition_witness :
  0 <= 251 # 2 /\
  (0 <= fst (hud_timer (251 # 2)))%Z /\
  (0 <= snd (hud_timer (251 # 2)) <= 59)%Z /\
  (60 * fst (hud_timer (251 # 2)) + snd (hud_timer (251 # 2))
   = Qfloor (251 # 2))%Z.
Proof.
  assert (H : 0 <= 251 # 2) by (vm_compute; discriminate).
  split; [exact H|]. exact (hud_timer_decomposition (251 # 2) H).
Defined.

Lemma baseline_file_round_trip_witness :
  stored_histories float_of_digits
    (Some ["avg_cov:10"; "avg_collisions:3"; "avg_path_eff:80"]%string)
  = baseline_history [10] [3] [80] /\
  Forall (value_ok float_of_digits str_of_floor) ([10] ++ [20]) /\
  Forall (value_ok float_of_digits str_of_floor) ([3] ++ [4]) /\
  Forall (value_ok float_of_digits str_of_floor) ([80] ++ [90]) /\
  stored_histories float_of_digits
    (fst (update_normal_thresholds float_of_digits str_of_floor
            (Some ["avg_cov:10"; "avg_collisions:3"; "avg_path_eff:80"]%string)
            20 4 90))
  = baseline_history ([10] ++ [20]) ([3] ++ [4]) ([80] ++ [90]) /\
  load_normal_thresholds float_of_digits
    (fst (update_normal_thresholds float_of_digits str_of_floor
            (Some ["avg_cov:10"; "avg_collisions:3"; "avg_path_eff:80"]%string)
            20 4 90))
  = Some [("avg_cov", mean_of ([10] ++ [20]));
          ("avg_collisions", mean_of ([3] ++ [4]));
          ("avg_path_eff", mean_of ([80] ++ [90]))]%string /\
  snd (update_normal_thresholds float_of_digits str_of_floor
         (Some ["avg_cov:10"; "avg_collisions:3"; "avg_path_eff:80"]%string)
         20 4 90)
  = Ok [("avg_cov", mean_of ([10] ++ [20]));
        ("avg_collisions", mean_of ([3] ++ [4]));
        ("avg_path_eff", mean_of ([80] ++ [90]))]%string.
Proof.
  assert (Hf : stored_histories float_of_digits
                 (Some ["avg_cov:10"; "avg_collisions:3"; "avg_path_eff:80"]%string)
               = baseline_history [10] [3] [80])
    by (vm_compute; reflexivity).
  assert (H1 : Forall (value_ok float_of_digits str_of_floor) ([10] ++ [20]))
    by (repeat constructor; vm_compute; reflexivity).
  assert (H2 : Forall (value_ok float_of_digits str_of_floor) ([3] ++ [4]))
    by (repeat constructor; vm_compute; reflexivity).
  assert (H3 : Forall (value_ok float_of_digits str_of_floor) ([80] ++ [90]))
    by (repeat constructor; vm_compute; reflexivity).
  repeat (split; [assumption|]).
  exact (baseline_file_round_trip float_of_digits str_of_floor
           (Some ["avg_cov:10"; "avg_collisions:3"; "avg_path_eff:80"]%string)
           [10] [3] [80] 20 4 90 Hf H1 H2 H3).
Defined.

Lemma malformed_line_truncates_history_witness :
  List.length (split ":" (strip EmptyString)) <> 2%nat /\
  update_normal_thresholds float_of_digits str_of_floor
    (Some (["avg_cov:10"%string] ++ EmptyString :: ["avg_collisions:3"%string]))
    20 4 90
  = update_normal_thresholds float_of_digits str_of_floor
      (Some ["avg_cov:10"%string]) 20 4 90 /\
  load_normal_thresholds float_of_digits
    (Some (["avg_cov:10"%string] ++ EmptyString :: ["avg_collisions:3"%string]))
  = None.
Proof.
  assert (H : List.length (split ":" (strip EmptyString)) <> 2%nat)
    by (vm_compute; discriminate).
  split; [exact H|].
  exact (malformed_line_truncates_history float_of_digits str_of_floor
           ["avg_cov:10"%string] ["avg_collisions:3"%string] EmptyString
           20 4 90 H).
Defined.

Lemma rehab_report_needs_all_three_keys_witness :
  [straight_path_metrics] <> [] /\
  load_normal_thresholds float_of_digits (Some ["avg_cov:1"%string])
  = Some [("avg_cov"%string, mean_of [1])] /\
  [("avg_cov"%string, mean_of [1])] <> [] /\
  (dict_mem "avg_cov" [("avg_cov"%string, mean_of [1])]
   && dict_mem "avg_collisions" [("avg_cov"%string, mean_of [1])]
   && dict_mem "avg_path_eff" [("avg_cov"%string, mean_of [1])] = false <->
   generate_report_for Qsqrt float_of_digits str_of_floor "rehab"
     [straight_path_metrics] (Some ["avg_cov:1"%string]) = Raise KeyError) /\
  (dict_mem "avg_cov" [("avg_cov"%string, mean_of [1])]
   && dict_mem "avg_collisions" [("avg_cov"%string, mean_of [1])]
   && dict_mem "avg_path_eff" [("avg_cov"%string, mean_of [1])] = true <->
   exists r table,
     generate_report_for Qsqrt float_of_digits str_of_floor "rehab"
       [straight_path_metrics] (Some ["avg_cov:1"%string])
     = Ok (Some r, Some ["avg_cov:1"%string]) /\
     comparison r = Some table).
Proof.
  assert (N : [straight_path_metrics] <> []) by discriminate.
  assert (H : load_normal_thresholds float_of_digits (Some ["avg_cov:1"%string])
              = Some [("avg_cov"%string, mean_of [1])])
    by (vm_compute; reflexivity).
  assert (M : [("avg_cov"%string, mean_of [1])] <> []) by discriminate.
  split; [exact N|]. split; [exact H|]. split; [exact M|].
  exact (rehab_report_needs_all_three_keys Qsqrt float_of_digits str_of_floor
           [straight_path_metrics] ["avg_cov:1"%string]
           [("avg_cov"%string, mean_of [1])] N H M).
Defined.

Lemma menu_action_is_a_released_press_witness :
  menu_frame (500, 360)%Z [MOUSEBUTTONDOWN; MOUSEBUTTONUP] main_menu_buttons
  = (fst (menu_frame (500, 360)%Z [MOUSEBUTTONDOWN; MOUSEBUTTONUP]
                     main_menu_buttons),
     Some "Settings"%string) /\
  ("Settings"%string = "quit"%string /\
   In QUIT [MOUSEBUTTONDOWN; MOUSEBUTTONUP] \/
   exists b, In b main_menu_buttons /\ Sprites.text b = "Settings"%string /\
             Sprites.collidepoint (Sprites.rect b) (500, 360)%Z = true /\
             In MOUSEBUTTONUP [MOUSEBUTTONDOWN; MOUSEBUTTONUP] /\
             (Sprites.is_pressed b = true \/
              In MOUSEBUTTONDOWN [MOUSEBUTTONDOWN; MOUSEBUTTONUP])).
Proof.
  assert (H : menu_frame (500, 360)%Z [MOUSEBUTTONDOWN; MOUSEBUTTONUP]
                main_menu_buttons
              = (fst (menu_frame (500, 360)%Z [MOUSEBUTTONDOWN; MOUSEBUTTONUP]
                                 main_menu_buttons),
                 Some "Settings"%string))
    by (vm_compute; reflexivity).
  split; [exact H|].
  exact (menu_action_is_a_released_press (500, 360)%Z
           [MOUSEBUTTONDOWN; MOUSEBUTTONUP] main_menu_buttons _
           "Settings"%string H).
Defined.
